(** * CosmicPhotobooth: capture sequencer and strip compositor

    A shallow embedding of [src/components/CosmicPhotobooth.tsx] and of the
    sticker catalog [src/components/stickers.ts].

    - JavaScript strings are [string]s whose characters stand for code
      units below 256; numbers used for layout are integers ([Z]), the
      results of [Math.random()] and what is computed from them are
      rationals ([Q]).
    - The React component is a record of its [useState] cells, a record
      of the closures its [useCallback]s hold, and the pending
      continuation of the one [async] function.
    - A 2D drawing context is its drawing state, its save stack, its
      current path and the list of what has been painted so far.
    - The browser is a parameter: its CSS colour and filter parsers, the
      computed style of the document, and the stream of random numbers.

    The second half embeds the accounts service [src/lib/auth.ts], the
    route guard [src/components/ProtectedRoute.tsx] and the forms of the
    login and register pages: a Web Storage area is a function from keys
    to texts, a call that can throw returns an outcome beside the
    storage it leaves, and [JSON], the storage quota and the build mode
    are parameters of the platform. *)

From Stdlib Require Import List ZArith QArith Qround String Ascii Bool Lia Lqa.
From Stdlib Require Import DecimalString.
Import ListNotations.
Open Scope string_scope.
Open Scope Z_scope.

(** ** JavaScript strings *)

Module JS.

(** Truthiness of a string: every string but the empty one. *)
Definition truthy (s : string) : bool :=
  match s with EmptyString => false | String _ _ => true end.

(** [a || b] on strings. *)
Definition or (a b : string) : string := if truthy a then a else b.

(** [s.startsWith(p)]. *)
Definition startsWith (p s : string) : bool := String.prefix p s.

(** WhiteSpace and LineTerminator code units below 256: TAB, LF, VT, FF,
    CR, SP and NBSP. *)
Definition is_ws (c : ascii) : bool :=
  let n := nat_of_ascii c in
  (Nat.eqb n 9 || Nat.eqb n 10 || Nat.eqb n 11 || Nat.eqb n 12 ||
   Nat.eqb n 13 || Nat.eqb n 32 || Nat.eqb n 160)%bool.

Fixpoint trimStart (s : string) : string :=
  match s with
  | EmptyString => EmptyString
  | String c r => if is_ws c then trimStart r else s
  end.

Fixpoint trimEnd (s : string) : string :=
  match s with
  | EmptyString => EmptyString
  | String c r =>
      match trimEnd r with
      | EmptyString => if is_ws c then EmptyString else String c EmptyString
      | r' => String c r'
      end
  end.

(** [s.trim()]. *)
Definition trim (s : string) : string := trimEnd (trimStart s).

Fixpoint drop (n : nat) (s : string) : string :=
  match n, s with
  | O, _ => s
  | S n', String _ r => drop n' r
  | S _, EmptyString => EmptyString
  end.

(** The longest prefix without a closing parenthesis, and what follows:
    the greedy [[^)]+] of the pattern below. *)
Fixpoint span_not_rparen (s : string) : string * string :=
  match s with
  | EmptyString => (EmptyString, EmptyString)
  | String c r =>
      if Ascii.eqb c ")" then (EmptyString, s)
      else let (run, rest) := span_not_rparen r in (String c run, rest)
  end.

(** A match of [/var\(([^)]+)\)/] anchored at the start of [s]: its
    group 1.  The run of non-parenthesis characters is maximal, so no
    shorter run can be followed by a parenthesis. *)
Definition match_var_at (s : string) : option string :=
  if String.prefix "var(" s then
    let (run, rest) := span_not_rparen (drop 4 s) in
    if (truthy run && String.prefix ")" rest)%bool then Some run else None
  else None.

(** [s.match(/var\(([^)]+)\)/)]: the leftmost match, group 1 of it;
    [None] is JavaScript's [null]. *)
Fixpoint match_var (s : string) : option string :=
  match match_var_at s with
  | Some g => Some g
  | None =>
      match s with
      | EmptyString => None
      | String _ r => match_var r
      end
  end.

(** [s.endsWith(p)]. *)
Definition endsWith (p s : string) : bool :=
  ((String.length p <=? String.length s)%nat
   && (substring (String.length s - String.length p) (String.length p) s =? p)%string)%bool.

(** [s.split(sep)[0]] for a separator of one character: what comes
    before its first occurrence, all of [s] when there is none. *)
Fixpoint before (sep : ascii) (s : string) : string :=
  match s with
  | EmptyString => EmptyString
  | String c r => if Ascii.eqb c sep then EmptyString else String c (before sep r)
  end.

(** An integer number in a template literal: its decimal digits. *)
Definition toString (z : Z) : string := NilZero.string_of_int (Z.to_int z).

(** The 64 digits of Base64. *)
Definition base64_alphabet : string :=
  "ABCDEFGHIJKLMNOPQRSTUVWXYZabcdefghijklmnopqrstuvwxyz0123456789+/".

(** The digit of six bits, the most significant first. *)
Definition sextet (b5 b4 b3 b2 b1 b0 : bool) : ascii :=
  let bit (b : bool) (n : nat) : nat := if b then n else 0%nat in
  match String.get (bit b5 32 + bit b4 16 + bit b3 8 + bit b2 4 + bit b1 2 + bit b0 1)%nat
          base64_alphabet with
  | Some c => c
  | None => "="%char
  end.

(** [btoa(s)]: the Base64 of the bytes of [s], three bytes to four
    digits, the last group padded.  (A string with a code unit above 255
    makes [btoa] throw; there is none here.) *)
Fixpoint btoa (s : string) : string :=
  match s with
  | EmptyString => EmptyString
  | String (Ascii a0 a1 a2 a3 a4 a5 a6 a7) EmptyString =>
      String (sextet a7 a6 a5 a4 a3 a2)
        (String (sextet a1 a0 false false false false)
           (String "=" (String "=" EmptyString)))
  | String (Ascii a0 a1 a2 a3 a4 a5 a6 a7)
      (String (Ascii b0 b1 b2 b3 b4 b5 b6 b7) EmptyString) =>
      String (sextet a7 a6 a5 a4 a3 a2)
        (String (sextet a1 a0 b7 b6 b5 b4)
           (String (sextet b3 b2 b1 b0 false false)
              (String "=" EmptyString)))
  | String (Ascii a0 a1 a2 a3 a4 a5 a6 a7)
      (String (Ascii b0 b1 b2 b3 b4 b5 b6 b7)
         (String (Ascii c0 c1 c2 c3 c4 c5 c6 c7) r)) =>
      String (sextet a7 a6 a5 a4 a3 a2)
        (String (sextet a1 a0 b7 b6 b5 b4)
           (String (sextet b3 b2 b1 b0 c7 c6)
              (String (sextet c5 c4 c3 c2 c1 c0) (btoa r))))
  end.

End JS.

(** ** The catalogs *)

Record Filter := { name : string; cssFilter : string }.

Definition filters : list Filter :=
  [ {| name := "No Filter"; cssFilter := "none" |};
    {| name := "B&W";       cssFilter := "var(--filter-bw)" |};
    {| name := "Sepia";     cssFilter := "var(--filter-sepia)" |};
    {| name := "Vintage";   cssFilter := "var(--filter-vintage)" |};
    {| name := "Soft";      cssFilter := "var(--filter-soft)" |};
    {| name := "Noir";      cssFilter := "var(--filter-noir)" |};
    {| name := "Vivid";     cssFilter := "var(--filter-vivid)" |} ].

Definition Filter_eqb (a b : Filter) : bool :=
  (String.eqb (name a) (name b) && String.eqb (cssFilter a) (cssFilter b))%bool.

Record StripStyle := { style_name : string; className : string }.

Definition stripStyles : list StripStyle :=
  [ {| style_name := "Custom Color"; className := "strip-custom" |} ].

Record StickerTheme :=
  { theme_name : string; value : string; images : list string }.

Definition STICKER_THEMES : list StickerTheme :=
  [ {| theme_name := "None";     value := "none";    images := [] |};
    {| theme_name := "Heart";    value := "heart";   images := ["/stickers/heart.png"] |};
    {| theme_name := "Star";     value := "star";    images := ["/stickers/star.png"] |};
    {| theme_name := "Cute Cat"; value := "cat";     images := ["/stickers/cat.png"] |};
    {| theme_name := "Cartoon";  value := "cartoon"; images := ["/stickers/cartoon.png"] |} ].

(** ** Random numbers *)

(** A result of [Math.random()]: a number [r] with [0 <= r < 1]. *)
Definition in_unit (q : Q) : bool := (Qle_bool 0 q && negb (Qle_bool 1 q))%bool.

Record Unit01 := { u_val : Q; u_ok : in_unit u_val = true }.

(** [Math.floor] *)
Definition floor (q : Q) : Z := Qfloor q.

(** ** Pictures *)

(** What [canvas.toDataURL('image/jpeg', 0.8)] encodes at a shot: the
    frame of the video that was drawn, the filter the context had when
    it was drawn, and the size of the canvas.  A data URL is never the
    empty string, so a [Snapshot] is always truthy. *)
Record Snapshot :=
  { snap_frame : nat; snap_filter : string; snap_width : Z; snap_height : Z }.

Inductive ImageSource :=
| SrcSnapshot (s : Snapshot)
| SrcUrl (url : string).

Inductive Angle :=
| Radians (q : Q)
| PiTimes (q : Q).

Inductive Xform :=
| Translate (x y : Q)
| Rotate (a : Angle).

Inductive PathSeg :=
| Ellipse (x y rx ry : Q)
| MoveTo (x y : Q)
| BezierCurveTo (c1x c1y c2x c2y x y : Q).

(** What a paint operation draws. *)
Inductive Shape :=
| FillRect (x y w h : Z)
| StrokeRect (x y w h : Z)
| FillPath (p : list PathSeg)
| FillText (text : string) (x y : Z)
| DrawImage (img : ImageSource) (x y w h : Q).

Record DrawState :=
  { ds_fillStyle : string; ds_strokeStyle : string; ds_lineWidth : Z;
    ds_font : string; ds_textAlign : string; ds_filter : string;
    ds_xform : list Xform }.

Definition default_state : DrawState :=
  {| ds_fillStyle := "#000000"; ds_strokeStyle := "#000000"; ds_lineWidth := 1;
     ds_font := "10px sans-serif"; ds_textAlign := "start"; ds_filter := "none";
     ds_xform := [] |}.

(** One paint operation, with the drawing state it was done in. *)
Record Painted := { shape : Shape; state : DrawState }.

Record Ctx :=
  { cur : DrawState; saved : list DrawState; path : list PathSeg;
    painted : list Painted }.

Definition new_ctx : Ctx :=
  {| cur := default_state; saved := []; path := []; painted := [] |}.

(** The values a style attribute of the context is parsed as. *)
Inductive CssKind := CssColor | CssFilterList | CssFont.

(** The browser the component runs in. *)
Class Browser :=
  { (** The CSS parsers: whether a string is a value of the kind. *)
    css_valid : CssKind -> string -> bool;
    (** [getComputedStyle(document.documentElement).getPropertyValue]
        and [getComputedStyle(document.body).getPropertyValue]; the
        empty string for a property that is not set. *)
    rootStyle : string -> string;
    bodyStyle : string -> string;
    (** The successive results of [Math.random()]. *)
    random : nat -> Unit01 }.

Section Model.

Context {browser : Browser}.

(** ** The 2D context *)

Definition with_cur (f : DrawState -> DrawState) (c : Ctx) : Ctx :=
  {| cur := f (cur c); saved := saved c; path := path c; painted := painted c |}.

Definition paint (sh : Shape) (c : Ctx) : Ctx :=
  {| cur := cur c; saved := saved c; path := path c;
     painted := painted c ++ [ {| shape := sh; state := cur c |} ] |}.

(** The setters ignore a value that does not parse. *)
Definition set_fillStyle (v : string) (c : Ctx) : Ctx :=
  if css_valid CssColor v then
    with_cur (fun d =>
      {| ds_fillStyle := v; ds_strokeStyle := ds_strokeStyle d;
         ds_lineWidth := ds_lineWidth d; ds_font := ds_font d;
         ds_textAlign := ds_textAlign d; ds_filter := ds_filter d;
         ds_xform := ds_xform d |}) c
  else c.

Definition set_strokeStyle (v : string) (c : Ctx) : Ctx :=
  if css_valid CssColor v then
    with_cur (fun d =>
      {| ds_fillStyle := ds_fillStyle d; ds_strokeStyle := v;
         ds_lineWidth := ds_lineWidth d; ds_font := ds_font d;
         ds_textAlign := ds_textAlign d; ds_filter := ds_filter d;
         ds_xform := ds_xform d |}) c
  else c.

Definition set_lineWidth (v : Z) (c : Ctx) : Ctx :=
  if 0 <? v then
    with_cur (fun d =>
      {| ds_fillStyle := ds_fillStyle d; ds_strokeStyle := ds_strokeStyle d;
         ds_lineWidth := v; ds_font := ds_font d;
         ds_textAlign := ds_textAlign d; ds_filter := ds_filter d;
         ds_xform := ds_xform d |}) c
  else c.

Definition set_font (v : string) (c : Ctx) : Ctx :=
  if css_valid CssFont v then
    with_cur (fun d =>
      {| ds_fillStyle := ds_fillStyle d; ds_strokeStyle := ds_strokeStyle d;
         ds_lineWidth := ds_lineWidth d; ds_font := v;
         ds_textAlign := ds_textAlign d; ds_filter := ds_filter d;
         ds_xform := ds_xform d |}) c
  else c.

Definition textAlign_keywords : list string :=
  ["start"; "end"; "left"; "right"; "center"].

Definition set_textAlign (v : string) (c : Ctx) : Ctx :=
  if existsb (String.eqb v) textAlign_keywords then
    with_cur (fun d =>
      {| ds_fillStyle := ds_fillStyle d; ds_strokeStyle := ds_strokeStyle d;
         ds_lineWidth := ds_lineWidth d; ds_font := ds_font d;
         ds_textAlign := v; ds_filter := ds_filter d;
         ds_xform := ds_xform d |}) c
  else c.

Definition set_filter (v : string) (c : Ctx) : Ctx :=
  if css_valid CssFilterList v then
    with_cur (fun d =>
      {| ds_fillStyle := ds_fillStyle d; ds_strokeStyle := ds_strokeStyle d;
         ds_lineWidth := ds_lineWidth d; ds_font := ds_font d;
         ds_textAlign := ds_textAlign d; ds_filter := v;
         ds_xform := ds_xform d |}) c
  else c.

Definition transform (x : Xform) (c : Ctx) : Ctx :=
  with_cur (fun d =>
    {| ds_fillStyle := ds_fillStyle d; ds_strokeStyle := ds_strokeStyle d;
       ds_lineWidth := ds_lineWidth d; ds_font := ds_font d;
       ds_textAlign := ds_textAlign d; ds_filter := ds_filter d;
       ds_xform := ds_xform d ++ [x] |}) c.

Definition translate (x y : Q) : Ctx -> Ctx := transform (Translate x y).
Definition rotate (a : Angle) : Ctx -> Ctx := transform (Rotate a).

Definition save (c : Ctx) : Ctx :=
  {| cur := cur c; saved := cur c :: saved c; path := path c; painted := painted c |}.

Definition restore (c : Ctx) : Ctx :=
  match saved c with
  | [] => c
  | d :: rest => {| cur := d; saved := rest; path := path c; painted := painted c |}
  end.

Definition beginPath (c : Ctx) : Ctx :=
  {| cur := cur c; saved := saved c; path := []; painted := painted c |}.

Definition add_seg (sg : PathSeg) (c : Ctx) : Ctx :=
  {| cur := cur c; saved := saved c; path := path c ++ [sg]; painted := painted c |}.

(** [ctx.ellipse(x, y, rx, ry, 0, 0, 2 * Math.PI)] *)
Definition ellipse (x y rx ry : Q) : Ctx -> Ctx := add_seg (Ellipse x y rx ry).
Definition moveTo (x y : Q) : Ctx -> Ctx := add_seg (MoveTo x y).
Definition bezierCurveTo (a b c d x y : Q) : Ctx -> Ctx :=
  add_seg (BezierCurveTo a b c d x y).

Definition fill (c : Ctx) : Ctx := paint (FillPath (path c)) c.
Definition fillRect (x y w h : Z) : Ctx -> Ctx := paint (FillRect x y w h).
Definition strokeRect (x y w h : Z) : Ctx -> Ctx := paint (StrokeRect x y w h).
Definition fillText (t : string) (x y : Z) : Ctx -> Ctx := paint (FillText t x y).
Definition drawImage (img : ImageSource) (x y w h : Q) : Ctx -> Ctx :=
  paint (DrawImage img x y w h).

(** Statements in sequence: [c |> f |> g] is [f] then [g]. *)
Notation "c |> f" := (f c) (at level 45, left associativity, only parsing).

(** ** capturePhoto *)

Record Video := { videoWidth : Z; videoHeight : Z; currentFrame : nat }.

(** The hidden canvas: whether [getContext('2d')] gives a context. *)
Record HiddenCanvas := { has_2d : bool }.

(** What the two refs hold at the instant of a shot. *)
Record Surface := { videoRef : option Video; canvasRef : option HiddenCanvas }.

(** [null] when a ref is empty or the canvas gives no context.
    Otherwise: setting the size of the canvas resets its context
    ([new_ctx]); [ctx.filter = activeFilter.cssFilter] goes through the
    setter; the frame of the video is drawn under the filter the context
    then has; the data URL encodes the canvas. *)
Definition capturePhoto (activeFilter : Filter) (w : Surface) : option Snapshot :=
  match videoRef w, canvasRef w with
  | Some video, Some canvas =>
      if has_2d canvas then
        let ctx := new_ctx |> set_filter (cssFilter activeFilter) in
        Some {| snap_frame := currentFrame video;
                snap_filter := ds_filter (cur ctx);
                snap_width := videoWidth video;
                snap_height := videoHeight video |}
      else None
  | _, _ => None
  end.

(** ** The component's state *)

Inductive MediaStream := LiveStream.

(** A JavaScript array of snapshots, with its identity: two arrays are
    the same object when their [arr_id]s are equal. *)
Record PhotoArray := { arr_id : nat; items : list Snapshot }.

(** The [useState] cells of [CosmicPhotobooth]. *)
Record State :=
  { captureTime : string;
    customColor : string;
    selectedStripStyle : string;
    stream : option MediaStream;
    activeFilter : Filter;
    countdownTime : Z;
    isCountingDown : bool;
    countdownValue : Z;
    capturedPhotos : PhotoArray;
    isCapturing : bool;
    selectedStickerTheme : string }.

(** ** downloadPhotoStrip *)

(** What the closure of [downloadPhotoStrip] holds of the render that
    made it. *)
Record DownloadClosure :=
  { dl_capturedPhotos : PhotoArray;
    dl_selectedStripStyle : string;
    dl_customColor : string;
    dl_activeFilter : Filter;
    dl_selectedStickerTheme : string;
    dl_captureTime : string }.

(** A triggered download: the file is named
    [cosmic-photobooth-<download_ms>.jpg] and holds the canvas as it was
    painted when [toDataURL('image/jpeg', 0.9)] ran. *)
Record Download :=
  { download_ms : Z; file_width : Z; file_height : Z; file_painted : list Painted }.

(** A sticker image whose [src] has been set, for the slot at [sticker_y]. *)
Record StickerImg := { sticker_src : string; sticker_y : Z; sticker_loaded : bool }.

(** One call of [downloadPhotoStrip] after its synchronous part: the
    canvas, the counter, the images whose load is awaited;
    [random_calls] counts the calls of [Math.random()] its handlers
    have made. *)
Record Job :=
  { job_env : DownloadClosure;
    canvas_width : Z;
    canvas_height : Z;
    ctx : Ctx;
    loadedCount : Z;
    photo_loaded : list bool;
    stickerImgs : list StickerImg;
    random_calls : nat;
    downloads : list Download }.

Definition photoWidth : Z := 400.
Definition photoHeight : Z := 300.
Definition stripWidth : Z := photoWidth + 40.
Definition previewPaddingTop : Z := 60.
Definition previewPhotoGap : Z := 10.
Definition previewDatePadding : Z := 16.

Definition stripHeight (numPhotos : Z) : Z :=
  previewPaddingTop + (photoHeight * numPhotos)
  + (previewPhotoGap * (numPhotos - 1)) + previewDatePadding + 24.

Definition drawButterfly (x y : Z) (c : Ctx) : Ctx :=
  (c |> save
     |> translate (inject_Z x) (inject_Z y)
     |> beginPath |> ellipse 0 (-10) 8 12 |> set_fillStyle "#ffb6b9" |> fill
     |> beginPath |> ellipse 0 10 8 12 |> set_fillStyle "#b6e2ff" |> fill
     |> beginPath |> ellipse (-10) 0 12 8 |> set_fillStyle "#c3f584" |> fill
     |> beginPath |> ellipse 10 0 12 8 |> set_fillStyle "#f7e1ff" |> fill
     |> restore)%Q.

Definition drawHeart (i : Z) (c : Ctx) : Ctx :=
  (c |> save
     |> translate (inject_Z (80 + i * 60)) 40
     |> rotate (Radians (-(2 # 10)))
     |> beginPath
     |> moveTo 0 0
     |> bezierCurveTo 0 (-10) 20 (-10) 20 0
     |> bezierCurveTo 20 15 0 20 0 30
     |> bezierCurveTo 0 20 (-20) 15 (-20) 0
     |> bezierCurveTo (-20) (-10) 0 (-10) 0 0
     |> set_fillStyle "#ff69b4" |> fill
     |> restore)%Q.

(** The [switch] on the style class. *)
Definition paint_background (stripStyleClass customColorParam : string)
    (w h : Z) (c : Ctx) : Ctx :=
  if (stripStyleClass =? "strip-cartoon")%string then
    c |> set_fillStyle "#ffe066" |> fillRect 0 0 w h
      |> set_strokeStyle "#222" |> set_lineWidth 8 |> strokeRect 0 0 w h
  else if (stripStyleClass =? "strip-flower")%string then
    c |> set_fillStyle "#f7e1ff" |> fillRect 0 0 w h
      |> drawButterfly 20 20 |> drawButterfly (w - 20) (h - 20)
  else if (stripStyleClass =? "strip-heart")%string then
    c |> set_fillStyle "#fff0f6" |> fillRect 0 0 w h
      |> (fun c => fold_left (fun c i => drawHeart (Z.of_nat i) c) (seq 0 5) c)
  else if (stripStyleClass =? "strip-custom")%string then
    c |> set_fillStyle customColorParam |> fillRect 0 0 w h
  else
    c |> set_fillStyle "#ffffff" |> fillRect 0 0 w h.

Definition dquote : string := String (ascii_of_nat 34) EmptyString.

Definition header_font : string :=
  "bold 32px " ++ dquote ++ "Times New Roman" ++ dquote ++ ", Times, serif".

Definition draw_header (c : Ctx) : Ctx :=
  c |> set_font header_font
    |> set_fillStyle "#222"
    |> set_textAlign "center"
    |> fillText "Captured by FotoJB" (stripWidth / 2) 40.

(** The value the load handler of a photo gives to [ctx.filter]: the
    filter of the closure, a [var(...)] reference looked up in the
    computed style of the root element, then of the body. *)
Definition resolveFilter (cssFilter : string) : string :=
  let filterValue := cssFilter in
  let filterValue :=
    if JS.startsWith "var(" filterValue then
      match JS.match_var filterValue with
      | Some g =>
          if JS.truthy g then
            JS.or (rootStyle (JS.trim g)) (JS.or (bodyStyle (JS.trim g)) "none")
          else filterValue
      | None => filterValue
      end
    else filterValue in
  JS.or (JS.trim filterValue) "none".

(** [Math.floor(photoWidth * 0.12)] *)
Definition stickerSize : Z := floor (inject_Z photoWidth * (12 # 100)).

Definition rnd (k : nat) : Q := u_val (random k).

(** [Math.floor(Math.random() * 2) + 7], from the [k]-th random number. *)
Definition stickerCount (k : nat) : Z := floor (rnd k * 2) + 7.

(** The body of the sticker loop, [n] more times; [k] counts the calls
    of [Math.random()] so far. *)
Fixpoint place_stickers (n : nat) (src : string) (y : Z) (k : nat) (c : Ctx)
  : nat * Ctx :=
  match n with
  | O => (k, c)
  | S n' =>
      let margin := 8 in
      let randX := (20 + inject_Z margin
                    + rnd k * inject_Z (photoWidth - stickerSize - 2 * margin))%Q in
      let randY := (inject_Z y + inject_Z margin
                    + rnd (k + 1) * inject_Z (photoHeight - stickerSize - 2 * margin))%Q in
      let c := c |> save in
      let angle := PiTimes (rnd (k + 2) * 2) in
      let half := (inject_Z stickerSize / 2)%Q in
      let c := c |> translate (randX + half)%Q (randY + half)%Q
                 |> rotate angle
                 |> drawImage (SrcUrl src) (- half)%Q (- half)%Q
                      (inject_Z stickerSize) (inject_Z stickerSize)
                 |> restore in
      place_stickers n' src y (k + 3)%nat c
  end.

(** [stickerImg.onload] *)
Definition sticker_onload (img : StickerImg) (j : Job) : Job :=
  let count := stickerCount (random_calls j) in
  let (k, c) := place_stickers (Z.to_nat count) (sticker_src img) (sticker_y img)
                  (S (random_calls j)) (ctx j) in
  {| job_env := job_env j; canvas_width := canvas_width j;
     canvas_height := canvas_height j; ctx := c; loadedCount := loadedCount j;
     photo_loaded := photo_loaded j; stickerImgs := stickerImgs j;
     random_calls := k; downloads := downloads j |}.

Definition numPhotos (j : Job) : Z :=
  Z.of_nat (List.length (items (dl_capturedPhotos (job_env j)))).

Definition dateY (n : Z) : Z :=
  previewPaddingTop + (photoHeight * n) + (previewPhotoGap * (n - 1))
  + previewDatePadding.

(** The date and time under the last photo. *)
Definition draw_footer (label : string) (n : Z) (c : Ctx) : Ctx :=
  c |> set_font "16px Arial"
    |> set_fillStyle "#555"
    |> set_textAlign "center"
    |> fillText label (stripWidth / 2) (dateY n).

(** The sticker image the handler of a photo makes, if it makes one. *)
Definition new_sticker (theme : string) (y : Z) : list StickerImg :=
  if negb (theme =? "none")%string then
    match find (fun t => (value t =? theme)%string) STICKER_THEMES with
    | Some t =>
        match images t with
        | stickerSrc :: _ =>
            [ {| sticker_src := stickerSrc; sticker_y := y; sticker_loaded := false |} ]
        | [] => []
        end
    | None => []
    end
  else [].

(** [img.onload] of the photo at [index]; [now] is [Date.now()]. *)
Definition photo_onload (index : nat) (photo : Snapshot) (now : Z) (j : Job) : Job :=
  let env := job_env j in
  let y := previewPaddingTop + (Z.of_nat index * (photoHeight + previewPhotoGap)) in
  let c := ctx j |> save in
  let filterValue := resolveFilter (cssFilter (dl_activeFilter env)) in
  let c := c |> set_filter filterValue
             |> drawImage (SrcSnapshot photo) 20 (inject_Z y)
                  (inject_Z photoWidth) (inject_Z photoHeight)
             |> restore in
  let stickers := (stickerImgs j ++ new_sticker (dl_selectedStickerTheme env) y)%list in
  let loadedCount := loadedCount j + 1 in
  if loadedCount =? numPhotos j then
    let c := c |> draw_footer (dl_captureTime env) (numPhotos j) in
    {| job_env := env; canvas_width := canvas_width j;
       canvas_height := canvas_height j; ctx := c; loadedCount := loadedCount;
       photo_loaded := photo_loaded j; stickerImgs := stickers;
       random_calls := random_calls j;
       downloads := downloads j ++
         [ {| download_ms := now; file_width := canvas_width j;
              file_height := canvas_height j; file_painted := painted c |} ] |}
  else
    {| job_env := env; canvas_width := canvas_width j;
       canvas_height := canvas_height j; ctx := c; loadedCount := loadedCount;
       photo_loaded := photo_loaded j; stickerImgs := stickers;
       random_calls := random_calls j; downloads := downloads j |}.

(** The synchronous part of [downloadPhotoStrip].  The two parameters
    default to the closure's values; [canvas2d] tells whether the new
    canvas gives a 2D context.  [None]: the function returned early. *)
Definition downloadPhotoStrip (env : DownloadClosure)
    (stripStyleClass customColorParam : option string) (canvas2d : bool)
  : option Job :=
  let stripStyleClass :=
    match stripStyleClass with Some s => s | None => dl_selectedStripStyle env end in
  let customColorParam :=
    match customColorParam with Some s => s | None => dl_customColor env end in
  let photos := items (dl_capturedPhotos env) in
  if (List.length photos =? 0)%nat then None
  else if negb canvas2d then None
  else
    let numPhotos := Z.of_nat (List.length photos) in
    let c := new_ctx
               |> paint_background stripStyleClass customColorParam
                    stripWidth (stripHeight numPhotos)
               |> draw_header in
    Some {| job_env := env; canvas_width := stripWidth;
            canvas_height := stripHeight numPhotos; ctx := c; loadedCount := 0;
            photo_loaded := map (fun _ => false) photos; stickerImgs := [];
            random_calls := 0; downloads := [] |}.

(** ** The loads of a job *)

(** What can happen to a job: an image that is awaited loads.  An image
    that fails to load gives no event at all. *)
Inductive LoadEvent :=
| PhotoLoaded (index : nat) (now : Z)
| StickerLoaded (k : nat).

Fixpoint set_nth {A} (n : nat) (x : A) (l : list A) : list A :=
  match l, n with
  | [], _ => []
  | _ :: r, O => x :: r
  | a :: r, S n' => a :: set_nth n' x r
  end.

Definition mark_photo (index : nat) (j : Job) : Job :=
  {| job_env := job_env j; canvas_width := canvas_width j;
     canvas_height := canvas_height j; ctx := ctx j; loadedCount := loadedCount j;
     photo_loaded := set_nth index true (photo_loaded j);
     stickerImgs := stickerImgs j; random_calls := random_calls j;
     downloads := downloads j |}.

Definition mark_sticker (k : nat) (img : StickerImg) (j : Job) : Job :=
  {| job_env := job_env j; canvas_width := canvas_width j;
     canvas_height := canvas_height j; ctx := ctx j; loadedCount := loadedCount j;
     photo_loaded := photo_loaded j;
     stickerImgs :=
       set_nth k {| sticker_src := sticker_src img; sticker_y := sticker_y img;
                    sticker_loaded := true |} (stickerImgs j);
     random_calls := random_calls j; downloads := downloads j |}.

(** An image loads at most once; the event of an image that is not
    awaited does not happen, and leaves the job as it is. *)
Definition job_step (j : Job) (e : LoadEvent) : Job :=
  match e with
  | PhotoLoaded index now =>
      match nth_error (items (dl_capturedPhotos (job_env j))) index,
            nth_error (photo_loaded j) index with
      | Some photo, Some false => photo_onload index photo now (mark_photo index j)
      | _, _ => j
      end
  | StickerLoaded k =>
      match nth_error (stickerImgs j) k with
      | Some img =>
          if sticker_loaded img then j
          else sticker_onload img (mark_sticker k img j)
      | None => j
      end
  end.

Definition job_run (j : Job) (es : list LoadEvent) : Job := fold_left job_step es j.


(** ** The closures of a render *)

(** [capturePhoto] reads [activeFilter]. *)
Record CaptureClosure := { cap_activeFilter : Filter }.

(** [startPhotoSequence] reads [isCapturing], [countdownTime] and
    [capturePhoto]. *)
Record StartClosure :=
  { st_isCapturing : bool; st_countdownTime : Z; st_capturePhoto : CaptureClosure }.

(** The three functions a render hands to the page. *)
Record Memo :=
  { m_capturePhoto : CaptureClosure;
    m_startPhotoSequence : StartClosure;
    m_downloadPhotoStrip : DownloadClosure }.

(** [useCallback(fn, deps)]: the function of the previous render when no
    dependency has changed, the function of this render otherwise. *)
Definition useCallback {F : Type} (same_deps : F -> F -> bool) (prev fn : F) : F :=
  if same_deps prev fn then prev else fn.

(** [[activeFilter]] *)
Definition capture_deps (a b : CaptureClosure) : bool :=
  Filter_eqb (cap_activeFilter a) (cap_activeFilter b).

(** [[countdownTime, capturePhoto, isCapturing]]; [capturePhoto] is the
    same function exactly when its own dependency has not changed. *)
Definition start_deps (a b : StartClosure) : bool :=
  ((st_countdownTime a =? st_countdownTime b)
   && capture_deps (st_capturePhoto a) (st_capturePhoto b)
   && Bool.eqb (st_isCapturing a) (st_isCapturing b))%bool.

(** [[capturedPhotos, selectedStripStyle]]: the array by identity, the
    string by value. *)
Definition download_deps (a b : DownloadClosure) : bool :=
  ((arr_id (dl_capturedPhotos a) =? arr_id (dl_capturedPhotos b))%nat
   && (dl_selectedStripStyle a =? dl_selectedStripStyle b)%string)%bool.

(** The closures a render makes when nothing is kept. *)
Definition closures_of (s : State) (capturePhoto : CaptureClosure) : Memo :=
  {| m_capturePhoto := capturePhoto;
     m_startPhotoSequence :=
       {| st_isCapturing := isCapturing s; st_countdownTime := countdownTime s;
          st_capturePhoto := capturePhoto |};
     m_downloadPhotoStrip :=
       {| dl_capturedPhotos := capturedPhotos s;
          dl_selectedStripStyle := selectedStripStyle s;
          dl_customColor := customColor s;
          dl_activeFilter := activeFilter s;
          dl_selectedStickerTheme := selectedStickerTheme s;
          dl_captureTime := captureTime s |} |}.

(** The first render. *)
Definition mount (s : State) : Memo :=
  closures_of s {| cap_activeFilter := activeFilter s |}.

(** A later render. *)
Definition render (s : State) (prev : Memo) : Memo :=
  let capturePhoto :=
    useCallback capture_deps (m_capturePhoto prev)
      {| cap_activeFilter := activeFilter s |} in
  let fresh := closures_of s capturePhoto in
  {| m_capturePhoto := capturePhoto;
     m_startPhotoSequence :=
       useCallback start_deps (m_startPhotoSequence prev) (m_startPhotoSequence fresh);
     m_downloadPhotoStrip :=
       useCallback download_deps (m_downloadPhotoStrip prev) (m_downloadPhotoStrip fresh) |}.

(** ** The component *)

(** Where a call of [startPhotoSequence] is suspended: in the countdown
    of shot [i] with [count] showing, or in the pause after shot [i]. *)
Inductive Await :=
| AwaitTick (i count : Z)
| AwaitPause (i : Z).

Record Running := { run_closure : StartClosure; run_at : Await }.

Record Component :=
  { st : State;
    memo : Memo;
    pending : option Running;
    next_id : nat }.

Definition initial_state : State :=
  {| captureTime := "";
     customColor := "#e0f7fa";
     selectedStripStyle := className (hd {| style_name := ""; className := "" |} stripStyles);
     stream := None;
     activeFilter := hd {| name := ""; cssFilter := "" |} filters;
     countdownTime := 3;
     isCountingDown := false;
     countdownValue := 0;
     capturedPhotos := {| arr_id := 0; items := [] |};
     isCapturing := false;
     selectedStickerTheme := "none" |}.

Definition initial : Component :=
  {| st := initial_state; memo := mount initial_state; pending := None; next_id := 1 |}.

Definition upd (f : State -> State) (c : Component) : Component :=
  {| st := f (st c); memo := memo c; pending := pending c; next_id := next_id c |}.

Definition setCaptureTime (v : string) : Component -> Component :=
  upd (fun s =>
    {| captureTime := v; customColor := customColor s;
       selectedStripStyle := selectedStripStyle s; stream := stream s;
       activeFilter := activeFilter s; countdownTime := countdownTime s;
       isCountingDown := isCountingDown s; countdownValue := countdownValue s;
       capturedPhotos := capturedPhotos s; isCapturing := isCapturing s;
       selectedStickerTheme := selectedStickerTheme s |}).

Definition setCustomColor (v : string) : Component -> Component :=
  upd (fun s =>
    {| captureTime := captureTime s; customColor := v;
       selectedStripStyle := selectedStripStyle s; stream := stream s;
       activeFilter := activeFilter s; countdownTime := countdownTime s;
       isCountingDown := isCountingDown s; countdownValue := countdownValue s;
       capturedPhotos := capturedPhotos s; isCapturing := isCapturing s;
       selectedStickerTheme := selectedStickerTheme s |}).

Definition setSelectedStripStyle (v : string) : Component -> Component :=
  upd (fun s =>
    {| captureTime := captureTime s; customColor := customColor s;
       selectedStripStyle := v; stream := stream s;
       activeFilter := activeFilter s; countdownTime := countdownTime s;
       isCountingDown := isCountingDown s; countdownValue := countdownValue s;
       capturedPhotos := capturedPhotos s; isCapturing := isCapturing s;
       selectedStickerTheme := selectedStickerTheme s |}).

Definition setStream (v : option MediaStream) : Component -> Component :=
  upd (fun s =>
    {| captureTime := captureTime s; customColor := customColor s;
       selectedStripStyle := selectedStripStyle s; stream := v;
       activeFilter := activeFilter s; countdownTime := countdownTime s;
       isCountingDown := isCountingDown s; countdownValue := countdownValue s;
       capturedPhotos := capturedPhotos s; isCapturing := isCapturing s;
       selectedStickerTheme := selectedStickerTheme s |}).

Definition setActiveFilter (v : Filter) : Component -> Component :=
  upd (fun s =>
    {| captureTime := captureTime s; customColor := customColor s;
       selectedStripStyle := selectedStripStyle s; stream := stream s;
       activeFilter := v; countdownTime := countdownTime s;
       isCountingDown := isCountingDown s; countdownValue := countdownValue s;
       capturedPhotos := capturedPhotos s; isCapturing := isCapturing s;
       selectedStickerTheme := selectedStickerTheme s |}).

Definition setCountdownTime (v : Z) : Component -> Component :=
  upd (fun s =>
    {| captureTime := captureTime s; customColor := customColor s;
       selectedStripStyle := selectedStripStyle s; stream := stream s;
       activeFilter := activeFilter s; countdownTime := v;
       isCountingDown := isCountingDown s; countdownValue := countdownValue s;
       capturedPhotos := capturedPhotos s; isCapturing := isCapturing s;
       selectedStickerTheme := selectedStickerTheme s |}).

Definition setIsCountingDown (v : bool) : Component -> Component :=
  upd (fun s =>
    {| captureTime := captureTime s; customColor := customColor s;
       selectedStripStyle := selectedStripStyle s; stream := stream s;
       activeFilter := activeFilter s; countdownTime := countdownTime s;
       isCountingDown := v; countdownValue := countdownValue s;
       capturedPhotos := capturedPhotos s; isCapturing := isCapturing s;
       selectedStickerTheme := selectedStickerTheme s |}).

Definition setCountdownValue (v : Z) : Component -> Component :=
  upd (fun s =>
    {| captureTime := captureTime s; customColor := customColor s;
       selectedStripStyle := selectedStripStyle s; stream := stream s;
       activeFilter := activeFilter s; countdownTime := countdownTime s;
       isCountingDown := isCountingDown s; countdownValue := v;
       capturedPhotos := capturedPhotos s; isCapturing := isCapturing s;
       selectedStickerTheme := selectedStickerTheme s |}).

Definition setIsCapturing (v : bool) : Component -> Component :=
  upd (fun s =>
    {| captureTime := captureTime s; customColor := customColor s;
       selectedStripStyle := selectedStripStyle s; stream := stream s;
       activeFilter := activeFilter s; countdownTime := countdownTime s;
       isCountingDown := isCountingDown s; countdownValue := countdownValue s;
       capturedPhotos := capturedPhotos s; isCapturing := v;
       selectedStickerTheme := selectedStickerTheme s |}).

(** [setCapturedPhotos] with an updater: the updater makes a new array. *)
Definition setCapturedPhotos (f : list Snapshot -> list Snapshot) (c : Component)
  : Component :=
  {| st :=
       let s := st c in
       {| captureTime := captureTime s; customColor := customColor s;
          selectedStripStyle := selectedStripStyle s; stream := stream s;
          activeFilter := activeFilter s; countdownTime := countdownTime s;
          isCountingDown := isCountingDown s; countdownValue := countdownValue s;
          capturedPhotos :=
            {| arr_id := next_id c; items := f (items (capturedPhotos s)) |};
          isCapturing := isCapturing s;
          selectedStickerTheme := selectedStickerTheme s |};
     memo := memo c; pending := pending c; next_id := S (next_id c) |}.

Definition suspend (r : option Running) (c : Component) : Component :=
  {| st := st c; memo := memo c; pending := r; next_id := next_id c |}.

(** React renders again when the handler or the continuation has run. *)
Definition rerender (c : Component) : Component :=
  {| st := st c; memo := render (st c) (memo c); pending := pending c;
     next_id := next_id c |}.

(** ** startPhotoSequence *)

(** The function runs from one [await] to the next; [w] is what the refs
    hold while it runs.  Each piece below ends by suspending at an
    [await] or by returning. *)

(** From the end of the countdown of shot [i]: the shot, then the pause
    when a shot follows, the end of the loop when none does. *)
Definition after_countdown (cl : StartClosure) (w : Surface) (i : Z)
    (c : Component) : Component :=
  let c := c |> setIsCountingDown false in
  let photo := capturePhoto (cap_activeFilter (st_capturePhoto cl)) w in
  let c :=
    match photo with
    | Some photo =>                       (* a data URL is truthy *)
        c |> setCapturedPhotos (fun prev => prev ++ [photo])%list
    | None => c
    end in
  if i <? 2 then
    c |> suspend (Some {| run_closure := cl; run_at := AwaitPause i |})
  else
    (* i++ leaves the loop *)
    c |> setIsCapturing false |> suspend None.

(** The countdown loop of shot [i] from its test, with [count]. *)
Definition countdown_from (cl : StartClosure) (w : Surface) (i count : Z)
    (c : Component) : Component :=
  if 0 <? count then
    c |> setCountdownValue count
      |> suspend (Some {| run_closure := cl; run_at := AwaitTick i count |})
  else after_countdown cl w i c.

(** The outer loop from its test, with [i]. *)
Definition shot_loop_from (cl : StartClosure) (w : Surface) (i : Z)
    (c : Component) : Component :=
  if i <? 3 then
    c |> setIsCountingDown true
      |> countdown_from cl w i (st_countdownTime cl)
  else
    c |> setIsCapturing false |> suspend None.

(** The call itself, up to its first [await]; [now] is
    [new Date().toLocaleString()]. *)
Definition startPhotoSequence (cl : StartClosure) (now : string) (w : Surface)
    (c : Component) : Component :=
  if st_isCapturing cl then c
  else
    c |> setIsCapturing true
      |> setCapturedPhotos (fun _ => [])
      |> setCaptureTime now
      |> shot_loop_from cl w 0.

(** The continuation of an [await] whose timer has fired. *)
Definition resume (r : Running) (w : Surface) (c : Component) : Component :=
  match run_at r with
  | AwaitTick i count => countdown_from (run_closure r) w i (count - 1) c
  | AwaitPause i => shot_loop_from (run_closure r) w (i + 1) c
  end.

(** ** What happens to the component *)

(** The three countdowns the select offers. *)
Inductive CountdownOption := Seconds3 | Seconds5 | Seconds10.

Definition seconds (o : CountdownOption) : Z :=
  match o with Seconds3 => 3 | Seconds5 => 5 | Seconds10 => 10 end.

Inductive Event :=
| CameraReady                                  (* getUserMedia resolved *)
| SelectCountdown (o : CountdownOption)
| ClickStart (now : string) (w : Surface)      (* the capture button *)
| TimerFired (w : Surface)                     (* the awaited timeout *)
| ClickFilter (i : nat)                        (* the i-th filter button *)
| SelectStripStyle (i : nat)                   (* the i-th style option *)
| PickColor (color : string).                  (* the colour input *)

(** The style select is rendered when there is a photo, the colour input
    when, besides, the style is the custom colour. *)
Definition strip_shown (s : State) : bool :=
  (0 <? List.length (items (capturedPhotos s)))%nat.

Definition color_shown (s : State) : bool :=
  (strip_shown s && (selectedStripStyle s =? "strip-custom")%string)%bool.

(** [disabled={isCapturing || !stream}] *)
Definition start_disabled (s : State) : bool :=
  (isCapturing s || match stream s with Some _ => false | None => true end)%bool.

Definition handle (e : Event) (c : Component) : Component :=
  match e with
  | CameraReady => c |> setStream (Some LiveStream)
  | SelectCountdown o => c |> setCountdownTime (seconds o)
  | ClickStart now w =>
      if start_disabled (st c) then c
      else startPhotoSequence (m_startPhotoSequence (memo c)) now w c
  | TimerFired w =>
      match pending c with
      | Some r => resume r w c
      | None => c
      end
  | ClickFilter i =>
      match nth_error filters i with
      | Some f => c |> setActiveFilter f
      | None => c
      end
  | SelectStripStyle i =>
      if strip_shown (st c) then
        match nth_error stripStyles i with
        | Some s => c |> setSelectedStripStyle (className s)
        | None => c
        end
      else c
  | PickColor color =>
      if color_shown (st c) then c |> setCustomColor color else c
  end.

(** Whether two states are the same to React: cell by cell, an array by
    its identity. *)
Definition same_state (a b : State) : bool :=
  ((captureTime a =? captureTime b)%string
   && (customColor a =? customColor b)%string
   && (selectedStripStyle a =? selectedStripStyle b)%string
   && match stream a, stream b with
      | Some _, Some _ | None, None => true
      | _, _ => false
      end
   && Filter_eqb (activeFilter a) (activeFilter b)
   && (countdownTime a =? countdownTime b)
   && Bool.eqb (isCountingDown a) (isCountingDown b)
   && (countdownValue a =? countdownValue b)
   && (arr_id (capturedPhotos a) =? arr_id (capturedPhotos b))%nat
   && Bool.eqb (isCapturing a) (isCapturing b)
   && (selectedStickerTheme a =? selectedStickerTheme b)%string)%bool.

(** One event: its handler or continuation runs, and React renders
    again when a cell has changed. *)
Definition step (c : Component) (e : Event) : Component :=
  let c' := handle e c in
  if same_state (st c) (st c') then c' else rerender c'.

Definition run (c : Component) (es : list Event) : Component := fold_left step es c.

(** The download button, shown when there is a photo:
    [onClick={() => downloadPhotoStrip(selectedStripStyle, customColor)}]. *)
Definition click_download (c : Component) (canvas2d : bool) : option Job :=
  if strip_shown (st c) then
    downloadPhotoStrip (m_downloadPhotoStrip (memo c))
      (Some (selectedStripStyle (st c))) (Some (customColor (st c))) canvas2d
  else None.

(** ** What is seen of a job *)

(** The label under the last photo of a strip of [n] photos. *)
Definition is_label (n : Z) (p : Painted) : bool :=
  match shape p with
  | FillText _ _ y => y =? dateY n
  | _ => false
  end.

Definition label_drawn (j : Job) : bool :=
  existsb (is_label (numPhotos j)) (painted (ctx j)).

Definition download_triggered (j : Job) : bool :=
  match downloads j with [] => false | _ :: _ => true end.

(** The photo slot a sticker was drawn in: the slot its centre, the
    translation it was drawn under, falls in. *)
Definition sticker_slot (p : Painted) : option Z :=
  match shape p with
  | DrawImage (SrcUrl _) _ _ _ _ =>
      match ds_xform (state p) with
      | Translate _ y :: _ =>
          Some (floor ((y - inject_Z previewPaddingTop)
                       / inject_Z (photoHeight + previewPhotoGap))%Q)
      | _ => None
      end
  | _ => None
  end.

Definition in_slot (i : Z) (p : Painted) : bool :=
  match sticker_slot p with
  | Some k => k =? i
  | None => false
  end.

(** The number of stickers painted in the slot of photo [i]. *)
Definition stickers_in_slot (i : Z) (l : list Painted) : nat :=
  List.length (List.filter (in_slot i) l).

Definition is_sticker (p : Painted) : bool :=
  match shape p with
  | DrawImage (SrcUrl _) _ _ _ _ => true
  | _ => false
  end.

(** The filters the photos were drawn with, in the order of painting. *)
Definition photo_filters (l : list Painted) : list string :=
  flat_map (fun p =>
    match shape p with
    | DrawImage (SrcSnapshot _) _ _ _ _ => [ds_filter (state p)]
    | _ => []
    end) l.

(** Whether the image of photo [i] has loaded. *)
Definition photo_has_loaded (j : Job) (i : nat) : bool :=
  match nth_error (photo_loaded j) i with
  | Some b => b
  | None => false
  end.

(** Whether a sticker image for the slot at [y] has loaded. *)
Definition sticker_has_loaded (j : Job) (y : Z) : bool :=
  existsb (fun img => (sticker_y img =? y) && sticker_loaded img)%bool (stickerImgs j).

(** The top of the slot of the photo at [index]: the [y] of its handler. *)
Definition slot_y (index : nat) : Z :=
  previewPaddingTop + Z.of_nat index * (photoHeight + previewPhotoGap).

(** The number of photos whose image has loaded. *)
Definition count_loaded (l : list bool) : nat :=
  List.length (List.filter (fun b => b) l).

(** The image a theme's stickers are drawn from: the first image of the
    theme with that value, for a value other than ['none']. *)
Definition theme_first_image (theme : string) : option string :=
  if negb (theme =? "none")%string then
    match find (fun t => (value t =? theme)%string) STICKER_THEMES with
    | Some t => hd_error (images t)
    | None => None
    end
  else None.

(** One sticker as the loop paints it for the slot at [y]: the image at
    [src], drawn at the sticker size around a centre in the photo, under
    a rotation. *)
Definition sticker_op (src : string) (y : Z) (base : list Xform) (p : Painted)
  : Prop :=
  exists ux uy ua : Unit01,
    shape p =
      DrawImage (SrcUrl src) (- (inject_Z stickerSize / 2))%Q
        (- (inject_Z stickerSize / 2))%Q (inject_Z stickerSize) (inject_Z stickerSize)
    /\ ds_xform (state p) =
         (base ++
          [ Translate
              (20 + inject_Z 8
               + u_val ux * inject_Z (photoWidth - stickerSize - 2 * 8)
               + inject_Z stickerSize / 2)%Q
              (inject_Z y + inject_Z 8
               + u_val uy * inject_Z (photoHeight - stickerSize - 2 * 8)
               + inject_Z stickerSize / 2)%Q;
            Rotate (PiTimes (u_val ua * 2)) ])%list.

Definition is_photo_event (e : LoadEvent) : bool :=
  match e with PhotoLoaded _ _ => true | StickerLoaded _ => false end.

(** Whether the load of the photo at [i] is among the events. *)
Definition photo_load_in (i : nat) (es : list LoadEvent) : bool :=
  existsb (fun e => match e with
                    | PhotoLoaded k _ => (k =? i)%nat
                    | StickerLoaded _ => false
                    end) es.

(** What holds of a job from its creation on. *)
Record job_inv (j : Job) : Prop :=
  { inv_some : (1 <= List.length (items (dl_capturedPhotos (job_env j))))%nat;
    inv_flags :
      List.length (photo_loaded j) = List.length (items (dl_capturedPhotos (job_env j)));
    inv_count : loadedCount j = Z.of_nat (count_loaded (photo_loaded j));
    inv_download : download_triggered j = true <-> loadedCount j = numPhotos j;
    inv_label : label_drawn j = true <-> loadedCount j = numPhotos j;
    inv_xform : ds_xform (cur (ctx j)) = [];
    inv_stickers :
      forall img, In img (stickerImgs j) ->
        exists idx, sticker_y img = slot_y idx
                    /\ photo_has_loaded j idx = true
                    /\ theme_first_image (dl_selectedStickerTheme (job_env j))
                       = Some (sticker_src img);
    inv_nodup : NoDup (map sticker_y (stickerImgs j));
    inv_slots :
      forall idx,
        let k := stickers_in_slot (Z.of_nat idx) (painted (ctx j)) in
        if sticker_has_loaded j (slot_y idx)
        then k = 7%nat \/ k = 8%nat
        else k = 0%nat;
    inv_src :
      forall p url x y w h,
        In p (painted (ctx j)) -> shape p = DrawImage (SrcUrl url) x y w h ->
        theme_first_image (dl_selectedStickerTheme (job_env j)) = Some url;
    inv_label_text :
      forall p,
        In p (painted (ctx j)) -> is_label (numPhotos j) p = true ->
        shape p = FillText (dl_captureTime (job_env j)) (stripWidth / 2)
                    (dateY (numPhotos j)) }.

(** A shape of the background or of the header: no image, and no text
    but at the height of the header. *)
Definition backdrop (p : Painted) : Prop :=
  match shape p with
  | DrawImage _ _ _ _ _ => False
  | FillText _ _ y => y = 40
  | _ => True
  end.

(** What a step of painting adds to a canvas whose transform it keeps. *)
Definition adds (P : Painted -> Prop) (c c' : Ctx) : Prop :=
  ds_xform (cur c') = ds_xform (cur c)
  /\ exists more, painted c' = (painted c ++ more)%list /\ Forall P more.

(** What painting adds between a [save] and its [restore]: the stack is
    kept. *)
Definition within (P : Painted -> Prop) (c c' : Ctx) : Prop :=
  saved c' = saved c
  /\ exists more, painted c' = (painted c ++ more)%list /\ Forall P more.

(** ** What is seen of the component *)

Definition reachable (c : Component) : Prop := exists es, c = run initial es.

Definition is_start (e : Event) : bool :=
  match e with ClickStart _ _ => true | _ => false end.

(** The snapshots among what [capturePhoto] returned. *)
Definition somes {A} (l : list (option A)) : list A :=
  flat_map (fun o => match o with Some a => [a] | None => [] end) l.

(** The instant of the shot, as the surface it finds, when the countdown
    loop is entered at its test with [count] and the shot is taken
    before the next [await]. *)
Definition shot_in_countdown (w : Surface) (count : Z) : list Surface :=
  if 0 <? count then [] else [w].

Definition shot_in_loop (cl : StartClosure) (w : Surface) (i : Z) : list Surface :=
  if i <? 3 then shot_in_countdown w (st_countdownTime cl) else [].

(** The shot an event makes the running call take: the surface that
    [capturePhoto] finds there. *)
Definition shots_of (c : Component) (e : Event) : list Surface :=
  match e with
  | ClickStart now w =>
      if start_disabled (st c) then []
      else
        let cl := m_startPhotoSequence (memo c) in
        if st_isCapturing cl then [] else shot_in_loop cl w 0
  | TimerFired w =>
      match pending c with
      | Some r =>
          match run_at r with
          | AwaitTick i count => shot_in_countdown w (count - 1)
          | AwaitPause i => shot_in_loop (run_closure r) w (i + 1)
          end
      | None => []
      end
  | _ => []
  end.

(** The shot instants of a run of events, in the order they come. *)
Fixpoint shots (c : Component) (es : list Event) : list Surface :=
  match es with
  | [] => []
  | e :: es' => (shots_of c e ++ shots (step c e) es')%list
  end.

(** What the shots at these instants give, with the filter [f]. *)
Definition snapshots_of (f : Filter) (instants : list Surface) : list Snapshot :=
  somes (map (capturePhoto f) instants).

(** The shots taken by a suspended call so far. *)
Definition shots_taken (a : Await) : Z :=
  match a with AwaitTick i _ => i | AwaitPause i => i + 1 end.

Definition await_ok (a : Await) : Prop :=
  match a with
  | AwaitTick i count => 0 <= i <= 2 /\ 1 <= count
  | AwaitPause i => 0 <= i <= 1
  end.

(** What holds of the component from its first render on. *)
Record comp_inv (c : Component) : Prop :=
  { ci_pending :
      match pending c with
      | Some r =>
          isCapturing (st c) = true
          /\ await_ok (run_at r)
          /\ 1 <= st_countdownTime (run_closure r)
          /\ Z.of_nat (List.length (items (capturedPhotos (st c))))
             <= shots_taken (run_at r)
      | None =>
          isCapturing (st c) = false
          /\ Z.of_nat (List.length (items (capturedPhotos (st c)))) <= 3
      end;
    ci_start :
      m_startPhotoSequence (memo c) =
        {| st_isCapturing := isCapturing (st c);
           st_countdownTime := countdownTime (st c);
           st_capturePhoto := {| cap_activeFilter := activeFilter (st c) |} |};
    ci_photos : dl_capturedPhotos (m_downloadPhotoStrip (memo c)) = capturedPhotos (st c);
    ci_time : dl_captureTime (m_downloadPhotoStrip (memo c)) = captureTime (st c);
    ci_style :
      dl_selectedStripStyle (m_downloadPhotoStrip (memo c)) = selectedStripStyle (st c);
    ci_theme :
      dl_selectedStickerTheme (m_downloadPhotoStrip (memo c)) = "none"
      /\ selectedStickerTheme (st c) = "none";
    ci_ids : (arr_id (capturedPhotos (st c)) < next_id c)%nat;
    ci_countdown : 1 <= countdownTime (st c) }.

(** What a handler leaves alone when it only goes on with a sequence. *)
Record keeps (c c' : Component) : Prop :=
  { k_memo : memo c' = memo c;
    k_time : captureTime (st c') = captureTime (st c);
    k_color : customColor (st c') = customColor (st c);
    k_style : selectedStripStyle (st c') = selectedStripStyle (st c);
    k_stream : stream (st c') = stream (st c);
    k_filter : activeFilter (st c') = activeFilter (st c);
    k_countdown : countdownTime (st c') = countdownTime (st c);
    k_theme : selectedStickerTheme (st c') = selectedStickerTheme (st c) }.

(** The array of photos after a handler: the same array, or a new one. *)
Definition photos_step (c c' : Component) : Prop :=
  (capturedPhotos (st c') = capturedPhotos (st c) /\ next_id c' = next_id c)
  \/ (next_id c <= arr_id (capturedPhotos (st c')) < next_id c')%nat.

(** Whether the video and the canvas are there for a shot. *)
Definition available (w : Surface) : bool :=
  match videoRef w, canvasRef w with
  | Some _, Some canvas => has_2d canvas
  | _, _ => false
  end.

(** The timeouts a suspended call still awaits before it returns. *)
Definition remaining (r : Running) : nat :=
  let every := st_countdownTime (run_closure r) + 1 in
  match run_at r with
  | AwaitTick i count => Z.to_nat (count + (2 - i) * every)
  | AwaitPause i => Z.to_nat ((2 - i) * every)
  end.

(** The surfaces the events of a run come with. *)
Definition surface_of (e : Event) : list Surface :=
  match e with
  | ClickStart _ w | TimerFired w => [w]
  | _ => []
  end.

(** ** More of what is seen of a job *)

(** A photo as it is painted: the snapshot and the rectangle it is drawn
    in, [x], [y], width and height. *)
Definition PhotoDraw : Type := (Snapshot * (Q * Q * Q * Q))%type.

(** The photos painted, in the order of painting. *)
Definition photo_draws (l : list Painted) : list PhotoDraw :=
  flat_map (fun p =>
    match shape p with
    | DrawImage (SrcSnapshot s) x y w h => [(s, (x, y, w, h))]
    | _ => []
    end) l.

Definition is_photo (p : Painted) : bool :=
  match shape p with
  | DrawImage (SrcSnapshot _) _ _ _ _ => true
  | _ => false
  end.

(** The photo at [index] drawn in the slot of its index. *)
Definition slot_draw (photos : list Snapshot) (index : nat) : list PhotoDraw :=
  match nth_error photos index with
  | Some photo =>
      [ (photo, (20, inject_Z (slot_y index), inject_Z photoWidth,
                 inject_Z photoHeight))%Q ]
  | None => []
  end.

(** The indexes of the photos whose load is handled, in the order of the
    events: the first load of each photo that is awaited. *)
Fixpoint handled (flags : list bool) (es : list LoadEvent) : list nat :=
  match es with
  | [] => []
  | PhotoLoaded index _ :: es' =>
      match nth_error flags index with
      | Some false => index :: handled (set_nth index true flags) es'
      | _ => handled flags es'
      end
  | StickerLoaded _ :: es' => handled flags es'
  end.

(** What a step of painting adds when it leaves the filter and the save
    stack of the context as they are: shapes painted under that filter. *)
Definition steady (c c' : Ctx) : Prop :=
  ds_filter (cur c') = ds_filter (cur c)
  /\ saved c' = saved c
  /\ exists more,
       painted c' = (painted c ++ more)%list
       /\ Forall (fun p => ds_filter (state p) = ds_filter (cur c)) more.

(** The filter the photos of a job are drawn under: the resolved filter
    when the context takes it, the filter of a new context otherwise. *)
Definition photo_filter (env : DownloadClosure) : string :=
  let v := resolveFilter (cssFilter (dl_activeFilter env)) in
  if css_valid CssFilterList v then v else "none".

(** The file of a download against the canvas it was made from: the
    size of the canvas; every photo, and the label last; whatever the
    canvas has got since is stickers. *)
Definition file_of (j : Job) (d : Download) : Prop :=
  file_width d = canvas_width j
  /\ file_height d = canvas_height j
  /\ photo_draws (file_painted d) = photo_draws (painted (ctx j))
  /\ exists body label later,
       file_painted d = (body ++ [label])%list
       /\ shape label =
            FillText (dl_captureTime (job_env j)) (stripWidth / 2)
              (dateY (numPhotos j))
       /\ painted (ctx j) = (file_painted d ++ later)%list
       /\ forallb is_sticker later = true.

(** What holds, besides [job_inv], of a job from its creation on. *)
Record job_more (j : Job) : Prop :=
  { more_filter : ds_filter (cur (ctx j)) = "none";
    more_saved : saved (ctx j) = [];
    more_painted :
      Forall (fun p =>
                ds_filter (state p) =
                  if is_photo p then photo_filter (job_env j) else "none")
             (painted (ctx j));
    more_stickers :
      Forall (fun p =>
                is_sticker p = true ->
                exists src idx,
                  (idx < List.length (items (dl_capturedPhotos (job_env j))))%nat
                  /\ sticker_op src (slot_y idx) [] p)
             (painted (ctx j));
    more_count :
      Z.of_nat (List.length (photo_draws (painted (ctx j)))) = loadedCount j;
    more_file :
      match downloads j with
      | [] => True
      | d :: rest => rest = [] /\ file_of j d
      end }.

(** A decoration of a style's background: a stroked frame or a filled
    path. *)
Definition decoration (p : Painted) : Prop :=
  match shape p with
  | StrokeRect _ _ _ _ | FillPath _ => True
  | _ => False
  end.

(** The style classes the [switch] of [downloadPhotoStrip] has a case for. *)
Definition styled : list string :=
  ["strip-cartoon"; "strip-flower"; "strip-heart"; "strip-custom"].

(** ** More of what is seen of the component *)

(** The timeouts among the events. *)
Definition timers (es : list Event) : nat :=
  List.length (List.filter (fun e => match e with TimerFired _ => true | _ => false end) es).

Definition is_camera_ready (e : Event) : bool :=
  match e with CameraReady => true | _ => false end.

(** What the countdown overlay shows against where the call is suspended. *)
Definition overlay_ok (c : Component) : Prop :=
  match pending c with
  | Some r =>
      match run_at r with
      | AwaitTick _ count =>
          isCountingDown (st c) = true
          /\ countdownValue (st c) = count
          /\ count <= st_countdownTime (run_closure r)
      | AwaitPause _ => isCountingDown (st c) = false
      end
  | None => isCountingDown (st c) = false
  end.


(** Whether the button of a filter has the class [active]:
    [activeFilter.name === filter.name]. *)
Definition filter_button_active (s : State) (f : Filter) : bool :=
  (name (activeFilter s) =? name f)%string.
End Model.

(** ** A browser and a session to run the model on *)

Definition one_half : Unit01 := {| u_val := 1 # 2; u_ok := eq_refl |}.
Definition one_quarter : Unit01 := {| u_val := 1 # 4; u_ok := eq_refl |}.

(** A browser that parses what the page gives it, but for [var(...)] as
    a filter; the stylesheet defines the sepia filter on the root. *)
Definition demo_browser : Browser :=
  {| css_valid := fun k v =>
       match k with
       | CssFilterList => negb (JS.startsWith "var(" v)
       | _ => true
       end;
     rootStyle := fun p => if (p =? "--filter-sepia")%string then " sepia(1)" else "";
     bodyStyle := fun _ => "";
     random := fun k => if Nat.even k then one_half else one_quarter |}.

(** The camera and the hidden canvas, both there. *)
Definition live : Surface :=
  {| videoRef := Some {| videoWidth := 640; videoHeight := 480; currentFrame := 7 |};
     canvasRef := Some {| has_2d := true |} |}.

(** The refs while the video element is not there. *)
Definition busy : Surface :=
  {| videoRef := None; canvasRef := Some {| has_2d := true |} |}.

Definition demo_photo (n : nat) : Snapshot :=
  {| snap_frame := n; snap_filter := "none"; snap_width := 640; snap_height := 480 |}.

(** A closure over a strip of [photos], with a sticker theme. *)
Definition demo_closure (photos : list Snapshot) (theme : string) : DownloadClosure :=
  {| dl_capturedPhotos := {| arr_id := 4; items := photos |};
     dl_selectedStripStyle := "strip-custom";
     dl_customColor := "#e0f7fa";
     dl_activeFilter := {| name := "Sepia"; cssFilter := "var(--filter-sepia)" |};
     dl_selectedStickerTheme := theme;
     dl_captureTime := "11/1/2026, 6:48:00 PM" |}.

(** A session: the camera is granted, the button is clicked, and the
    eleven timeouts of three shots with a countdown of three fire. *)
Definition demo_session : list Event :=
  (CameraReady :: ClickStart "11/1/2026, 6:48:00 PM" live :: repeat (TimerFired live) 11)%list.

(** The sentence on the number of stickers, as the specification has it:
    with a theme other than ['none'], each photo slot of a composite
    holds 7 or 8 stickers. *)
Definition stickers_always_7_or_8 : Prop :=
  forall (browser : Browser) env style color j0 es idx,
    dl_selectedStickerTheme env <> "none" ->
    downloadPhotoStrip env style color true = Some j0 ->
    (idx < List.length (items (dl_capturedPhotos env)))%nat ->
    let k := stickers_in_slot (Z.of_nat idx) (painted (ctx (job_run j0 es))) in
    k = 7%nat \/ k = 8%nat.

(** * The sign-in service, its pages and the protected route

    A shallow embedding of [src/lib/auth.ts], of
    [src/components/ProtectedRoute.tsx] and of the validation and
    submission of [src/pages/LoginPage.tsx] and of the register page.

    - The two Web Storage areas are maps from keys to strings.
    - The table of users is the JavaScript object that [JSON.parse]
      makes of the stored text: the list of its own properties in the
      order of enumeration.  Every key the service writes is an e-mail
      address that has passed its check, which is no array index, so a
      new key goes to the end.
    - [JSON.stringify], [JSON.parse], the quota of the storage areas and
      the build mode are parameters; the clock and the random numbers
      come as arguments.
    - An [async] function of the service is its body after the awaited
      delay: it runs to its end on the storage as it is then. *)

(** ** Patterns *)

Module Regex.

(** The patterns the pages and the service use. *)
Inductive t :=
| Never
| Empty
| Class (p : ascii -> bool)
| Seq (a b : t)
| Alt (a b : t)
| Star (a : t).

(** [a+] *)
Definition Plus (a : t) : t := Seq a (Star a).

(** The characters of a string, one after the other. *)
Fixpoint literal (s : string) : t :=
  match s with
  | EmptyString => Empty
  | String c r => Seq (Class (Ascii.eqb c)) (literal r)
  end.

Fixpoint nullable (r : t) : bool :=
  match r with
  | Never => false
  | Empty => true
  | Class _ => false
  | Seq a b => nullable a && nullable b
  | Alt a b => nullable a || nullable b
  | Star _ => true
  end.

(** What is left of a pattern after the character [c]. *)
Fixpoint deriv (c : ascii) (r : t) : t :=
  match r with
  | Never => Never
  | Empty => Never
  | Class p => if p c then Empty else Never
  | Seq a b =>
      if nullable a then Alt (Seq (deriv c a) b) (deriv c b)
      else Seq (deriv c a) b
  | Alt a b => Alt (deriv c a) (deriv c b)
  | Star a => Seq (deriv c a) (Star a)
  end.

(** [/^r$/.test(s)]: whether the whole of [s] matches. *)
Fixpoint test (r : t) (s : string) : bool :=
  match s with
  | EmptyString => nullable r
  | String c s' => test (deriv c r) s'
  end.

(** The strings a pattern matches. *)
Inductive Matches : t -> string -> Prop :=
| MEmpty : Matches Empty ""
| MClass p c : p c = true -> Matches (Class p) (String c "")
| MSeq a b s1 s2 : Matches a s1 -> Matches b s2 -> Matches (Seq a b) (s1 ++ s2)
| MAltL a b s : Matches a s -> Matches (Alt a b) s
| MAltR a b s : Matches b s -> Matches (Alt a b) s
| MStarNil a : Matches (Star a) ""
| MStarCons a s1 s2 :
    Matches a s1 -> Matches (Star a) s2 -> Matches (Star a) (s1 ++ s2).

(** [[^\s@]] *)
Definition not_space_at (c : ascii) : bool :=
  negb (JS.is_ws c || Ascii.eqb c "@").

End Regex.

(** ** The platform *)

(** A Web Storage area. *)
Definition Storage : Type := string -> option string.

Definition getItem (key : string) (s : Storage) : option string := s key.

Definition setItem (key value : string) (s : Storage) : Storage :=
  fun k => if (k =? key)%string then Some value else s k.

Definition removeItem (key : string) (s : Storage) : Storage :=
  fun k => if (k =? key)%string then None else s k.

Definition no_items : Storage := fun _ => None.

(** The two areas of the page. *)
Record Stores := { localStorage : Storage; sessionStorage : Storage }.

Inductive Area := LocalArea | SessionArea.

Definition area (a : Area) (w : Stores) : Storage :=
  match a with LocalArea => localStorage w | SessionArea => sessionStorage w end.

Definition with_area (a : Area) (s : Storage) (w : Stores) : Stores :=
  match a with
  | LocalArea => {| localStorage := s; sessionStorage := sessionStorage w |}
  | SessionArea => {| localStorage := localStorage w; sessionStorage := s |}
  end.

(** What is thrown: an exception with its message. *)
Inductive Exception := Error (message : string).

(** How a call ends: with a value, or by throwing; for an [async]
    function, the promise resolved or rejected. *)
Inductive Outcome (A : Type) :=
| Returned (a : A)
| Thrown (e : Exception).

Arguments Returned {A} a.
Arguments Thrown {A} e.

Module auth.

Record User :=
  { id : string;
    email : string;
    displayName : string;
    hashedPasswordStub : string;
    createdAt : Z }.

(** The own properties of the object, in the order of enumeration. *)
Definition UserStore : Type := list (string * User).

(** What [login] returns: the user without [hashedPasswordStub]. *)
Record UserPublic :=
  { pub_id : string; pub_email : string; pub_displayName : string; pub_createdAt : Z }.

(** What the page runs on: the JSON of a table of users ([None] when
    [JSON.parse] throws), whether [setItem] throws for want of room,
    with the message of the exception, and whether the build is a
    development build. *)
Class Platform :=
  { JSON_stringify : UserStore -> string;
    JSON_parse : string -> option UserStore;
    quota_exceeded : Area -> Storage -> string -> string -> bool;
    quota_message : string;
    development : bool }.

(** The properties every object inherits from [Object.prototype]; each
    of them is truthy. *)
Definition Object_prototype : list string :=
  [ "constructor"; "__defineGetter__"; "__defineSetter__"; "hasOwnProperty";
    "__lookupGetter__"; "__lookupSetter__"; "isPrototypeOf";
    "propertyIsEnumerable"; "toString"; "valueOf"; "__proto__";
    "toLocaleString" ].

(** What [users[key]] is. *)
Inductive Property :=
| Own (u : User)
| Inherited
| Undefined.

Definition get (users : UserStore) (key : string) : Property :=
  match find (fun kv => (fst kv =? key)%string) users with
  | Some kv => Own (snd kv)
  | None =>
      if existsb (String.eqb key) Object_prototype then Inherited else Undefined
  end.

(** [users[key] = u] *)
Fixpoint set (users : UserStore) (key : string) (u : User) : UserStore :=
  match users with
  | [] => [(key, u)]
  | kv :: rest =>
      if (fst kv =? key)%string then (key, u) :: rest
      else kv :: set rest key u
  end.

Definition Object_values (users : UserStore) : list User := map snd users.

Definition USERS_STORAGE_KEY : string := "photobooth_users".
Definition TOKEN_STORAGE_KEY : string := "photobooth_auth_token".

Definition hashPassword (password : string) : string := JS.btoa password.

(** [`user_${Date.now()}_${Math.random().toString(36).substr(2, 9)}`];
    [suffix] is what the random number gives. *)
Definition generateUserId (now : Z) (suffix : string) : string :=
  "user_" ++ JS.toString now ++ "_" ++ suffix.

(** [/^[^\s@]+@gmail\.com$/.test(email)] *)
Definition emailRegex : Regex.t :=
  Regex.Seq (Regex.Plus (Regex.Class Regex.not_space_at)) (Regex.literal "@gmail.com").

Definition isValidGmailEmail (email : string) : bool := Regex.test emailRegex email.

Definition public (u : User) : UserPublic :=
  {| pub_id := id u; pub_email := email u; pub_displayName := displayName u;
     pub_createdAt := createdAt u |}.

Section Service.

Context {platform : Platform}.

(** [storage.setItem(key, value)] *)
Definition store (a : Area) (key value : string) (w : Stores) : Outcome unit * Stores :=
  if quota_exceeded a (area a w) key value
  then (Thrown (Error quota_message), w)
  else (Returned tt, with_area a (setItem key value (area a w)) w).

Definition getStoredUsers (w : Stores) : UserStore :=
  match getItem USERS_STORAGE_KEY (localStorage w) with
  | Some stored =>
      if JS.truthy stored then
        match JSON_parse stored with
        | Some users => users
        | None => []                    (* the [catch] *)
        end
      else []
  | None => []
  end.

Definition saveUsers (users : UserStore) (w : Stores) : Outcome unit * Stores :=
  match store LocalArea USERS_STORAGE_KEY (JSON_stringify users) w with
  | (Returned _, w') => (Returned tt, w')
  | (Thrown _, w') =>
      (Thrown (Error "Failed to save user data. Please try again."), w')
  end.

(** [register], after the delay.  [now_id] and [now] are the two
    readings of [Date.now()]. *)
Definition register (email password : string) (name : option string)
    (now_id : Z) (suffix : string) (now : Z) (w : Stores)
  : Outcome User * Stores :=
  if negb (isValidGmailEmail email) then
    (Thrown (Error "Only @gmail.com accounts are allowed."), w)
  else if (negb (JS.truthy password) || (String.length password <? 6)%nat)%bool then
    (Thrown (Error "Password must be at least 6 characters."), w)
  else
    let users := getStoredUsers w in
    match get users email with
    | Own _ | Inherited =>
        (Thrown (Error "Account already exists. Try signing in."), w)
    | Undefined =>
        let newUser :=
          {| id := generateUserId now_id suffix;
             email := email;
             displayName :=
               JS.or (match name with Some n => JS.trim n | None => "" end)
                     (JS.before "@" email);
             hashedPasswordStub := hashPassword password;
             createdAt := now |} in
        let users := set users email newUser in
        match saveUsers users w with
        | (Returned _, w') => (Returned newUser, w')
        | (Thrown e, w') => (Thrown e, w')
        end
    end.

(** [login], after the delay.  [random] is the text of the random
    number in the token. *)
Definition login (email password : string) (remember : bool)
    (now : Z) (random : string) (w : Stores)
  : Outcome UserPublic * Stores :=
  if negb (isValidGmailEmail email) then
    (Thrown (Error "Only @gmail.com accounts are allowed."), w)
  else
    let users := getStoredUsers w in
    match get users email with
    | Undefined =>
        (Thrown (Error "Account not found. Please create an account first."), w)
    | Inherited =>
        (* [user.hashedPasswordStub] is [undefined] *)
        (Thrown (Error "Incorrect password."), w)
    | Own user =>
        let hashedInput := hashPassword password in
        if negb (hashedInput =? hashedPasswordStub user)%string then
          (Thrown (Error "Incorrect password."), w)
        else
          let mockToken := JS.btoa (email ++ ":" ++ JS.toString now ++ ":" ++ random) in
          let storage := if remember then LocalArea else SessionArea in
          match store storage TOKEN_STORAGE_KEY mockToken w with
          | (Returned _, w') => (Returned (public user), w')
          | (Thrown e, w') => (Thrown e, w')
          end
    end.

Definition logout (w : Stores) : Stores :=
  {| localStorage := removeItem TOKEN_STORAGE_KEY (localStorage w);
     sessionStorage := removeItem TOKEN_STORAGE_KEY (sessionStorage w) |}.

(** [a || b] on what [getItem] returns: [null] and the empty string are
    falsy. *)
Definition or_null (a b : option string) : option string :=
  match a with
  | Some s => if JS.truthy s then a else b
  | None => b
  end.

Definition getToken (w : Stores) : option string :=
  or_null (getItem TOKEN_STORAGE_KEY (localStorage w))
          (getItem TOKEN_STORAGE_KEY (sessionStorage w)).

(** [!!token] *)
Definition present (token : option string) : bool :=
  match token with Some s => JS.truthy s | None => false end.

Definition isAuthenticated (w : Stores) : bool := present (getToken w).

Definition isRegistered (email : string) (w : Stores) : bool :=
  match get (getStoredUsers w) email with
  | Own _ | Inherited => true
  | Undefined => false
  end.

Definition getCurrentUser (w : Stores) : option User :=
  if negb (present (getToken w)) then None
  else
    match Object_values (getStoredUsers w) with
    | user :: _ => Some user
    | [] => None
    end.

Definition _devClearAllUsers (w : Stores) : Stores :=
  if negb development then w
  else
    logout {| localStorage := removeItem USERS_STORAGE_KEY (localStorage w);
              sessionStorage := sessionStorage w |}.

End Service.

End auth.

(** ** The protected route *)

(** What a component renders to: its children, or a navigation. *)
Inductive Rendered :=
| Children
| Navigate (to : string) (from : option string) (replace : bool).

Section Route.

Context {platform : auth.Platform}.

(** [location] is the path the router is at. *)
Definition ProtectedRoute (requiredRole : option string) (location : string)
    (w : Stores) : Rendered :=
  let isAuthenticated := auth.isAuthenticated w in
  if negb isAuthenticated then Navigate "/login" (Some location) true
  else Children.

End Route.

(** ** The pages *)

(** [/^[^\s@]+@[^\s@]+\.[^\s@]+$/] *)
Definition EMAIL_REGEX : Regex.t :=
  Regex.Seq (Regex.Plus (Regex.Class Regex.not_space_at))
    (Regex.Seq (Regex.Class (Ascii.eqb "@"))
       (Regex.Seq (Regex.Plus (Regex.Class Regex.not_space_at))
          (Regex.Seq (Regex.Class (Ascii.eqb "."))
             (Regex.Plus (Regex.Class Regex.not_space_at))))).

(** How a submission of a form ends. *)
Inductive Submitted (E : Type) :=
| Invalid (errors : E)                 (* the fields are marked *)
| Failed (generalError : string)       (* the banner *)
| Navigated (to : string).

Arguments Invalid {E} errors.
Arguments Failed {E} generalError.
Arguments Navigated {E} to.

Module LoginPage.

Record FormErrors := { email : option string; password : option string }.

Definition validateEmail (email : string) : option string :=
  if negb (JS.truthy (JS.trim email)) then Some "Email is required"
  else if negb (Regex.test EMAIL_REGEX email) then
    Some "Please enter a valid email address"
  else None.

Definition validatePassword (password : string) : option string :=
  if negb (JS.truthy password) then Some "Password is required"
  else if (String.length password <? 6)%nat then
    Some "Password must be at least 6 characters"
  else None.

(** The errors [validateForm] sets; the form is valid when there is none. *)
Definition validateForm (email password : string) : FormErrors :=
  {| email := validateEmail email; password := validatePassword password |}.

Definition no_error (e : FormErrors) : bool :=
  match email e, password e with
  | None, None => true
  | _, _ => false
  end.

Section Page.

Context {platform : auth.Platform}.

(** [handleSubmit]: [from] is [location.state?.from?.pathname]. *)
Definition handleSubmit (email password : string) (rememberMe : bool)
    (from : option string) (now : Z) (random : string) (w : Stores)
  : Submitted FormErrors * Stores :=
  let errors := validateForm email password in
  if negb (no_error errors) then (Invalid errors, w)
  else
    match auth.login email password rememberMe now random w with
    | (Returned _, w') =>
        (Navigated (JS.or (match from with Some p => p | None => "" end) "/photobooth"),
         w')
    | (Thrown (Error message), w') => (Failed message, w')
    end.

End Page.

End LoginPage.

Module RegisterPage.

Record FormErrors :=
  { email : option string;
    password : option string;
    confirmPassword : option string }.

Definition validateEmail (email : string) : option string :=
  if negb (JS.truthy (JS.trim email)) then Some "Email is required"
  else if negb (Regex.test EMAIL_REGEX email) then
    Some "Please enter a valid email address"
  else if negb (JS.endsWith "@gmail.com" email) then
    Some "Only @gmail.com accounts are allowed."
  else None.

Definition validatePassword (password : string) : option string :=
  if negb (JS.truthy password) then Some "Password is required"
  else if (String.length password <? 6)%nat then
    Some "Password must be at least 6 characters"
  else None.

Definition validatePasswordMatch (password confirmPassword : string) : option string :=
  if negb (JS.truthy confirmPassword) then Some "Please confirm your password"
  else if negb (password =? confirmPassword)%string then Some "Passwords do not match"
  else None.

Definition validateForm (email password confirmPassword : string) : FormErrors :=
  {| email := validateEmail email;
     password := validatePassword password;
     confirmPassword := validatePasswordMatch password confirmPassword |}.

Definition no_error (e : FormErrors) : bool :=
  match email e, password e, confirmPassword e with
  | None, None, None => true
  | _, _, _ => false
  end.

Section Page.

Context {platform : auth.Platform}.

Definition handleSubmit (name email password confirmPassword : string)
    (now_id : Z) (suffix : string) (now : Z) (w : Stores)
  : Submitted FormErrors * Stores :=
  let errors := validateForm email password confirmPassword in
  if negb (no_error errors) then (Invalid errors, w)
  else
    match auth.register email password (Some name) now_id suffix now w with
    | (Returned _, w') => (Navigated "/login", w')
    | (Thrown (Error message), w') => (Failed message, w')
    end.

End Page.

End RegisterPage.

(** ** A platform to run the service on *)

Module DemoJSON.

(** [QuoteJSONString]: the escapes of [JSON.stringify]. *)
Definition hex (n : nat) : ascii :=
  match String.get n "0123456789abcdef" with Some c => c | None => "0"%char end.

Fixpoint escape (s : string) : string :=
  match s with
  | EmptyString => EmptyString
  | String c r =>
      let n := nat_of_ascii c in
      (if Nat.eqb n 34 then "\" ++ String c ""
       else if Nat.eqb n 92 then "\\"
       else if Nat.eqb n 8 then "\b"
       else if Nat.eqb n 12 then "\f"
       else if Nat.eqb n 10 then "\n"
       else if Nat.eqb n 13 then "\r"
       else if Nat.eqb n 9 then "\t"
       else if Nat.ltb n 32 then
         "\u00" ++ String (hex (n / 16)) (String (hex (n mod 16)) "")
       else String c "") ++ escape r
  end.

Definition quote (s : string) : string :=
  String (ascii_of_nat 34) (escape s) ++ String (ascii_of_nat 34) "".

Definition stringify_user (u : auth.User) : string :=
  "{" ++ quote "id" ++ ":" ++ quote (auth.id u)
  ++ "," ++ quote "email" ++ ":" ++ quote (auth.email u)
  ++ "," ++ quote "displayName" ++ ":" ++ quote (auth.displayName u)
  ++ "," ++ quote "hashedPasswordStub" ++ ":" ++ quote (auth.hashedPasswordStub u)
  ++ "," ++ quote "createdAt" ++ ":" ++ JS.toString (auth.createdAt u) ++ "}".

Fixpoint stringify_entries (users : auth.UserStore) : string :=
  match users with
  | [] => ""
  | [(k, u)] => quote k ++ ":" ++ stringify_user u
  | (k, u) :: rest => quote k ++ ":" ++ stringify_user u ++ "," ++ stringify_entries rest
  end.

Definition stringify (users : auth.UserStore) : string :=
  "{" ++ stringify_entries users ++ "}".

(** A parser for the texts [stringify] makes. *)
Definition expect (lit s : string) : option string :=
  if String.prefix lit s then Some (JS.drop (String.length lit) s) else None.

Definition unhex (c : ascii) : option nat :=
  match String.index 0 (String c "") "0123456789abcdef" with
  | Some n => Some n
  | None => None
  end.

Fixpoint string_body (s : string) : option (string * string) :=
  match s with
  | EmptyString => None
  | String c r =>
      let n := nat_of_ascii c in
      if Nat.eqb n 34 then Some (EmptyString, r)
      else if Nat.eqb n 92 then
        match r with
        | String e r' =>
            let plain (c : ascii) (rest : string) :=
              match string_body rest with
              | Some (t, rest') => Some (String c t, rest')
              | None => None
              end in
            let m := nat_of_ascii e in
            if Nat.eqb m 34 then plain e r'
            else if Nat.eqb m 92 then plain e r'
            else if Ascii.eqb e "b" then plain (ascii_of_nat 8) r'
            else if Ascii.eqb e "f" then plain (ascii_of_nat 12) r'
            else if Ascii.eqb e "n" then plain (ascii_of_nat 10) r'
            else if Ascii.eqb e "r" then plain (ascii_of_nat 13) r'
            else if Ascii.eqb e "t" then plain (ascii_of_nat 9) r'
            else if Ascii.eqb e "u" then
              match r' with
              | String "0" (String "0" (String h (String l r''))) =>
                  match unhex h, unhex l with
                  | Some a, Some b => plain (ascii_of_nat (16 * a + b)) r''
                  | _, _ => None
                  end
              | _ => None
              end
            else None
        | EmptyString => None
        end
      else
        match string_body r with
        | Some (t, rest) => Some (String c t, rest)
        | None => None
        end
  end.

Definition parse_string (s : string) : option (string * string) :=
  match expect (String (ascii_of_nat 34) "") s with
  | Some r => string_body r
  | None => None
  end.

Fixpoint digits (s : string) : string * string :=
  match s with
  | EmptyString => (EmptyString, EmptyString)
  | String c r =>
      if (Ascii.eqb c "-" || (Nat.leb 48 (nat_of_ascii c) && Nat.leb (nat_of_ascii c) 57))%bool
      then let (d, rest) := digits r in (String c d, rest)
      else (EmptyString, s)
  end.

Definition parse_number (s : string) : option (Z * string) :=
  let (d, rest) := digits s in
  match NilZero.int_of_string d with
  | Some i => Some (Z.of_int i, rest)
  | None => None
  end.

Definition field (name : string) (s : string) : option (string * string) :=
  match expect (quote name ++ ":") s with
  | Some r => parse_string r
  | None => None
  end.

Definition parse_user (s : string) : option (auth.User * string) :=
  match expect "{" s with
  | Some s =>
  match field "id" s with
  | Some (i, s) =>
  match expect "," s with
  | Some s =>
  match field "email" s with
  | Some (e, s) =>
  match expect "," s with
  | Some s =>
  match field "displayName" s with
  | Some (d, s) =>
  match expect "," s with
  | Some s =>
  match field "hashedPasswordStub" s with
  | Some (h, s) =>
  match expect ("," ++ quote "createdAt" ++ ":") s with
  | Some s =>
  match parse_number s with
  | Some (c, s) =>
  match expect "}" s with
  | Some s =>
      Some ({| auth.id := i; auth.email := e; auth.displayName := d;
               auth.hashedPasswordStub := h; auth.createdAt := c |}, s)
  | None => None end
  | None => None end
  | None => None end
  | None => None end
  | None => None end
  | None => None end
  | None => None end
  | None => None end
  | None => None end
  | None => None end
  | None => None end.

(** The entries, at most [fuel] of them. *)
Fixpoint parse_entries (fuel : nat) (s : string) : option auth.UserStore :=
  match fuel with
  | O => None
  | S fuel' =>
      match parse_string s with
      | Some (k, s) =>
          match expect ":" s with
          | Some s =>
              match parse_user s with
              | Some (u, s) =>
                  match expect "," s with
                  | Some s =>
                      match parse_entries fuel' s with
                      | Some rest => Some ((k, u) :: rest)
                      | None => None
                      end
                  | None =>
                      if (s =? "}")%string then Some [(k, u)] else None
                  end
              | None => None
              end
          | None => None
          end
      | None => None
      end
  end.

Definition parse (s : string) : option auth.UserStore :=
  if (s =? "{}")%string then Some []
  else
    match expect "{" s with
    | Some r => parse_entries (String.length s) r
    | None => None
    end.

End DemoJSON.

(** A platform with room in its storage areas, in a production build. *)
Definition demo_platform : auth.Platform :=
  {| auth.JSON_stringify := DemoJSON.stringify;
     auth.JSON_parse := DemoJSON.parse;
     auth.quota_exceeded := fun _ _ _ _ => false;
     auth.quota_message := "The quota has been exceeded.";
     auth.development := false |}.

(** A platform whose local storage is full. *)
Definition full_platform : auth.Platform :=
  {| auth.JSON_stringify := DemoJSON.stringify;
     auth.JSON_parse := DemoJSON.parse;
     auth.quota_exceeded :=
       fun a _ _ _ => match a with LocalArea => true | SessionArea => false end;
     auth.quota_message := "The quota has been exceeded.";
     auth.development := false |}.

(** The storage of a first visit. *)
Definition first_visit : Stores :=
  {| localStorage := no_items; sessionStorage := no_items |}.

(** Two accounts are registered on a first visit, then the second signs
    in for the session. *)
Definition ana : auth.User :=
  {| auth.id := "user_1700000000000_k3j9x0a1b";
     auth.email := "ana@gmail.com";
     auth.displayName := "Ana";
     auth.hashedPasswordStub := "c2VjcmV0MQ==";
     auth.createdAt := 1700000000001 |}.

Definition one_account : Stores :=
  snd (auth.register (platform := demo_platform) "ana@gmail.com" "secret1"
         (Some "  Ana ") 1700000000000 "k3j9x0a1b" 1700000000001 first_visit).

Definition two_accounts : Stores :=
  snd (auth.register (platform := demo_platform) "bob@gmail.com" "hunter22" None
         1700000000500 "zzzzzzzzz" 1700000000501 one_account).

Definition bob_signed_in : Stores :=
  snd (auth.login (platform := demo_platform) "bob@gmail.com" "hunter22" false
         1700000001000 "0.123" two_accounts).


(** * Properties *)

Section Facts.

Context {browser : Browser}.

(** ** Strings *)

Lemma span_not_rparen_app (nm rest : string) :
  (forall c, In c (list_ascii_of_string nm) -> c <> ")"%char) ->
  JS.span_not_rparen (nm ++ String ")" rest) = (nm, String ")" rest).
Proof.
  induction nm as [|c nm IH]; intros Hno.
  - reflexivity.
  - cbn [append JS.span_not_rparen].
    destruct (Ascii.eqb_spec c ")") as [->|_].
    + exfalso. apply (Hno ")"%char); [now left | reflexivity].
    + rewrite IH; [reflexivity|].
      intros d Hd. apply Hno. now right.
Qed.

Lemma match_var_reference (nm : string) :
  nm <> "" ->
  (forall c, In c (list_ascii_of_string nm) -> c <> ")"%char) ->
  JS.match_var ("var(" ++ nm ++ ")") = Some nm.
Proof.
  intros Hne Hno.
  assert (Hat : JS.match_var_at ("var(" ++ nm ++ ")") = Some nm).
  { unfold JS.match_var_at. cbn.
    replace (String.prefix "" (nm ++ ")")) with true by (now destruct nm).
    rewrite span_not_rparen_app by exact Hno.
    destruct nm as [|c nm]; [congruence|]. reflexivity. }
  destruct nm as [|c nm]; [congruence|].
  cbn [append JS.match_var] in *. now rewrite Hat.
Qed.

Lemma no_rparen_check (nm : string) :
  forallb (fun c => negb (Ascii.eqb c ")")) (list_ascii_of_string nm) = true ->
  forall c, In c (list_ascii_of_string nm) -> c <> ")"%char.
Proof.
  intros Hall c Hc ->. rewrite forallb_forall in Hall. specialize (Hall _ Hc).
  discriminate Hall.
Qed.

(** ** The filter handed to the context *)

(** A value that is not a [var(] reference is trimmed, and is ['none']
    when nothing is left. *)
Lemma resolveFilter_direct (v : string) :
  JS.startsWith "var(" v = false ->
  resolveFilter v = JS.or (JS.trim v) "none".
Proof. unfold resolveFilter. now intros ->. Qed.

(** A [var(name)] reference is looked up: root element, then body, then
    ['none']. *)
Lemma resolveFilter_reference (nm : string) :
  nm <> "" ->
  (forall c, In c (list_ascii_of_string nm) -> c <> ")"%char) ->
  resolveFilter ("var(" ++ nm ++ ")") =
    JS.or (JS.trim (JS.or (rootStyle (JS.trim nm))
                      (JS.or (bodyStyle (JS.trim nm)) "none"))) "none".
Proof.
  intros Hne Hno. unfold resolveFilter.
  rewrite (match_var_reference nm Hne Hno).
  replace (JS.startsWith "var(" ("var(" ++ nm ++ ")")) with true.
  2:{ unfold JS.startsWith. cbn. now destruct nm. }
  destruct nm as [|c nm]; [congruence|]. reflexivity.
Qed.

(** ** The context *)

Lemma same_state_refl (s : State) : same_state s s = true.
Proof.
  unfold same_state, Filter_eqb.
  rewrite !String.eqb_refl, !Z.eqb_refl, !Nat.eqb_refl, !Bool.eqb_reflx.
  now destruct (stream s).
Qed.

(** What the operations of the context leave alone. *)

Lemma painted_set_fillStyle v c : painted (set_fillStyle v c) = painted c.
Proof. unfold set_fillStyle. now destruct css_valid. Qed.

Lemma painted_set_font v c : painted (set_font v c) = painted c.
Proof. unfold set_font. now destruct css_valid. Qed.

Lemma painted_set_textAlign v c : painted (set_textAlign v c) = painted c.
Proof. unfold set_textAlign. now destruct existsb. Qed.

Lemma painted_set_filter v c : painted (set_filter v c) = painted c.
Proof. unfold set_filter. now destruct css_valid. Qed.

Lemma saved_set_fillStyle v c : saved (set_fillStyle v c) = saved c.
Proof. unfold set_fillStyle. now destruct css_valid. Qed.

Lemma saved_set_font v c : saved (set_font v c) = saved c.
Proof. unfold set_font. now destruct css_valid. Qed.

Lemma saved_set_textAlign v c : saved (set_textAlign v c) = saved c.
Proof. unfold set_textAlign. now destruct existsb. Qed.

Lemma saved_set_filter v c : saved (set_filter v c) = saved c.
Proof. unfold set_filter. now destruct css_valid. Qed.

Lemma xform_set_fillStyle v c :
  ds_xform (cur (set_fillStyle v c)) = ds_xform (cur c).
Proof. unfold set_fillStyle. now destruct css_valid. Qed.

Lemma xform_set_font v c : ds_xform (cur (set_font v c)) = ds_xform (cur c).
Proof. unfold set_font. now destruct css_valid. Qed.

Lemma xform_set_textAlign v c :
  ds_xform (cur (set_textAlign v c)) = ds_xform (cur c).
Proof. unfold set_textAlign. now destruct existsb. Qed.

Lemma xform_set_filter v c : ds_xform (cur (set_filter v c)) = ds_xform (cur c).
Proof. unfold set_filter. now destruct css_valid. Qed.

Lemma filter_set_filter v c :
  ds_filter (cur (set_filter v c)) =
    if css_valid CssFilterList v then v else ds_filter (cur c).
Proof. unfold set_filter. now destruct css_valid. Qed.

Lemma painted_paint sh c :
  painted (paint sh c) = (painted c ++ [ {| shape := sh; state := cur c |} ])%list.
Proof. reflexivity. Qed.

Lemma painted_restore c : painted (restore c) = painted c.
Proof. unfold restore. now destruct (saved c). Qed.

Lemma restore_save_cur c c' :
  saved c' = cur c :: saved c -> cur (restore c') = cur c /\ saved (restore c') = saved c.
Proof. unfold restore. now intros ->. Qed.

(** The footer paints one text and leaves the transform alone. *)
Lemma draw_footer_painted label n c :
  exists d,
    painted (draw_footer label n c) =
      (painted c ++ [ {| shape := FillText label (stripWidth / 2) (dateY n);
                         state := d |} ])%list
    /\ ds_xform (cur (draw_footer label n c)) = ds_xform (cur c)
    /\ saved (draw_footer label n c) = saved c.
Proof.
  unfold draw_footer, fillText. eexists. rewrite painted_paint.
  rewrite painted_set_textAlign, painted_set_fillStyle, painted_set_font.
  split; [reflexivity|].
  cbn [paint cur saved].
  rewrite xform_set_textAlign, xform_set_fillStyle, xform_set_font.
  rewrite saved_set_textAlign, saved_set_fillStyle, saved_set_font.
  split; reflexivity.
Qed.

(** ** The handlers of a job *)

(** The handler of a photo paints the photo in its slot, under the
    resolved filter when the context takes it; it paints the label and
    triggers the download when the count is reached, and only then. *)
Lemma photo_onload_spec index photo now j :
  let j' := photo_onload index photo now j in
  let last := loadedCount j + 1 =? numPhotos j in
  job_env j' = job_env j
  /\ canvas_width j' = canvas_width j
  /\ canvas_height j' = canvas_height j
  /\ loadedCount j' = loadedCount j + 1
  /\ photo_loaded j' = photo_loaded j
  /\ random_calls j' = random_calls j
  /\ stickerImgs j' =
       (stickerImgs j ++
        new_sticker (dl_selectedStickerTheme (job_env j)) (slot_y index))%list
  /\ ds_xform (cur (ctx j')) = ds_xform (cur (ctx j))
  /\ saved (ctx j') = saved (ctx j)
  /\ exists d d',
       ds_filter d =
         (let v := resolveFilter (cssFilter (dl_activeFilter (job_env j))) in
          if css_valid CssFilterList v then v else ds_filter (cur (ctx j)))
       /\ ds_xform d = ds_xform (cur (ctx j))
       /\ painted (ctx j') =
            (painted (ctx j)
             ++ {| shape := DrawImage (SrcSnapshot photo) 20 (inject_Z (slot_y index))
                              (inject_Z photoWidth) (inject_Z photoHeight);
                   state := d |}
             :: (if last
                 then [ {| shape := FillText (dl_captureTime (job_env j))
                                      (stripWidth / 2) (dateY (numPhotos j));
                           state := d' |} ]
                 else []))%list
       /\ downloads j' =
            (downloads j
             ++ (if last
                 then [ {| download_ms := now; file_width := canvas_width j;
                           file_height := canvas_height j;
                           file_painted := painted (ctx j') |} ]
                 else []))%list.
Proof.
  intros j' last. subst j' last. unfold photo_onload.
  set (v := resolveFilter _).
  set (c1 := restore _).
  assert (Hp1 : painted c1 =
            (painted (ctx j)
             ++ [ {| shape := DrawImage (SrcSnapshot photo) 20 (inject_Z (slot_y index))
                              (inject_Z photoWidth) (inject_Z photoHeight);
                     state := cur (set_filter v (save (ctx j))) |} ])%list).
  { subst c1. unfold drawImage. rewrite painted_restore, painted_paint.
    now rewrite painted_set_filter. }
  assert (Hc1 : cur c1 = cur (ctx j) /\ saved c1 = saved (ctx j)).
  { subst c1. apply restore_save_cur. unfold drawImage. cbn [paint saved].
    now rewrite saved_set_filter. }
  destruct Hc1 as [Hcur Hsaved].
  destruct (draw_footer_painted (dl_captureTime (job_env j)) (numPhotos j) c1)
    as (d' & Hf & Hfx & Hfs).
  assert (Hn : numPhotos
                 {| job_env := job_env j; canvas_width := canvas_width j;
                    canvas_height := canvas_height j; ctx := ctx j;
                    loadedCount := loadedCount j; photo_loaded := photo_loaded j;
                    stickerImgs := stickerImgs j; random_calls := random_calls j;
                    downloads := downloads j |} = numPhotos j) by reflexivity.
  destruct (loadedCount j + 1 =? numPhotos j) eqn:Hlast;
    cbn [job_env canvas_width canvas_height loadedCount photo_loaded random_calls
         stickerImgs ctx downloads];
    (repeat (split; [first [reflexivity | congruence]|])).
  - exists (cur (set_filter v (save (ctx j)))), d'.
    rewrite filter_set_filter, xform_set_filter. cbn [save cur].
    repeat split; try reflexivity.
    rewrite Hf, Hp1, <- app_assoc. reflexivity.
  - exists (cur (set_filter v (save (ctx j)))), d'.
    rewrite filter_set_filter, xform_set_filter. cbn [save cur].
    repeat split; try reflexivity.
    + rewrite Hp1. reflexivity.
    + now rewrite app_nil_r.
Qed.

(** ** Random numbers and the geometry of a slot *)

Lemma unit01_bounds (u : Unit01) : (0 <= u_val u /\ u_val u < 1)%Q.
Proof.
  destruct u as [q H]. cbn. unfold in_unit in H.
  apply andb_true_iff in H. destruct H as [H0 H1].
  apply Qle_bool_iff in H0. apply negb_true_iff in H1.
  split; [exact H0|]. apply Qnot_le_lt. intros Hle.
  apply Qle_bool_iff in Hle. congruence.
Qed.

Lemma floor_unique (x : Q) (z : Z) :
  (inject_Z z <= x)%Q -> (x < inject_Z (z + 1))%Q -> floor x = z.
Proof.
  intros Hlo Hhi. unfold floor.
  pose proof (Qfloor_le x) as H1. pose proof (Qlt_floor x) as H2.
  assert (A : (inject_Z z < inject_Z (Qfloor x + 1))%Q)
    by (eapply Qle_lt_trans; eauto).
  assert (B : (inject_Z (Qfloor x) < inject_Z (z + 1))%Q)
    by (eapply Qle_lt_trans; eauto).
  rewrite <- Zlt_Qlt in A, B. lia.
Qed.

(** [Math.floor(Math.random() * 2) + 7] is 7 or 8. *)
Lemma stickerCount_range (k : nat) : stickerCount k = 7 \/ stickerCount k = 8.
Proof.
  unfold stickerCount, rnd.
  destruct (unit01_bounds (random k)) as [H0 H1].
  destruct (Qlt_le_dec (u_val (random k)) (1 # 2)) as [Hlt|Hge].
  - left. rewrite (floor_unique _ 0); [reflexivity| |].
    + change (inject_Z 0) with 0%Q. lra.
    + change (inject_Z (0 + 1)) with 1%Q. lra.
  - right. rewrite (floor_unique _ 1); [reflexivity| |].
    + change (inject_Z 1) with 1%Q. lra.
    + change (inject_Z (1 + 1)) with 2%Q. lra.
Qed.

Lemma stickerSize_eq : stickerSize = 48.
Proof. reflexivity. Qed.

(** The centre of a sticker placed for the slot of photo [i] lies in
    that slot. *)
Lemma slot_of_centre (u : Unit01) (i : Z) :
  floor ((inject_Z (60 + i * 310) + inject_Z 8 + u_val u * inject_Z 236
          + inject_Z 48 / 2 - inject_Z 60) / inject_Z 310)%Q = i.
Proof.
  destruct (unit01_bounds u) as [H0 H1].
  assert (E : (48 / 2 == 24)%Q) by reflexivity.
  apply floor_unique; rewrite !inject_Z_plus, !inject_Z_mult.
  - apply Qle_shift_div_l; [reflexivity|].
    change (inject_Z 310) with 310%Q. change (inject_Z 60) with 60%Q.
    change (inject_Z 8) with 8%Q. change (inject_Z 236) with 236%Q.
    change (inject_Z 48) with 48%Q. lra.
  - apply Qlt_shift_div_r; [reflexivity|].
    change (inject_Z 310) with 310%Q. change (inject_Z 60) with 60%Q.
    change (inject_Z 8) with 8%Q. change (inject_Z 236) with 236%Q.
    change (inject_Z 48) with 48%Q. change (inject_Z 1) with 1%Q. lra.
Qed.

Lemma sticker_op_slot src idx p :
  sticker_op src (slot_y idx) [] p -> sticker_slot p = Some (Z.of_nat idx).
Proof.
  intros (ux & uy & ua & Hs & Hx). unfold sticker_slot. rewrite Hs, Hx.
  cbn [app]. f_equal.
  rewrite stickerSize_eq. unfold slot_y.
  change (photoHeight - 48 - 2 * 8) with 236.
  change (photoHeight + previewPhotoGap) with 310.
  change previewPaddingTop with 60.
  apply slot_of_centre.
Qed.

(** One sticker: the state is saved and restored around it. *)
Lemma one_sticker img a tx ty x y w h c :
  restore (drawImage img x y w h (rotate a (translate tx ty (save c)))) =
    {| cur := cur c; saved := saved c; path := path c;
       painted :=
         (painted c ++
          [ {| shape := DrawImage img x y w h;
               state :=
                 cur (rotate a (translate tx ty (save c))) |} ])%list |}.
Proof. reflexivity. Qed.

(** The sticker loop paints [n] stickers and leaves the state of the
    context as it was. *)
Lemma place_stickers_spec n src y :
  forall k c,
    exists more,
      place_stickers n src y k c =
        ((k + 3 * n)%nat,
         {| cur := cur c; saved := saved c; path := path c;
            painted := (painted c ++ more)%list |})
      /\ List.length more = n
      /\ Forall (sticker_op src y (ds_xform (cur c))) more.
Proof.
  induction n as [|n IH]; intros k c.
  - exists []. cbn [place_stickers]. rewrite Nat.add_0_r, app_nil_r.
    destruct c. repeat split; constructor.
  - cbn [place_stickers]. rewrite one_sticker.
    match goal with |- context [place_stickers n src y ?k' ?c'] =>
      destruct (IH k' c') as (more & Heq & Hlen & Hall); rewrite Heq end.
    cbn [cur saved path painted] in *.
    eexists (_ :: more). split; [|split].
    + rewrite <- app_assoc. cbn [app]. f_equal. lia.
    + cbn [List.length]. now rewrite Hlen.
    + constructor; [|exact Hall].
      exists (random k), (random (k + 1)), (random (k + 2)).
      cbn [shape state]. split; [reflexivity|].
      cbn [ds_xform cur save translate rotate transform with_cur].
      rewrite <- app_assoc. reflexivity.
Qed.

(** The handler of a sticker image paints 7 or 8 stickers for its slot
    and touches neither the count nor the downloads. *)
Lemma sticker_onload_spec img j :
  let j' := sticker_onload img j in
  job_env j' = job_env j
  /\ canvas_width j' = canvas_width j
  /\ canvas_height j' = canvas_height j
  /\ loadedCount j' = loadedCount j
  /\ photo_loaded j' = photo_loaded j
  /\ stickerImgs j' = stickerImgs j
  /\ downloads j' = downloads j
  /\ cur (ctx j') = cur (ctx j)
  /\ exists more,
       painted (ctx j') = (painted (ctx j) ++ more)%list
       /\ (List.length more = 7 \/ List.length more = 8)%nat
       /\ Forall (sticker_op (sticker_src img) (sticker_y img)
                    (ds_xform (cur (ctx j)))) more.
Proof.
  intros j'. subst j'. unfold sticker_onload.
  destruct (place_stickers_spec (Z.to_nat (stickerCount (random_calls j)))
              (sticker_src img) (sticker_y img) (S (random_calls j)) (ctx j))
    as (more & Heq & Hlen & Hall).
  rewrite Heq. cbn [job_env canvas_width canvas_height loadedCount photo_loaded
                    stickerImgs downloads ctx cur painted].
  repeat (split; [reflexivity|]).
  exists more. split; [reflexivity|]. split; [|exact Hall].
  rewrite Hlen. destruct (stickerCount_range (random_calls j)) as [->| ->]; auto.
Qed.

(** ** Lists of flags *)

Lemma length_set_nth {A} (i : nat) (x : A) l :
  List.length (set_nth i x l) = List.length l.
Proof.
  revert i. induction l as [|a l IH]; intros [|i]; cbn; auto.
Qed.

Lemma nth_error_set_nth_eq {A} (i : nat) (x y : A) l :
  nth_error l i = Some y -> nth_error (set_nth i x l) i = Some x.
Proof.
  revert i. induction l as [|a l IH]; intros [|i]; cbn; auto; discriminate.
Qed.

Lemma nth_error_set_nth_neq {A} (i k : nat) (x : A) l :
  i <> k -> nth_error (set_nth i x l) k = nth_error l k.
Proof.
  revert i k. induction l as [|a l IH]; intros [|i] [|k] H; cbn; auto.
  congruence.
Qed.

Lemma count_loaded_set_nth i l :
  nth_error l i = Some false ->
  count_loaded (set_nth i true l) = S (count_loaded l).
Proof.
  unfold count_loaded. revert i.
  induction l as [|a l IH]; intros [|i] H; cbn in *; try discriminate.
  - now injection H as ->.
  - destruct a; cbn; now rewrite IH.
Qed.

Lemma count_loaded_le l : (count_loaded l <= List.length l)%nat.
Proof. unfold count_loaded. apply filter_length_le. Qed.

Lemma count_loaded_all l i :
  count_loaded l = List.length l -> (i < List.length l)%nat ->
  nth_error l i = Some true.
Proof.
  unfold count_loaded. revert i.
  induction l as [|a l IH]; intros i Hc Hi; cbn in *; [lia|].
  destruct a; cbn in Hc.
  - destruct i as [|i]; [reflexivity|]. apply IH; lia.
  - pose proof (filter_length_le (fun b : bool => b) l). lia.
Qed.

Lemma count_loaded_map_false {A} (l : list A) :
  count_loaded (map (fun _ => false) l) = 0%nat.
Proof. unfold count_loaded. induction l; cbn; auto. Qed.

(** ** The canvas of a new job *)

Lemma adds_refl P c : adds P c c.
Proof. split; [reflexivity|]. exists []. now rewrite app_nil_r. Qed.

Lemma adds_trans P c1 c2 c3 : adds P c1 c2 -> adds P c2 c3 -> adds P c1 c3.
Proof.
  intros [Hx (m & Hm & Hf)] [Hx' (m' & Hm' & Hf')]. split; [congruence|].
  exists (m ++ m')%list. rewrite Hm', Hm, app_assoc. split; [reflexivity|].
  apply Forall_app. now split.
Qed.

Lemma adds_quiet P c c' :
  ds_xform (cur c') = ds_xform (cur c) -> painted c' = painted c -> adds P c c'.
Proof. intros Hx Hp. split; [exact Hx|]. exists []. now rewrite app_nil_r. Qed.

Lemma adds_paint (P : Painted -> Prop) sh c :
  P {| shape := sh; state := cur c |} -> adds P c (paint sh c).
Proof.
  intros H. split; [reflexivity|]. exists [ {| shape := sh; state := cur c |} ].
  split; [reflexivity|]. now constructor.
Qed.

Lemma adds_set_fillStyle P v c : adds P c (set_fillStyle v c).
Proof. apply adds_quiet; [apply xform_set_fillStyle | apply painted_set_fillStyle]. Qed.

Lemma adds_set_strokeStyle P v c : adds P c (set_strokeStyle v c).
Proof.
  apply adds_quiet; unfold set_strokeStyle; now destruct css_valid.
Qed.

Lemma adds_set_lineWidth P v c : adds P c (set_lineWidth v c).
Proof.
  apply adds_quiet; unfold set_lineWidth; now destruct (0 <? v).
Qed.

Lemma adds_set_font P v c : adds P c (set_font v c).
Proof. apply adds_quiet; [apply xform_set_font | apply painted_set_font]. Qed.

Lemma adds_set_textAlign P v c : adds P c (set_textAlign v c).
Proof. apply adds_quiet; [apply xform_set_textAlign | apply painted_set_textAlign]. Qed.

(** Between [save] and [restore]: the stack is kept, shapes are added. *)

Lemma within_refl P c : within P c c.
Proof. split; [reflexivity|]. exists []. now rewrite app_nil_r. Qed.

Lemma within_trans P c1 c2 c3 : within P c1 c2 -> within P c2 c3 -> within P c1 c3.
Proof.
  intros [Hx (m & Hm & Hf)] [Hx' (m' & Hm' & Hf')]. split; [congruence|].
  exists (m ++ m')%list. rewrite Hm', Hm, app_assoc. split; [reflexivity|].
  apply Forall_app. now split.
Qed.

Lemma within_quiet P c c' :
  saved c' = saved c -> painted c' = painted c -> within P c c'.
Proof. intros Hx Hp. split; [exact Hx|]. exists []. now rewrite app_nil_r. Qed.

Lemma within_set_fillStyle P v c : within P c (set_fillStyle v c).
Proof. apply within_quiet; [apply saved_set_fillStyle | apply painted_set_fillStyle]. Qed.

Lemma within_transform P x c : within P c (transform x c).
Proof. now apply within_quiet. Qed.

Lemma within_beginPath P c : within P c (beginPath c).
Proof. now apply within_quiet. Qed.

Lemma within_add_seg P sg c : within P c (add_seg sg c).
Proof. now apply within_quiet. Qed.

Lemma within_fill (P : Painted -> Prop) c :
  (forall d pth, P {| shape := FillPath pth; state := d |}) -> within P c (fill c).
Proof.
  intros H. split; [reflexivity|]. eexists [ _ ].
  split; [reflexivity|]. constructor; [apply H|constructor].
Qed.

Lemma block_adds P c c1 : within P (save c) c1 -> adds P c (restore c1).
Proof.
  intros [Hs (more & Hp & Hf)]. cbn [save saved painted] in Hs, Hp.
  unfold restore. rewrite Hs. split; [reflexivity|].
  exists more. cbn [painted]. now split.
Qed.

Ltac within_steps :=
  repeat first
    [ match goal with |- within _ ?a ?a => apply within_refl end
    | eapply within_trans;
      [| first [ apply within_set_fillStyle | apply within_transform
               | apply within_beginPath | apply within_add_seg
               | apply within_fill; intros; exact I ] ] ].

Lemma adds_drawButterfly x y c : adds backdrop c (drawButterfly x y c).
Proof.
  unfold drawButterfly. apply block_adds.
  unfold translate, ellipse. within_steps.
Qed.

Lemma adds_drawHeart i c : adds backdrop c (drawHeart i c).
Proof.
  unfold drawHeart. apply block_adds.
  unfold translate, rotate, moveTo, bezierCurveTo. within_steps.
Qed.

Lemma adds_hearts l c :
  adds backdrop c (fold_left (fun c i => drawHeart (Z.of_nat i) c) l c).
Proof.
  revert c. induction l as [|i l IH]; intros c; cbn [fold_left].
  - apply adds_refl.
  - eapply adds_trans; [apply adds_drawHeart | apply IH].
Qed.

Ltac adds_steps :=
  repeat first
    [ match goal with |- adds _ ?a ?a => apply adds_refl end
    | eapply adds_trans;
      [| first [ apply adds_set_fillStyle | apply adds_set_strokeStyle
               | apply adds_set_lineWidth | apply adds_set_font
               | apply adds_set_textAlign | apply adds_drawButterfly
               | apply adds_hearts
               | apply adds_paint; exact I
               | apply adds_paint; reflexivity ] ] ].

Lemma adds_paint_background s color w h c :
  adds backdrop c (paint_background s color w h c).
Proof.
  unfold paint_background, fillRect, strokeRect.
  destruct (s =? "strip-cartoon")%string; [adds_steps|].
  destruct (s =? "strip-flower")%string; [adds_steps|].
  destruct (s =? "strip-heart")%string; [adds_steps|].
  destruct (s =? "strip-custom")%string; adds_steps.
Qed.

Lemma adds_draw_header c : adds backdrop c (draw_header c).
Proof. unfold draw_header, fillText. adds_steps. Qed.

Lemma new_job_spec env style color j :
  downloadPhotoStrip env style color true = Some j ->
  (1 <= List.length (items (dl_capturedPhotos env)))%nat
  /\ job_env j = env
  /\ canvas_width j = stripWidth
  /\ canvas_height j = stripHeight (Z.of_nat (List.length (items (dl_capturedPhotos env))))
  /\ loadedCount j = 0
  /\ photo_loaded j = map (fun _ => false) (items (dl_capturedPhotos env))
  /\ stickerImgs j = []
  /\ downloads j = []
  /\ adds backdrop new_ctx (ctx j).
Proof.
  unfold downloadPhotoStrip.
  destruct (List.length (items (dl_capturedPhotos env)) =? 0)%nat eqn:Hn;
    [discriminate|].
  apply Nat.eqb_neq in Hn. cbn [negb]. intros [= <-].
  cbn [job_env canvas_width canvas_height loadedCount photo_loaded stickerImgs
       downloads ctx].
  split; [lia|]. repeat (split; [reflexivity|]).
  eapply adds_trans; [apply adds_paint_background | apply adds_draw_header].
Qed.

(** ** Slots and stickers *)

Lemma slot_y_inj a b : slot_y a = slot_y b -> a = b.
Proof.
  unfold slot_y.
  change (photoHeight + previewPhotoGap) with 310. lia.
Qed.

Lemma stickers_in_slot_app i l m :
  stickers_in_slot i (l ++ m) = (stickers_in_slot i l + stickers_in_slot i m)%nat.
Proof. unfold stickers_in_slot. now rewrite filter_app, length_app. Qed.

Lemma stickers_in_slot_none i m :
  Forall (fun p => in_slot i p = false) m -> stickers_in_slot i m = 0%nat.
Proof.
  unfold stickers_in_slot. induction 1 as [|p m Hp _ IH]; cbn; [reflexivity|].
  now rewrite Hp.
Qed.

Lemma stickers_in_slot_all i m :
  Forall (fun p => in_slot i p = true) m -> stickers_in_slot i m = List.length m.
Proof.
  unfold stickers_in_slot. induction 1 as [|p m Hp _ IH]; cbn; [reflexivity|].
  rewrite Hp. cbn. now rewrite IH.
Qed.

Lemma backdrop_no_slot i p : backdrop p -> in_slot i p = false.
Proof.
  unfold backdrop, in_slot, sticker_slot. now destruct (shape p).
Qed.

Lemma new_sticker_eq theme y :
  new_sticker theme y =
    match theme_first_image theme with
    | Some src => [ {| sticker_src := src; sticker_y := y; sticker_loaded := false |} ]
    | None => []
    end.
Proof.
  unfold new_sticker, theme_first_image.
  destruct (negb (theme =? "none")%string); [|reflexivity].
  destruct (find _ STICKER_THEMES) as [t|]; [|reflexivity].
  now destruct (images t).
Qed.

Lemma In_set_nth {A} (k : nat) (x y : A) l :
  In x (set_nth k y l) -> x = y \/ In x l.
Proof.
  revert k. induction l as [|a l IH]; intros [|k]; cbn; auto.
  - intros [<-|H]; auto.
  - intros [<-|H]; auto. destruct (IH _ H); auto.
Qed.

Lemma set_nth_In {A} (k : nat) (a y : A) l :
  nth_error l k = Some a -> In y (set_nth k y l).
Proof.
  revert k. induction l as [|b l IH]; intros [|k]; cbn; try discriminate; auto.
Qed.

Lemma map_set_nth_same {A B} (f : A -> B) (k : nat) (a b : A) l :
  nth_error l k = Some a -> f b = f a -> map f (set_nth k b l) = map f l.
Proof.
  revert k. induction l as [|c l IH]; intros [|k]; cbn; try discriminate.
  - intros [= ->] ->. reflexivity.
  - intros H E. now rewrite (IH _ H E).
Qed.

Lemma existsb_set_nth_same {A} (f : A -> bool) (k : nat) (a b : A) l :
  nth_error l k = Some a -> f b = f a -> existsb f (set_nth k b l) = existsb f l.
Proof.
  revert k. induction l as [|c l IH]; intros [|k]; cbn; try discriminate.
  - intros [= ->] ->. reflexivity.
  - intros H E. now rewrite (IH _ H E).
Qed.

Lemma NoDup_map_nth {A B} (f : A -> B) l (k : nat) (a b : A) :
  NoDup (map f l) -> nth_error l k = Some a -> In b l -> f b = f a -> b = a.
Proof.
  intros Hnd Hk Hin Hf.
  destruct (In_nth_error _ _ Hin) as [k' Hk'].
  assert (k' = k).
  { rewrite NoDup_nth_error in Hnd. apply Hnd.
    - rewrite length_map. apply nth_error_Some. congruence.
    - rewrite !nth_error_map, Hk, Hk'. cbn. now rewrite Hf. }
  subst k'. congruence.
Qed.

Lemma flag_false_count l i :
  nth_error l i = Some false -> (count_loaded l < List.length l)%nat.
Proof.
  intros H. pose proof (count_loaded_le l) as Hle.
  destruct (Nat.eq_dec (count_loaded l) (List.length l)) as [E|]; [|lia].
  assert (Hi : (i < List.length l)%nat) by (apply nth_error_Some; congruence).
  rewrite (count_loaded_all l i E Hi) in H. discriminate.
Qed.

Lemma existsb_false_app {A} (f : A -> bool) l m :
  existsb f m = false -> existsb f (l ++ m) = existsb f l.
Proof. intros H. now rewrite existsb_app, H, orb_false_r. Qed.

Lemma download_triggered_false j : downloads j = [] -> download_triggered j = false.
Proof. unfold download_triggered. now intros ->. Qed.

(** ** The invariant of a job *)

Lemma dateY_not_header n : 1 <= n -> dateY n <> 40.
Proof. unfold dateY, previewPaddingTop, photoHeight, previewPhotoGap, previewDatePadding. lia. Qed.

Lemma backdrop_no_label n p : 1 <= n -> backdrop p -> is_label n p = false.
Proof.
  intros Hn. unfold backdrop, is_label. destruct (shape p); auto.
  intros ->. apply Z.eqb_neq. intros E. now apply (dateY_not_header n).
Qed.

Lemma existsb_Forall_false {A} (f : A -> bool) l :
  Forall (fun x => f x = false) l -> existsb f l = false.
Proof. induction 1 as [|x l Hx _ IH]; cbn; [reflexivity|]. now rewrite Hx. Qed.

Lemma existsb_Forall_false_iff {A} (f : A -> bool) l :
  existsb f l = false <-> Forall (fun x => f x = false) l.
Proof.
  split; [|apply existsb_Forall_false].
  induction l as [|x l IH]; cbn; [constructor|].
  intros H. apply orb_false_iff in H. destruct H. constructor; auto.
Qed.

Lemma new_job_inv env style color j :
  downloadPhotoStrip env style color true = Some j -> job_inv j.
Proof.
  intros H. apply new_job_spec in H.
  destruct H as (Hn & He & _ & _ & Hc & Hf & Hs & Hd & Hx & more & Hp & Hb).
  cbn [new_ctx painted app cur] in Hp, Hx.
  assert (Hnum : numPhotos j = Z.of_nat (List.length (items (dl_capturedPhotos env))))
    by (unfold numPhotos; now rewrite He).
  constructor.
  - now rewrite He.
  - now rewrite Hf, He, length_map.
  - now rewrite Hc, Hf, count_loaded_map_false.
  - rewrite (download_triggered_false j Hd), Hc, Hnum. split; [discriminate|lia].
  - unfold label_drawn. rewrite Hp, existsb_Forall_false.
    + rewrite Hc, Hnum. split; [discriminate|lia].
    + eapply Forall_impl; [|exact Hb]. intros p. apply backdrop_no_label. lia.
  - exact Hx.
  - rewrite Hs. intros img [].
  - rewrite Hs. constructor.
  - intros idx. unfold sticker_has_loaded. rewrite Hs. cbn [existsb].
    rewrite Hp. apply stickers_in_slot_none.
    eapply Forall_impl; [|exact Hb]. intros p. apply backdrop_no_slot.
  - intros p url x y w h Hin Hsh. rewrite Hp in Hin.
    rewrite Forall_forall in Hb. specialize (Hb p Hin).
    unfold backdrop in Hb. now rewrite Hsh in Hb.
  - intros p Hin Hl. rewrite Hp in Hin.
    rewrite Forall_forall in Hb. specialize (Hb p Hin).
    rewrite backdrop_no_label in Hl; [discriminate|rewrite Hnum; lia|exact Hb].
Qed.

Lemma photo_has_loaded_mark j j' index idx :
  photo_loaded j' = set_nth index true (photo_loaded j) ->
  nth_error (photo_loaded j) index = Some false ->
  photo_has_loaded j' idx = ((idx =? index)%nat || photo_has_loaded j idx)%bool.
Proof.
  intros E H. unfold photo_has_loaded. rewrite E.
  destruct (Nat.eqb_spec idx index) as [->|Hne].
  - now rewrite (nth_error_set_nth_eq index true false _ H).
  - rewrite nth_error_set_nth_neq by congruence. reflexivity.
Qed.

(** A photo whose image loads: the invariant is kept. *)
Lemma photo_event_inv j index photo now :
  job_inv j ->
  nth_error (items (dl_capturedPhotos (job_env j))) index = Some photo ->
  nth_error (photo_loaded j) index = Some false ->
  job_inv (photo_onload index photo now (mark_photo index j)).
Proof.
  intros [Hsome Hflags Hcount Hdl Hlab Hxf Hst Hnd Hslots Hsrc Htxt] Hphoto Hflag.
  pose proof (photo_onload_spec index photo now (mark_photo index j)) as S.
  cbv zeta in S.
  set (j' := photo_onload index photo now (mark_photo index j)) in *.
  destruct S as (Senv & _ & _ & Scount & Sflags & _ & Sst & Sxf & _ &
                 d & d' & _ & _ & Spaint & Sdl).
  change (job_env (mark_photo index j)) with (job_env j) in *.
  change (loadedCount (mark_photo index j)) with (loadedCount j) in *.
  change (numPhotos (mark_photo index j)) with (numPhotos j) in *.
  change (ctx (mark_photo index j)) with (ctx j) in *.
  change (stickerImgs (mark_photo index j)) with (stickerImgs j) in *.
  change (downloads (mark_photo index j)) with (downloads j) in *.
  change (photo_loaded (mark_photo index j))
    with (set_nth index true (photo_loaded j)) in *.
  assert (Hnum : numPhotos j' = numPhotos j) by (unfold numPhotos; now rewrite Senv).
  pose proof (flag_false_count _ _ Hflag) as Hlt.
  assert (Hbefore : loadedCount j <> numPhotos j).
  { rewrite Hcount. unfold numPhotos. rewrite <- Hflags. lia. }
  assert (Hnodl : downloads j = []).
  { destruct (downloads j) eqn:E; [reflexivity|].
    exfalso. apply Hbefore, Hdl. unfold download_triggered. now rewrite E. }
  assert (Hnolab : existsb (is_label (numPhotos j)) (painted (ctx j)) = false).
  { destruct (existsb _ _) eqn:E; [|reflexivity].
    exfalso. apply Hbefore, Hlab. exact E. }
  constructor.
  - now rewrite Senv.
  - now rewrite Sflags, Senv, length_set_nth.
  - rewrite Scount, Sflags, count_loaded_set_nth by exact Hflag. lia.
  - rewrite Hnum, Scount. unfold download_triggered. rewrite Sdl, Hnodl.
    destruct (Z.eqb_spec (loadedCount j + 1) (numPhotos j)); cbn [app];
      split; intros; try discriminate; try reflexivity; try assumption; contradiction.
  - rewrite Hnum, Scount. unfold label_drawn. rewrite Hnum, Spaint, existsb_app, Hnolab.
    destruct (Z.eqb_spec (loadedCount j + 1) (numPhotos j)); cbn;
      rewrite ?Z.eqb_refl; cbn;
      split; intros; try discriminate; try reflexivity; try assumption; contradiction.
  - now rewrite Sxf.
  - intros img Hin. rewrite Sst in Hin. apply in_app_or in Hin.
    rewrite Senv.
    destruct Hin as [Hin|Hin].
    + destruct (Hst img Hin) as (idx & Hy & Hl & Hth).
      exists idx. rewrite (photo_has_loaded_mark j j' index idx Sflags Hflag).
      rewrite Hl, orb_true_r. auto.
    + rewrite new_sticker_eq in Hin.
      destruct (theme_first_image _) as [src|] eqn:Eth; [|destruct Hin].
      destruct Hin as [<-|[]]. exists index.
      rewrite (photo_has_loaded_mark j j' index index Sflags Hflag).
      rewrite Nat.eqb_refl. cbn. auto.
  - rewrite Sst, map_app, new_sticker_eq.
    destruct (theme_first_image _) as [src|]; cbn [map]; [|now rewrite app_nil_r].
    apply NoDup_app; [exact Hnd | repeat constructor; intros [] |].
    intros y Hy [<-|[]]. apply in_map_iff in Hy. destruct Hy as (img & Ey & Hin).
    destruct (Hst img Hin) as (idx & Hy' & Hl & _).
    cbn [sticker_y] in Ey.
    assert (idx = index) by (apply slot_y_inj; congruence). subst idx.
    unfold photo_has_loaded in Hl. rewrite Hflag in Hl. discriminate.
  - intros idx. cbv zeta.
    assert (E1 : sticker_has_loaded j' (slot_y idx) = sticker_has_loaded j (slot_y idx)).
    { unfold sticker_has_loaded. rewrite Sst. apply existsb_false_app.
      rewrite new_sticker_eq. destruct (theme_first_image _); [|reflexivity].
      cbn. now rewrite andb_false_r. }
    assert (E2 : stickers_in_slot (Z.of_nat idx) (painted (ctx j')) =
                 stickers_in_slot (Z.of_nat idx) (painted (ctx j))).
    { rewrite Spaint, stickers_in_slot_app.
      rewrite (stickers_in_slot_none _ (_ :: _)); [lia|].
      constructor; [reflexivity|]. destruct (_ =? _); repeat constructor. }
    rewrite E1, E2. apply Hslots.
  - intros p url x y w h Hin Hsh. rewrite Senv. rewrite Spaint in Hin.
    apply in_app_or in Hin. destruct Hin as [Hin|[<-|Hin]].
    + eapply Hsrc; eauto.
    + discriminate Hsh.
    + destruct (_ =? _); [|destruct Hin]. destruct Hin as [<-|[]]. discriminate Hsh.
  - intros p Hin Hl. rewrite Hnum in *. rewrite Senv. rewrite Spaint in Hin.
    apply in_app_or in Hin. destruct Hin as [Hin|[<-|Hin]].
    + exfalso. rewrite existsb_Forall_false_iff in Hnolab.
      rewrite Forall_forall in Hnolab. rewrite (Hnolab p Hin) in Hl. discriminate.
    + discriminate Hl.
    + destruct (_ =? _); [|destruct Hin]. destruct Hin as [<-|[]]. reflexivity.
Qed.

Lemma sticker_op_no_label n src y base p : sticker_op src y base p -> is_label n p = false.
Proof. intros (ux & uy & ua & Hs & _). unfold is_label. now rewrite Hs. Qed.

(** A sticker image that loads: the invariant is kept. *)
Lemma sticker_event_inv j k img :
  job_inv j ->
  nth_error (stickerImgs j) k = Some img ->
  sticker_loaded img = false ->
  job_inv (sticker_onload img (mark_sticker k img j)).
Proof.
  intros [Hsome Hflags Hcount Hdl Hlab Hxf Hst Hnd Hslots Hsrc Htxt] Hk Hpending.
  pose proof (sticker_onload_spec img (mark_sticker k img j)) as S.
  cbv zeta in S.
  set (j' := sticker_onload img (mark_sticker k img j)) in *.
  destruct S as (Senv & _ & _ & Scount & Sflags & Sst & Sdl & Scur &
                 more & Spaint & Slen & Sall).
  change (job_env (mark_sticker k img j)) with (job_env j) in *.
  change (loadedCount (mark_sticker k img j)) with (loadedCount j) in *.
  change (ctx (mark_sticker k img j)) with (ctx j) in *.
  change (photo_loaded (mark_sticker k img j)) with (photo_loaded j) in *.
  change (downloads (mark_sticker k img j)) with (downloads j) in *.
  cbn [mark_sticker stickerImgs] in Sst.
  set (img' := {| sticker_src := sticker_src img; sticker_y := sticker_y img;
                  sticker_loaded := true |}) in *.
  rewrite Hxf in Sall.
  assert (Hnum : numPhotos j' = numPhotos j) by (unfold numPhotos; now rewrite Senv).
  assert (Hin : In img (stickerImgs j)) by (eapply nth_error_In; eauto).
  destruct (Hst img Hin) as (idx0 & Hy0 & Hl0 & Hth0).
  rewrite Hy0 in Sall.
  assert (Hloaded : forall idx, photo_has_loaded j' idx = photo_has_loaded j idx).
  { intros idx. unfold photo_has_loaded. now rewrite Sflags. }
  constructor.
  - now rewrite Senv.
  - now rewrite Sflags, Senv.
  - now rewrite Scount, Sflags.
  - rewrite Hnum, Scount. unfold download_triggered. rewrite Sdl. exact Hdl.
  - rewrite Hnum, Scount. unfold label_drawn. rewrite Hnum, Spaint.
    rewrite existsb_false_app; [exact Hlab|].
    apply existsb_Forall_false. eapply Forall_impl; [|exact Sall].
    intros p. apply sticker_op_no_label.
  - now rewrite Scur.
  - intros i Hi. rewrite Sst in Hi. rewrite Senv.
    apply In_set_nth in Hi. destruct Hi as [->|Hi].
    + exists idx0. rewrite Hloaded. cbn [img' sticker_y sticker_src]. auto.
    + destruct (Hst i Hi) as (idx & A & B & C). exists idx. rewrite Hloaded. auto.
  - rewrite Sst. now rewrite (map_set_nth_same sticker_y k img img' _ Hk eq_refl).
  - intros idx. cbv zeta. rewrite Spaint, stickers_in_slot_app.
    specialize (Hslots idx). cbv zeta in Hslots.
    destruct (Nat.eq_dec idx idx0) as [->|Hne].
    + assert (Hwas : sticker_has_loaded j (slot_y idx0) = false).
      { unfold sticker_has_loaded. apply existsb_Forall_false, Forall_forall.
        intros b Hb. destruct (Z.eqb_spec (sticker_y b) (slot_y idx0)) as [E|];
          [|reflexivity].
        assert (b = img) by (eapply (NoDup_map_nth sticker_y); eauto; congruence).
        subst b. now rewrite Hpending. }
      rewrite Hwas in Hslots. rewrite Hslots.
      assert (Hnow : sticker_has_loaded j' (slot_y idx0) = true).
      { unfold sticker_has_loaded. rewrite Sst. apply existsb_exists.
        exists img'. split; [eapply set_nth_In; eauto|].
        cbn [img' sticker_y sticker_loaded]. now rewrite Hy0, Z.eqb_refl. }
      rewrite Hnow. rewrite stickers_in_slot_all.
      * cbn [Nat.add]. exact Slen.
      * eapply Forall_impl; [|exact Sall]. intros p Hp.
        unfold in_slot. rewrite (sticker_op_slot _ _ _ Hp). apply Z.eqb_refl.
    + assert (Hsame : sticker_has_loaded j' (slot_y idx) = sticker_has_loaded j (slot_y idx)).
      { unfold sticker_has_loaded. rewrite Sst.
        apply (existsb_set_nth_same _ k img img' _ Hk).
        cbn [img' sticker_y sticker_loaded]. rewrite Hy0.
        destruct (Z.eqb_spec (slot_y idx0) (slot_y idx)) as [E|]; [|reflexivity].
        apply slot_y_inj in E. congruence. }
      rewrite Hsame. rewrite (stickers_in_slot_none _ more).
      * rewrite Nat.add_0_r. exact Hslots.
      * eapply Forall_impl; [|exact Sall]. intros p Hp.
        unfold in_slot. rewrite (sticker_op_slot _ _ _ Hp).
        apply Z.eqb_neq. lia.
  - intros p url x y w h Hp Hsh. rewrite Senv. rewrite Spaint in Hp.
    apply in_app_or in Hp. destruct Hp as [Hp|Hp]; [eapply Hsrc; eauto|].
    rewrite Forall_forall in Sall. destruct (Sall p Hp) as (ux & uy & ua & Hs & _).
    rewrite Hs in Hsh. injection Hsh as <- _ _ _ _. exact Hth0.
  - intros p Hp Hl. rewrite Hnum in *. rewrite Senv. rewrite Spaint in Hp.
    apply in_app_or in Hp. destruct Hp as [Hp|Hp]; [now apply Htxt|].
    rewrite Forall_forall in Sall.
    rewrite (sticker_op_no_label _ _ _ _ _ (Sall p Hp)) in Hl. discriminate.
Qed.

Lemma job_step_inv j e : job_inv j -> job_inv (job_step j e).
Proof.
  intros H. destruct e as [index now|k]; cbn [job_step].
  - destruct (nth_error (items _) index) as [photo|] eqn:Hp; [|exact H].
    destruct (nth_error (photo_loaded j) index) as [[|]|] eqn:Hf; try exact H.
    now apply photo_event_inv.
  - destruct (nth_error (stickerImgs j) k) as [img|] eqn:Hk; [|exact H].
    destruct (sticker_loaded img) eqn:Hl; [exact H|].
    now apply sticker_event_inv.
Qed.

Lemma job_run_snoc j es e : job_run j (es ++ [e]) = job_step (job_run j es) e.
Proof. unfold job_run. now rewrite fold_left_app. Qed.

Lemma job_run_inv j es : job_inv j -> job_inv (job_run j es).
Proof.
  intros H. induction es as [|e es IH] using rev_ind; [exact H|].
  rewrite job_run_snoc. now apply job_step_inv.
Qed.

(** What a step keeps of a job. *)
Lemma job_step_env j e :
  job_env (job_step j e) = job_env j
  /\ canvas_width (job_step j e) = canvas_width j
  /\ canvas_height (job_step j e) = canvas_height j.
Proof.
  destruct e as [index now|k]; cbn [job_step].
  - destruct (nth_error (items _) index) as [photo|]; [|auto].
    destruct (nth_error (photo_loaded j) index) as [[|]|]; auto.
    destruct (photo_onload_spec index photo now (mark_photo index j))
      as (E & W & H & _). auto.
  - destruct (nth_error (stickerImgs j) k) as [img|]; [|auto].
    destruct (sticker_loaded img); [auto|].
    destruct (sticker_onload_spec img (mark_sticker k img j)) as (E & W & H & _).
    auto.
Qed.

Lemma job_run_env j es :
  job_env (job_run j es) = job_env j
  /\ canvas_width (job_run j es) = canvas_width j
  /\ canvas_height (job_run j es) = canvas_height j.
Proof.
  induction es as [|e es IH] using rev_ind; [auto|].
  rewrite job_run_snoc. destruct (job_step_env (job_run j es) e) as (A & B & C).
  destruct IH as (A' & B' & C'). repeat split; congruence.
Qed.

(** The image of a photo has loaded exactly when its load is among the
    events. *)
Lemma photo_loaded_iff env style color j0 es i :
  downloadPhotoStrip env style color true = Some j0 ->
  photo_has_loaded (job_run j0 es) i =
    ((i <? List.length (items (dl_capturedPhotos env)))%nat && photo_load_in i es)%bool.
Proof.
  intros Hnew. pose proof (new_job_inv _ _ _ _ Hnew) as Hinv0.
  destruct (new_job_spec _ _ _ _ Hnew) as (_ & He & _ & _ & _ & Hf & _).
  induction es as [|e es IH] using rev_ind.
  - cbn. rewrite andb_false_r. unfold photo_has_loaded. rewrite Hf.
    rewrite nth_error_map. now destruct (nth_error _ i).
  - rewrite job_run_snoc. unfold photo_load_in. rewrite existsb_app. cbn [existsb].
    fold (photo_load_in i es). rewrite orb_false_r.
    pose proof (job_run_inv j0 es Hinv0) as Hinv.
    destruct (job_run_env j0 es) as (Eenv & _).
    set (j := job_run j0 es) in *.
    destruct e as [index now|k]; cbn [job_step].
    + destruct (nth_error (items _) index) as [photo|] eqn:Hp.
      * destruct (nth_error (photo_loaded j) index) as [[|]|] eqn:Hfl.
        -- rewrite IH. destruct (Nat.eqb_spec index i) as [->|]; [|now rewrite orb_false_r].
           unfold photo_has_loaded in IH. rewrite Hfl in IH.
           symmetry in IH. apply andb_true_iff in IH. destruct IH as [-> ->].
           reflexivity.
        -- destruct (photo_onload_spec index photo now (mark_photo index j))
             as (_ & _ & _ & _ & Sflags & _).
           rewrite (photo_has_loaded_mark j _ index i Sflags Hfl), IH.
           rewrite Nat.eqb_sym.
           destruct (Nat.eqb_spec index i) as [->|]; [|now rewrite orb_false_r].
           cbn [orb]. rewrite orb_true_r.
           assert (Hi : (i < List.length (items (dl_capturedPhotos env)))%nat).
           { rewrite <- He, <- Eenv. apply nth_error_Some. congruence. }
           apply Nat.ltb_lt in Hi. now rewrite Hi.
        -- exfalso. apply nth_error_None in Hfl.
           assert (index < List.length (items (dl_capturedPhotos (job_env j))))%nat
             by (apply nth_error_Some; congruence).
           rewrite (inv_flags j Hinv) in Hfl. lia.
      * rewrite IH. destruct (Nat.eqb_spec index i) as [->|]; [|now rewrite orb_false_r].
        apply nth_error_None in Hp. rewrite Eenv, He in Hp.
        apply Nat.ltb_ge in Hp. now rewrite Hp.
    + rewrite orb_false_r.
      destruct (nth_error (stickerImgs j) k) as [img|]; [|exact IH].
      destruct (sticker_loaded img); [exact IH|].
      destruct (sticker_onload_spec img (mark_sticker k img j))
        as (_ & _ & _ & _ & Sflags & _).
      unfold photo_has_loaded. rewrite Sflags. exact IH.
Qed.

Lemma count_loaded_full l :
  (forall i, (i < List.length l)%nat -> nth_error l i = Some true) ->
  count_loaded l = List.length l.
Proof.
  unfold count_loaded. induction l as [|a l IH]; intros H; [reflexivity|].
  pose proof (H 0%nat ltac:(cbn; lia)) as H0. cbn in H0. injection H0 as ->.
  cbn. f_equal. apply IH. intros i Hi. apply (H (S i)). cbn. lia.
Qed.

(** The count has reached the number of photos exactly when every flag
    is set. *)
Lemma all_loaded_iff j :
  job_inv j ->
  loadedCount j = numPhotos j <->
  (forall i, (i < List.length (items (dl_capturedPhotos (job_env j))))%nat ->
             photo_has_loaded j i = true).
Proof.
  intros H. rewrite (inv_count j H). unfold numPhotos. rewrite <- (inv_flags j H).
  unfold photo_has_loaded. split.
  - intros E i Hi. rewrite (count_loaded_all (photo_loaded j) i); [reflexivity|lia|exact Hi].
  - intros Hall. f_equal. apply count_loaded_full. intros i Hi.
    specialize (Hall i Hi). destruct (nth_error (photo_loaded j) i) as [[|]|] eqn:E;
      try discriminate. reflexivity.
Qed.

(** A step paints photos, stickers and the label, after what is there. *)
Lemma job_step_painted j e :
  exists more,
    painted (ctx (job_step j e)) = (painted (ctx j) ++ more)%list
    /\ Forall (fun p => match shape p with
                        | DrawImage _ _ _ _ _ | FillText _ _ _ => True
                        | _ => False
                        end) more.
Proof.
  destruct e as [index now|k]; cbn [job_step].
  - destruct (nth_error (items _) index) as [photo|];
      [|exists []; now rewrite app_nil_r].
    destruct (nth_error (photo_loaded j) index) as [[|]|];
      try (exists []; now rewrite app_nil_r).
    destruct (photo_onload_spec index photo now (mark_photo index j))
      as (_ & _ & _ & _ & _ & _ & _ & _ & _ & d & d' & _ & _ & Hp & _).
    eexists. split; [exact Hp|].
    constructor; [exact I|]. destruct (_ =? _); repeat constructor.
  - destruct (nth_error (stickerImgs j) k) as [img|];
      [|exists []; now rewrite app_nil_r].
    destruct (sticker_loaded img); [exists []; now rewrite app_nil_r|].
    destruct (sticker_onload_spec img (mark_sticker k img j))
      as (_ & _ & _ & _ & _ & _ & _ & _ & more & Hp & _ & Hall).
    exists more. split; [exact Hp|].
    eapply Forall_impl; [|exact Hall].
    intros p (ux & uy & ua & Hs & _). now rewrite Hs.
Qed.

Lemma job_run_painted j es :
  exists more,
    painted (ctx (job_run j es)) = (painted (ctx j) ++ more)%list
    /\ Forall (fun p => match shape p with
                        | DrawImage _ _ _ _ _ | FillText _ _ _ => True
                        | _ => False
                        end) more.
Proof.
  induction es as [|e es IH] using rev_ind.
  - exists []. now rewrite app_nil_r.
  - rewrite job_run_snoc. destruct IH as (m & Hm & Hf).
    destruct (job_step_painted (job_run j es) e) as (m' & Hm' & Hf').
    exists (m ++ m')%list. rewrite Hm', Hm, app_assoc. split; [reflexivity|].
    apply Forall_app. now split.
Qed.

(** While only photos load, no sticker is painted and no sticker image
    has loaded. *)
Lemma photos_only j es :
  forallb is_photo_event es = true ->
  forallb (fun p => negb (is_sticker p)) (painted (ctx j)) = true ->
  Forall (fun img => sticker_loaded img = false) (stickerImgs j) ->
  forallb (fun p => negb (is_sticker p)) (painted (ctx (job_run j es))) = true
  /\ Forall (fun img => sticker_loaded img = false) (stickerImgs (job_run j es)).
Proof.
  intros Hes Hp0 Hs0. induction es as [|e es IH] using rev_ind; [auto|].
  rewrite forallb_app in Hes. apply andb_true_iff in Hes. destruct Hes as [Hes He].
  destruct (IH Hes) as [Hp Hs]. rewrite job_run_snoc.
  set (j1 := job_run j es) in *.
  destruct e as [index now|k]; [|discriminate]. cbn [job_step].
  destruct (nth_error (items _) index) as [photo|]; [|auto].
  destruct (nth_error (photo_loaded j1) index) as [[|]|]; auto.
  destruct (photo_onload_spec index photo now (mark_photo index j1))
    as (_ & _ & _ & _ & _ & _ & Sst & _ & _ & d & d' & _ & _ & Spaint & _).
  split.
  - rewrite Spaint, forallb_app. change (ctx (mark_photo index j1)) with (ctx j1).
    rewrite Hp. cbn. now destruct (_ =? _).
  - rewrite Sst. apply Forall_app. split; [exact Hs|].
    rewrite new_sticker_eq. destruct (theme_first_image _); repeat constructor.
Qed.

Lemma backdrop_no_sticker l :
  Forall backdrop l -> forallb (fun p => negb (is_sticker p)) l = true.
Proof.
  induction 1 as [|p l Hp _ IH]; [reflexivity|]. cbn. rewrite IH, andb_true_r.
  unfold backdrop in Hp. unfold is_sticker. now destruct (shape p).
Qed.

(** The header as it is painted. *)
Lemma draw_header_painted c :
  exists d,
    painted (draw_header c) =
      (painted c ++ [ {| shape := FillText "Captured by FotoJB" (stripWidth / 2) 40;
                         state := d |} ])%list.
Proof.
  unfold draw_header, fillText. eexists. rewrite painted_paint.
  now rewrite painted_set_textAlign, painted_set_fillStyle, painted_set_font.
Qed.

(** ** The capture sequence *)

Lemma keeps_trans c1 c2 c3 : keeps c1 c2 -> keeps c2 c3 -> keeps c1 c3.
Proof. intros [] []. constructor; congruence. Qed.

(** The shot and what follows it, up to the next [await]. *)
Lemma after_countdown_spec cl w i c :
  let c' := after_countdown cl w i c in
  keeps c c'
  /\ photos_step c c'
  /\ items (capturedPhotos (st c')) =
       (items (capturedPhotos (st c))
        ++ somes [capturePhoto (cap_activeFilter (st_capturePhoto cl)) w])%list
  /\ pending c' =
       (if i <? 2 then Some {| run_closure := cl; run_at := AwaitPause i |} else None)
  /\ isCapturing (st c') = (if i <? 2 then isCapturing (st c) else false).
Proof.
  unfold after_countdown.
  destruct (capturePhoto (cap_activeFilter (st_capturePhoto cl)) w) as [photo|];
    destruct (i <? 2); cbn;
    (split; [now constructor|]);
    (split; [first [now left | right; cbn; lia]|]);
    rewrite ?app_nil_r; auto.
Qed.

Lemma countdown_from_spec cl w i count c :
  let c' := countdown_from cl w i count c in
  keeps c c'
  /\ photos_step c c'
  /\ items (capturedPhotos (st c')) =
       (items (capturedPhotos (st c))
        ++ snapshots_of (cap_activeFilter (st_capturePhoto cl))
             (shot_in_countdown w count))%list
  /\ pending c' =
       (if 0 <? count then Some {| run_closure := cl; run_at := AwaitTick i count |}
        else if i <? 2 then Some {| run_closure := cl; run_at := AwaitPause i |}
        else None)
  /\ isCapturing (st c') =
       (if 0 <? count then isCapturing (st c)
        else if i <? 2 then isCapturing (st c) else false).
Proof.
  unfold countdown_from, shot_in_countdown, snapshots_of. destruct (0 <? count).
  - cbn. rewrite app_nil_r. split; [now constructor|]. split; [now left|]. auto.
  - apply after_countdown_spec.
Qed.

Lemma shot_loop_from_spec cl w i c :
  let c' := shot_loop_from cl w i c in
  keeps c c'
  /\ photos_step c c'
  /\ items (capturedPhotos (st c')) =
       (items (capturedPhotos (st c))
        ++ snapshots_of (cap_activeFilter (st_capturePhoto cl))
             (shot_in_loop cl w i))%list
  /\ pending c' =
       (if i <? 3 then
          if 0 <? st_countdownTime cl
          then Some {| run_closure := cl; run_at := AwaitTick i (st_countdownTime cl) |}
          else if i <? 2 then Some {| run_closure := cl; run_at := AwaitPause i |}
          else None
        else None)
  /\ isCapturing (st c') =
       (if i <? 3 then
          if 0 <? st_countdownTime cl then isCapturing (st c)
          else if i <? 2 then isCapturing (st c) else false
        else false).
Proof.
  unfold shot_loop_from, shot_in_loop. destruct (i <? 3);
    [|unfold snapshots_of].
  - destruct (countdown_from_spec cl w i (st_countdownTime cl) (setIsCountingDown true c))
      as (K & P & I & Pe & C).
    split; [|split; [|split; [|split]]].
    + eapply keeps_trans; [|exact K]. now constructor.
    + exact P.
    + exact I.
    + exact Pe.
    + exact C.
  - cbn. rewrite app_nil_r. split; [now constructor|]. split; [now left|]. auto.
Qed.

(** ** Renders *)

Lemma Filter_eqb_eq a b : Filter_eqb a b = true -> a = b.
Proof.
  unfold Filter_eqb. intros H. apply andb_true_iff in H. destruct H as [Hn Hc].
  apply String.eqb_eq in Hn. apply String.eqb_eq in Hc.
  destruct a, b. cbn in *. now subst.
Qed.

(** [capturePhoto] and [startPhotoSequence] list all they read among
    their dependencies: a render always hands out closures over the
    state it renders. *)
Lemma render_capture s prev :
  m_capturePhoto (render s prev) = {| cap_activeFilter := activeFilter s |}.
Proof.
  unfold render, useCallback. cbn [m_capturePhoto].
  destruct (capture_deps _ _) eqn:E; [|reflexivity].
  unfold capture_deps in E. cbn in E. apply Filter_eqb_eq in E.
  destruct (m_capturePhoto prev). cbn in E. now subst.
Qed.

Lemma render_start s prev :
  m_startPhotoSequence (render s prev) =
    {| st_isCapturing := isCapturing s; st_countdownTime := countdownTime s;
       st_capturePhoto := {| cap_activeFilter := activeFilter s |} |}.
Proof.
  pose proof (render_capture s prev) as Hc.
  unfold render in *. cbn [m_capturePhoto m_startPhotoSequence closures_of] in *.
  rewrite Hc. unfold useCallback at 1.
  destruct (start_deps _ _) eqn:E; [|reflexivity].
  unfold start_deps, capture_deps in E. cbn in E.
  apply andb_true_iff in E. destruct E as [E Eb].
  apply andb_true_iff in E. destruct E as [Ez Ef].
  apply Z.eqb_eq in Ez. apply Filter_eqb_eq in Ef. apply Bool.eqb_prop in Eb.
  destruct (m_startPhotoSequence prev) as [a b [f]]. cbn in *. now subst.
Qed.

(** [downloadPhotoStrip] is made again only when the array of photos or
    the style has changed. *)
Lemma render_download s prev :
  m_downloadPhotoStrip (render s prev) =
    if ((arr_id (dl_capturedPhotos (m_downloadPhotoStrip prev))
         =? arr_id (capturedPhotos s))%nat
        && (dl_selectedStripStyle (m_downloadPhotoStrip prev)
            =? selectedStripStyle s)%string)%bool
    then m_downloadPhotoStrip prev
    else {| dl_capturedPhotos := capturedPhotos s;
            dl_selectedStripStyle := selectedStripStyle s;
            dl_customColor := customColor s;
            dl_activeFilter := activeFilter s;
            dl_selectedStickerTheme := selectedStickerTheme s;
            dl_captureTime := captureTime s |}.
Proof. reflexivity. Qed.

Lemma same_state_fields a b :
  same_state a b = true ->
  captureTime a = captureTime b
  /\ selectedStripStyle a = selectedStripStyle b
  /\ activeFilter a = activeFilter b
  /\ countdownTime a = countdownTime b
  /\ arr_id (capturedPhotos a) = arr_id (capturedPhotos b)
  /\ isCapturing a = isCapturing b
  /\ selectedStickerTheme a = selectedStickerTheme b.
Proof.
  unfold same_state. intros H.
  repeat (apply andb_true_iff in H; destruct H as [H ?]).
  repeat match goal with
         | H : (_ =? _)%string = true |- _ => apply String.eqb_eq in H
         | H : (_ =? _) = true |- _ => apply Z.eqb_eq in H
         | H : (_ =? _)%nat = true |- _ => apply Nat.eqb_eq in H
         | H : Bool.eqb _ _ = true |- _ => apply Bool.eqb_prop in H
         | H : Filter_eqb _ _ = true |- _ => apply Filter_eqb_eq in H
         end.
  auto 10.
Qed.

Lemma st_step c e : st (step c e) = st (handle e c).
Proof. unfold step. now destruct (same_state _ _). Qed.

Lemma pending_step c e : pending (step c e) = pending (handle e c).
Proof. unfold step. now destruct (same_state _ _). Qed.

(** ** The invariant of the component *)

Lemma somes_length_le {A} (l : list (option A)) :
  (List.length (somes l) <= List.length l)%nat.
Proof.
  unfold somes. induction l as [|[a|] l IH]; cbn in *; lia.
Qed.

Lemma shot_in_countdown_length f w count :
  (List.length (snapshots_of f (shot_in_countdown w count)) <= 1)%nat.
Proof.
  unfold shot_in_countdown, snapshots_of. destruct (0 <? count); [cbn; lia|].
  apply (somes_length_le [_]).
Qed.

Lemma initial_inv : comp_inv initial.
Proof.
  constructor; cbn; auto; lia.
Qed.

(** What a handler or a continuation leaves of the invariant before the
    next render. *)
Lemma handle_inv c e :
  comp_inv c ->
  let c' := handle e c in
  match pending c' with
  | Some r =>
      isCapturing (st c') = true
      /\ await_ok (run_at r)
      /\ 1 <= st_countdownTime (run_closure r)
      /\ Z.of_nat (List.length (items (capturedPhotos (st c')))) <= shots_taken (run_at r)
  | None =>
      isCapturing (st c') = false
      /\ Z.of_nat (List.length (items (capturedPhotos (st c')))) <= 3
  end
  /\ memo c' = memo c
  /\ photos_step c c'
  /\ (capturedPhotos (st c') = capturedPhotos (st c) ->
      captureTime (st c') = captureTime (st c))
  /\ selectedStickerTheme (st c') = "none"
  /\ 1 <= countdownTime (st c').
Proof.
  intros [Hpend Hstart Hphotos Htime Hstyle [Hth1 Hth2] Hids Hcd] c'. subst c'.
  destruct e as [|o|now w|w|i|i|color]; cbn [handle].
  - (* the camera is granted *)
    cbn. repeat split; auto; try (left; split; reflexivity).
  - cbn. repeat split; auto; try (left; split; reflexivity). destruct o; cbn; lia.
  - (* the capture button *)
    destruct (start_disabled (st c)) eqn:Hdis.
    { repeat split; auto; try (left; split; reflexivity). }
    unfold start_disabled in Hdis. apply orb_false_iff in Hdis.
    destruct Hdis as [Hcap _].
    rewrite Hstart. unfold startPhotoSequence. cbn [st_isCapturing]. rewrite Hcap.
    set (cl := {| st_isCapturing := false; st_countdownTime := countdownTime (st c);
                  st_capturePhoto := {| cap_activeFilter := activeFilter (st c) |} |}).
    set (c1 := setCaptureTime now (setCapturedPhotos (fun _ => []) (setIsCapturing true c))).
    destruct (shot_loop_from_spec cl w 0 c1) as (K & P & I & Pe & C).
    assert (Hpos : (0 <? countdownTime (st c)) = true) by (apply Z.ltb_lt; lia).
    unfold shot_in_loop, shot_in_countdown, snapshots_of in I.
    cbn [st_countdownTime cl] in Pe, C, I. rewrite Hpos in Pe, C, I.
    change (0 <? 3) with true in Pe, C, I. cbv iota in Pe, C, I.
    remember (shot_loop_from cl w 0 c1) as c2 eqn:Ec2. clear Ec2.
    assert (Hc1 : memo c1 = memo c /\ arr_id (capturedPhotos (st c1)) = next_id c
                  /\ next_id c1 = S (next_id c)
                  /\ items (capturedPhotos (st c1)) = []
                  /\ isCapturing (st c1) = true
                  /\ selectedStickerTheme (st c1) = selectedStickerTheme (st c)
                  /\ countdownTime (st c1) = countdownTime (st c)).
    { subst c1. cbn. auto 10. }
    destruct Hc1 as (M1 & A1 & N1 & I1 & C1 & T1 & D1).
    rewrite I1 in I. cbn [somes map flat_map app] in I.
    rewrite Pe. cbn [run_at run_closure await_ok shots_taken st_countdownTime].
    rewrite C, I, C1. cbn [List.length Z.of_nat].
    change (st_countdownTime cl) with (countdownTime (st c)).
    split; [repeat split; lia|].
    split; [now rewrite (k_memo _ _ K)|].
    assert (Hnew : (next_id c <= arr_id (capturedPhotos (st c2)) < next_id c2)%nat).
    { destruct P as [[-> ->]|P]; lia. }
    split; [now right|].
    split; [intros E; rewrite E in Hnew; lia|].
    split; [now rewrite (k_theme _ _ K), T1|].
    now rewrite (k_countdown _ _ K), D1.
  - (* a timeout *)
    destruct (pending c) as [[cl a]|] eqn:Hp.
    2:{ rewrite Hp. repeat split; try tauto; auto; try (left; split; reflexivity). }
    cbn [run_at run_closure] in Hpend.
    destruct Hpend as (Hcap & Hok & Hcl & Hlen).
    unfold resume. cbn [run_at run_closure].
    destruct a as [i count|i]; cbn [await_ok shots_taken] in Hok, Hlen.
    + destruct (countdown_from_spec cl w i (count - 1) c) as (K & P & I & Pe & C).
      pose proof (shot_in_countdown_length (cap_activeFilter (st_capturePhoto cl))
                    w (count - 1)) as Hshot.
      assert (Hl : Z.of_nat (List.length (items (capturedPhotos
                      (st (countdown_from cl w i (count - 1) c))))) <= i + 1).
      { rewrite I, length_app. lia. }
      split.
      * rewrite Pe, C. destruct (Z.ltb_spec 0 (count - 1)).
        -- cbn [run_at run_closure await_ok shots_taken].
           rewrite I. unfold shot_in_countdown, snapshots_of.
           destruct (Z.ltb_spec 0 (count - 1)); [|lia]. cbn. rewrite app_nil_r.
           repeat split; auto; lia.
        -- destruct (Z.ltb_spec i 2); cbn [run_at run_closure await_ok shots_taken].
           ++ repeat split; auto; lia.
           ++ split; [reflexivity|lia].
      * split; [exact (k_memo _ _ K)|]. split; [exact P|].
        split; [intros _; exact (k_time _ _ K)|].
        split; [now rewrite (k_theme _ _ K)|]. now rewrite (k_countdown _ _ K).
    + destruct (shot_loop_from_spec cl w (i + 1) c) as (K & P & I & Pe & C).
      assert (H3 : (i + 1 <? 3) = true) by (apply Z.ltb_lt; lia).
      assert (Hpos : (0 <? st_countdownTime cl) = true) by (apply Z.ltb_lt; lia).
      rewrite H3, Hpos in Pe, C.
      unfold shot_in_loop, shot_in_countdown, snapshots_of in I. rewrite H3, Hpos in I.
      cbn in I. rewrite app_nil_r in I.
      split.
      * rewrite Pe, C, I. cbn [run_at run_closure await_ok shots_taken].
        repeat split; auto; lia.
      * split; [exact (k_memo _ _ K)|]. split; [exact P|].
        split; [intros _; exact (k_time _ _ K)|].
        split; [now rewrite (k_theme _ _ K)|]. now rewrite (k_countdown _ _ K).
  - destruct (nth_error filters i); cbn; repeat split; auto; try (left; split; reflexivity).
  - destruct (strip_shown (st c)), (nth_error stripStyles i); cbn;
      repeat split; auto; try (left; split; reflexivity).
  - destruct (color_shown (st c)); cbn;
      repeat split; auto; try (left; split; reflexivity).
Qed.

Lemma step_inv c e : comp_inv c -> comp_inv (step c e).
Proof.
  intros Hinv.
  destruct (handle_inv c e Hinv) as (Hpend & Hmemo & Hps & Htime & Htheme & Hcd).
  destruct Hinv as [_ Hstart Hphotos Htm Hstyle [Hth1 Hth2] Hids _].
  assert (Hids' : (arr_id (capturedPhotos (st (handle e c))) < next_id (handle e c))%nat).
  { destruct Hps as [[-> ->]|Hps]; [exact Hids|lia]. }
  unfold step. destruct (same_state (st c) (st (handle e c))) eqn:Hsame.
  - destruct (same_state_fields _ _ Hsame) as (Ft & Fs & Ff & Fc & Fa & Fi & Fth).
    assert (Hsamephotos : capturedPhotos (st (handle e c)) = capturedPhotos (st c)).
    { destruct Hps as [[E _]|Hps]; [exact E|lia]. }
    constructor; auto.
    + rewrite Hmemo, Hstart. now rewrite Ff, Fc, Fi.
    + now rewrite Hmemo, Hphotos.
    + now rewrite Hmemo, Htm.
    + now rewrite Hmemo, Hstyle.
    + now rewrite Hmemo.
  - unfold rerender. constructor; cbn [st memo pending next_id]; auto.
    + apply render_start.
    + rewrite render_download, Hmemo, Hphotos.
      destruct (andb _ _) eqn:E; [|reflexivity].
      apply andb_true_iff in E. destruct E as [E _]. apply Nat.eqb_eq in E.
      rewrite Hphotos. destruct Hps as [[E' _]|Hps]; [now rewrite E'|lia].
    + rewrite render_download, Hmemo, Hphotos.
      destruct (andb _ _) eqn:E; [|reflexivity].
      apply andb_true_iff in E. destruct E as [E _]. apply Nat.eqb_eq in E.
      rewrite Htm. symmetry. apply Htime.
      destruct Hps as [[E' _]|Hps]; [exact E'|lia].
    + rewrite render_download, Hmemo.
      destruct (andb _ _) eqn:E; [|reflexivity].
      apply andb_true_iff in E. destruct E as [_ E]. now apply String.eqb_eq in E.
    + rewrite render_download, Hmemo.
      destruct (andb _ _); [auto|]. cbn. auto.
Qed.

Lemma run_inv c es : comp_inv c -> comp_inv (run c es).
Proof.
  revert c. induction es as [|e es IH]; intros c H; [exact H|].
  cbn [run fold_left]. apply IH. now apply step_inv.
Qed.

Lemma reachable_inv c : reachable c -> comp_inv c.
Proof. intros [es ->]. apply run_inv, initial_inv. Qed.

(** ** Runs of the component *)

Lemma capturePhoto_available f w :
  capturePhoto f w = None <-> available w = false.
Proof.
  unfold capturePhoto, available.
  destruct (videoRef w), (canvasRef w) as [cv|]; try tauto.
  destruct (has_2d cv); split; intros; try discriminate; reflexivity.
Qed.

Lemma somes_app {A} (l m : list (option A)) : somes (l ++ m) = (somes l ++ somes m)%list.
Proof. unfold somes. apply flat_map_app. Qed.

Lemma run_cons c e es : run c (e :: es) = run (step c e) es.
Proof. reflexivity. Qed.

(** A timeout of a suspended call: where the call is suspended next,
    and the shot it took. *)
Lemma timer_step c w cl a :
  comp_inv c ->
  pending c = Some {| run_closure := cl; run_at := a |} ->
  let c' := step c (TimerFired w) in
  pending c' =
    match a with
    | AwaitTick i count =>
        if 0 <? count - 1
        then Some {| run_closure := cl; run_at := AwaitTick i (count - 1) |}
        else if i <? 2 then Some {| run_closure := cl; run_at := AwaitPause i |}
        else None
    | AwaitPause i =>
        Some {| run_closure := cl; run_at := AwaitTick (i + 1) (st_countdownTime cl) |}
    end
  /\ shots_of c (TimerFired w) =
       match a with
       | AwaitTick i count => if 0 <? count - 1 then [] else [w]
       | AwaitPause i => []
       end
  /\ items (capturedPhotos (st c')) =
       (items (capturedPhotos (st c))
        ++ snapshots_of (cap_activeFilter (st_capturePhoto cl))
             (shots_of c (TimerFired w)))%list
  /\ captureTime (st c') = captureTime (st c).
Proof.
  intros Hinv Hp c'. subst c'.
  rewrite pending_step, st_step. cbn [handle shots_of]. rewrite Hp.
  unfold resume. cbn [run_at run_closure].
  pose proof (ci_pending c Hinv) as Hpend. rewrite Hp in Hpend.
  cbn [run_at run_closure] in Hpend. destruct Hpend as (_ & Hok & Hcl & _).
  destruct a as [i count|i]; cbn [await_ok] in Hok.
  - destruct (countdown_from_spec cl w i (count - 1) c) as (K & _ & I & Pe & _).
    rewrite Pe, I. unfold shot_in_countdown.
    pose proof (k_time _ _ K). repeat split; auto.
  - destruct (shot_loop_from_spec cl w (i + 1) c) as (K & _ & I & Pe & _).
    assert (H3 : (i + 1 <? 3) = true) by (apply Z.ltb_lt; lia).
    assert (Hpos : (0 <? st_countdownTime cl) = true) by (apply Z.ltb_lt; lia).
    rewrite Pe, I. unfold shot_in_loop, shot_in_countdown. rewrite H3, Hpos.
    pose proof (k_time _ _ K). repeat split; auto.
Qed.

(** An event that is neither the button nor a timeout of a suspended
    call takes no shot and leaves the photos and the time alone. *)
Lemma quiet_step c e :
  is_start e = false ->
  (forall w, e = TimerFired w -> pending c = None) ->
  pending (step c e) = pending c
  /\ shots_of c e = []
  /\ capturedPhotos (st (step c e)) = capturedPhotos (st c)
  /\ captureTime (st (step c e)) = captureTime (st c).
Proof.
  intros Hns Htimer. rewrite pending_step, st_step.
  destruct e as [|o|now w|w|i|i|color]; try discriminate; cbn [handle shots_of]; auto.
  - pose proof (Htimer w eq_refl) as E. rewrite E. rewrite E. auto.
  - destruct (nth_error filters i); auto.
  - destruct (strip_shown (st c)), (nth_error stripStyles i); auto.
  - destruct (color_shown (st c)); auto.
Qed.

(** The button, when it is enabled: the photos are emptied, the time is
    taken, and the call is suspended in the countdown of the first shot. *)
Lemma start_step c now w :
  comp_inv c ->
  start_disabled (st c) = false ->
  let c1 := step c (ClickStart now w) in
  pending c1 =
    Some {| run_closure :=
              {| st_isCapturing := false;
                 st_countdownTime := countdownTime (st c);
                 st_capturePhoto := {| cap_activeFilter := activeFilter (st c) |} |};
            run_at := AwaitTick 0 (countdownTime (st c)) |}
  /\ items (capturedPhotos (st c1)) = []
  /\ captureTime (st c1) = now
  /\ shots_of c (ClickStart now w) = [].
Proof.
  intros Hinv Hen c1. subst c1.
  rewrite pending_step, st_step. cbn [handle shots_of]. rewrite Hen.
  rewrite (ci_start c Hinv). unfold startPhotoSequence. cbn [st_isCapturing].
  pose proof Hen as Hdis. unfold start_disabled in Hdis.
  apply orb_false_iff in Hdis. destruct Hdis as [Hcap _]. rewrite Hcap.
  set (cl := {| st_isCapturing := false; st_countdownTime := countdownTime (st c);
                st_capturePhoto := {| cap_activeFilter := activeFilter (st c) |} |}).
  set (c0 := setCaptureTime now (setCapturedPhotos (fun _ => []) (setIsCapturing true c))).
  destruct (shot_loop_from_spec cl w 0 c0) as (K & _ & I & Pe & _).
  assert (Hpos : (0 <? countdownTime (st c)) = true)
    by (apply Z.ltb_lt; pose proof (ci_countdown c Hinv); lia).
  unfold shot_in_loop, shot_in_countdown in *.
  cbn [st_countdownTime cl] in Pe, I |- *. rewrite Hpos in Pe, I |- *.
  change (0 <? 3) with true in Pe, I |- *. cbv iota in Pe, I |- *.
  rewrite Pe, I, (k_time _ _ K). auto.
Qed.

Lemma idle_trace es :
  forall c,
    pending c = None ->
    forallb (fun e => negb (is_start e)) es = true ->
    pending (run c es) = None
    /\ shots c es = []
    /\ capturedPhotos (st (run c es)) = capturedPhotos (st c)
    /\ captureTime (st (run c es)) = captureTime (st c).
Proof.
  induction es as [|e es IH]; intros c Hp Hns; [auto|].
  cbn [forallb] in Hns. apply andb_true_iff in Hns. destruct Hns as [He Hes].
  apply negb_true_iff in He.
  destruct (quiet_step c e He (fun _ _ => Hp)) as (P & S & Ph & T).
  rewrite run_cons. cbn [shots]. rewrite S.
  destruct (IH (step c e)) as (P' & S' & Ph' & T'); [congruence|exact Hes|].
  rewrite P', S', Ph', T'. auto.
Qed.

Lemma snapshots_of_app f l m :
  snapshots_of f (l ++ m) = (snapshots_of f l ++ snapshots_of f m)%list.
Proof. unfold snapshots_of. now rewrite map_app, somes_app. Qed.

(** A suspended call, through events other than the button: the photos
    grow by the snapshots of the shots taken, in their order, each shot
    one call of [capturePhoto] with the filter of the closure; the time
    stays; and the call returns with its third shot. *)
Lemma sequence_trace es :
  forall c cl a,
    comp_inv c ->
    pending c = Some {| run_closure := cl; run_at := a |} ->
    forallb (fun e => negb (is_start e)) es = true ->
    let c' := run c es in
    items (capturedPhotos (st c')) =
      (items (capturedPhotos (st c))
       ++ snapshots_of (cap_activeFilter (st_capturePhoto cl)) (shots c es))%list
    /\ captureTime (st c') = captureTime (st c)
    /\ incl (shots c es) (flat_map surface_of es)
    /\ match pending c' with
       | Some r' =>
           run_closure r' = cl
           /\ shots_taken (run_at r') = shots_taken a + Z.of_nat (List.length (shots c es))
       | None => shots_taken a + Z.of_nat (List.length (shots c es)) = 3
       end.
Proof.
  induction es as [|e es IH]; intros c cl a Hinv Hp Hns c'; subst c'.
  - cbn. rewrite Hp, app_nil_r. cbn. repeat split; auto; try lia. intros x [].
  - cbn [forallb] in Hns. apply andb_true_iff in Hns. destruct Hns as [He Hes].
    apply negb_true_iff in He.
    rewrite run_cons. cbn [shots flat_map].
    pose proof (step_inv c e Hinv) as Hinv'.
    set (f := cap_activeFilter (st_capturePhoto cl)).
    assert (Hcase :
      exists l,
        shots_of c e = l
        /\ items (capturedPhotos (st (step c e))) =
             (items (capturedPhotos (st c)) ++ snapshots_of f l)%list
        /\ captureTime (st (step c e)) = captureTime (st c)
        /\ incl l (surface_of e)
        /\ match pending (step c e) with
           | Some r' => run_closure r' = cl
                        /\ shots_taken (run_at r') = shots_taken a + Z.of_nat (List.length l)
           | None => shots_taken a + Z.of_nat (List.length l) = 3
           end).
    { assert (Hquiet : (forall w, e <> TimerFired w) ->
                exists l, shots_of c e = l
                  /\ items (capturedPhotos (st (step c e))) =
                       (items (capturedPhotos (st c)) ++ snapshots_of f l)%list
                  /\ captureTime (st (step c e)) = captureTime (st c)
                  /\ incl l (surface_of e)
                  /\ match pending (step c e) with
                     | Some r' => run_closure r' = cl
                         /\ shots_taken (run_at r') = shots_taken a + Z.of_nat (List.length l)
                     | None => shots_taken a + Z.of_nat (List.length l) = 3
                     end).
      { intros Hnt.
        destruct (quiet_step c e He) as (P & S & Ph & T).
        { intros w E. exfalso. now apply (Hnt w). }
        exists []. rewrite P, S, Ph, T, Hp. cbn. rewrite app_nil_r.
        repeat split; auto; try lia. intros x []. }
      destruct e as [|o|now w|w|i|i|color]; try (apply Hquiet; discriminate).
      - destruct (timer_step c w cl a Hinv Hp) as (P & S & I & T). cbv zeta in *.
        eexists. split; [exact S|]. rewrite <- S. split; [exact I|]. split; [exact T|].
        rewrite P, S.
        pose proof (ci_pending c Hinv) as Hpend. rewrite Hp in Hpend.
        cbn [run_at run_closure] in Hpend. destruct Hpend as (_ & Hok & _).
        destruct a as [i count|i]; cbn [await_ok] in Hok.
        + destruct (0 <? count - 1).
          * split; [intros x []|]. cbn. split; [reflexivity|lia].
          * split; [apply incl_refl|].
            destruct (Z.ltb_spec i 2); cbn; [split; [reflexivity|lia]|lia].
        + split; [intros x []|]. cbn. split; [reflexivity|lia]. }
    destruct Hcase as (l & Sl & Il & Tl & Fl & Pl). rewrite Sl.
    destruct (pending (step c e)) as [[cl' a']|] eqn:Hp'.
    + cbn [run_closure run_at] in Pl. destruct Pl as [-> Ha'].
      destruct (IH (step c e) cl a' Hinv' Hp' Hes) as (I & T & F & P).
      cbv zeta in I, T, P. fold f in I.
      rewrite I, Il, T, Tl, snapshots_of_app, app_assoc, length_app.
      split; [reflexivity|]. split; [reflexivity|]. split.
      * apply incl_app; [now apply incl_appl|now apply incl_appr].
      * destruct (pending (run (step c e) es)) as [r'|];
          [destruct P as [P1 P2]; split; [exact P1|]|]; lia.
    + destruct (idle_trace es (step c e) Hp' Hes) as (P & S & Ph & T).
      rewrite P, S, Ph, T, Il, Tl, app_nil_r.
      split; [reflexivity|]. split; [reflexivity|].
      split; [now apply incl_appl|exact Pl].
Qed.

(** A suspended call returns when the timeouts it still awaits have
    fired. *)
Lemma sequence_completes n :
  forall c r ws,
    comp_inv c -> pending c = Some r -> remaining r = n -> List.length ws = n ->
    pending (run c (map TimerFired ws)) = None.
Proof.
  induction n as [|n IH]; intros c [cl a] ws Hinv Hp Hr Hlen.
  - exfalso. pose proof (ci_pending c Hinv) as Hpend. rewrite Hp in Hpend.
    cbn [run_at run_closure] in Hpend. destruct Hpend as (_ & Hok & Hcl & _).
    unfold remaining in Hr. cbn [run_at run_closure] in Hr.
    destruct a as [i count|i]; cbn [await_ok] in Hok; nia.
  - destruct ws as [|w ws]; [discriminate|]. cbn [map]. rewrite run_cons.
    injection Hlen as Hlen.
    pose proof (ci_pending c Hinv) as Hpend. rewrite Hp in Hpend.
    cbn [run_at run_closure] in Hpend. destruct Hpend as (_ & Hok & Hcl & _).
    destruct (timer_step c w cl a Hinv Hp) as (P & _). cbv zeta in P.
    pose proof (step_inv c (TimerFired w) Hinv) as Hinv'.
    unfold remaining in Hr. cbn [run_at run_closure] in Hr.
    destruct a as [i count|i]; cbn [await_ok] in Hok.
    + destruct (Z.ltb_spec 0 (count - 1)).
      * eapply IH; eauto. unfold remaining. cbn [run_at run_closure]. nia.
      * destruct (Z.ltb_spec i 2).
        -- eapply IH; eauto. unfold remaining. cbn [run_at run_closure]. nia.
        -- assert (n = 0%nat) by nia. subst n. destruct ws; [|discriminate].
           exact P.
    + eapply IH; eauto. unfold remaining. cbn [run_at run_closure]. nia.
Qed.

(** ** The strip compositor *)

(** C1: for a strip of [n >= 1] snapshots the canvas that
    [downloadPhotoStrip] makes is [400 + 40] wide and
    [60 + n * 300 + (n - 1) * 10 + (16 + 24)] high, whatever the style,
    the colour and the loads that follow; two snapshots give the height
    for [n = 2]. *)
Theorem C1_strip_canvas_size env style color :
  (1 <= List.length (items (dl_capturedPhotos env)))%nat ->
  exists j,
    downloadPhotoStrip env style color true = Some j
    /\ canvas_width j = 400 + 40
    /\ (let n := Z.of_nat (List.length (items (dl_capturedPhotos env))) in
        canvas_height j = 60 + n * 300 + (n - 1) * 10 + (16 + 24))
    /\ (List.length (items (dl_capturedPhotos env)) = 2%nat -> canvas_height j = 710)
    /\ forall es, canvas_width (job_run j es) = canvas_width j
                  /\ canvas_height (job_run j es) = canvas_height j.
Proof.
  intros Hn.
  destruct (downloadPhotoStrip env style color true) as [j|] eqn:Hj.
  - exists j. destruct (new_job_spec _ _ _ _ Hj) as (_ & _ & Hw & Hh & _).
    split; [reflexivity|]. split; [rewrite Hw; reflexivity|].
    split; [|split].
    + cbv zeta. rewrite Hh.
      unfold stripHeight, previewPaddingTop, photoHeight, previewPhotoGap,
        previewDatePadding. lia.
    + intros E. rewrite Hh, E. reflexivity.
    + intros es. destruct (job_run_env j es) as (_ & A & B). now split.
  - exfalso. unfold downloadPhotoStrip in Hj.
    destruct (List.length (items (dl_capturedPhotos env))) as [|n]; [lia|].
    discriminate Hj.
Qed.

(** C2: the label is drawn and the download is triggered exactly when
    the image of every snapshot has loaded, which the count of loads
    tracks; the load of a sticker image changes neither the count nor
    the downloads, and when the photos load before any sticker image
    does, the download is triggered with no sticker painted. *)
Theorem C2_download_after_all_photos env style color j0 es :
  downloadPhotoStrip env style color true = Some j0 ->
  let j := job_run j0 es in
  let n := List.length (items (dl_capturedPhotos env)) in
  loadedCount j = Z.of_nat (count_loaded (photo_loaded j))
  /\ (download_triggered j = true <->
      forall i, (i < n)%nat -> photo_load_in i es = true)
  /\ (label_drawn j = true <->
      forall i, (i < n)%nat -> photo_load_in i es = true)
  /\ (forall k, loadedCount (job_step j (StickerLoaded k)) = loadedCount j
                /\ downloads (job_step j (StickerLoaded k)) = downloads j)
  /\ (forallb is_photo_event es = true ->
      (forall i, (i < n)%nat -> photo_load_in i es = true) ->
      download_triggered j = true
      /\ forallb (fun p => negb (is_sticker p)) (painted (ctx j)) = true
      /\ Forall (fun img => sticker_loaded img = false) (stickerImgs j)).
Proof.
  intros Hnew j n.
  pose proof (new_job_inv _ _ _ _ Hnew) as Hinv0.
  pose proof (job_run_inv j0 es Hinv0) as Hinv. fold j in Hinv.
  destruct (new_job_spec _ _ _ _ Hnew) as (_ & He & _ & _ & _ & _ & Hs0 & _ & _ & m & Hm & Hb).
  destruct (job_run_env j0 es) as (Eenv & _). fold j in Eenv.
  assert (Hall : loadedCount j = numPhotos j <->
                 forall i, (i < n)%nat -> photo_load_in i es = true).
  { rewrite (all_loaded_iff j Hinv), Eenv, He. fold n.
    split; intros H i Hi; specialize (H i Hi).
    - unfold j in H. rewrite (photo_loaded_iff _ _ _ _ es i Hnew) in H.
      now apply andb_true_iff in H.
    - unfold j. rewrite (photo_loaded_iff _ _ _ _ es i Hnew), H.
      fold n. apply Nat.ltb_lt in Hi. now rewrite Hi. }
  split; [apply (inv_count j Hinv)|].
  split; [rewrite (inv_download j Hinv); exact Hall|].
  split; [rewrite (inv_label j Hinv); exact Hall|].
  split.
  - intros k. cbn [job_step].
    destruct (nth_error (stickerImgs j) k) as [img|]; [|auto].
    destruct (sticker_loaded img); [auto|].
    destruct (sticker_onload_spec img (mark_sticker k img j))
      as (_ & _ & _ & A & _ & _ & B & _). auto.
  - intros Hes Hin. split; [apply (inv_download j Hinv), Hall, Hin|].
    apply photos_only; [exact Hes| |rewrite Hs0; constructor].
    cbn [new_ctx painted app] in Hm. rewrite Hm. now apply backdrop_no_sticker.
Qed.

(** C6: with the custom-colour style and a colour the context accepts,
    the first thing painted is a rectangle filled with exactly that
    colour, from the origin over the width and the height of the canvas,
    under no transform; whatever loads afterwards, no other rectangle or
    path is ever filled or stroked. *)
Theorem C6_custom_color_fill env color j0 :
  let supplied :=
    match color with Some c => c | None => dl_customColor env end in
  css_valid CssColor supplied = true ->
  downloadPhotoStrip env (Some "strip-custom") color true = Some j0 ->
  let background :=
    {| shape := FillRect 0 0 (canvas_width j0) (canvas_height j0);
       state :=
         {| ds_fillStyle := supplied; ds_strokeStyle := "#000000";
            ds_lineWidth := 1; ds_font := "10px sans-serif";
            ds_textAlign := "start"; ds_filter := "none"; ds_xform := [] |} |} in
  forall es,
    exists rest,
      painted (ctx (job_run j0 es)) = background :: rest
      /\ Forall (fun p => match shape p with
                          | DrawImage _ _ _ _ _ | FillText _ _ _ => True
                          | _ => False
                          end) rest.
Proof.
  intros supplied Hvalid Hnew background es.
  destruct (new_job_spec _ _ _ _ Hnew) as (_ & _ & Hw & Hh & _).
  assert (Hp0 : exists d,
             painted (ctx j0) =
               [ background;
                 {| shape := FillText "Captured by FotoJB" (stripWidth / 2) 40;
                    state := d |} ]).
  { subst background. rewrite Hw, Hh. clear Hw Hh.
    unfold downloadPhotoStrip in Hnew.
    destruct (List.length (items (dl_capturedPhotos env)) =? 0)%nat; [discriminate|].
    cbn [negb] in Hnew. injection Hnew as <-. cbn [ctx].
    match goal with |- context [draw_header ?c] =>
      destruct (draw_header_painted c) as (d & Hd) end.
    exists d. rewrite Hd.
    change (paint_background "strip-custom" ?c ?w ?h ?x)
      with (fillRect 0 0 w h (set_fillStyle c x)).
    unfold fillRect. rewrite painted_paint. unfold set_fillStyle.
    fold supplied. rewrite Hvalid. reflexivity. }
  destruct Hp0 as (d & Hp0).
  destruct (job_run_painted j0 es) as (more & Hm & Hf).
  eexists. rewrite Hm, Hp0. cbn [app]. split; [reflexivity|].
  constructor; [exact I|exact Hf].
Qed.

(** C7, as the code has it: in every slot a sticker image has loaded for
    there are 7 or 8 stickers, in every other slot there are none; a
    sticker image is awaited only for a photo that has loaded, and its
    load paints 7 or 8 stickers for that slot; every sticker is drawn
    from the first image of the theme; the theme ['none'] has no image
    and paints no sticker. *)
Theorem C7_stickers_per_slot env style color j0 es :
  downloadPhotoStrip env style color true = Some j0 ->
  let j := job_run j0 es in
  let theme := dl_selectedStickerTheme env in
  (forall idx,
      let k := stickers_in_slot (Z.of_nat idx) (painted (ctx j)) in
      if sticker_has_loaded j (slot_y idx)
      then k = 7%nat \/ k = 8%nat
      else k = 0%nat)
  /\ (forall k img,
        nth_error (stickerImgs j) k = Some img -> sticker_loaded img = false ->
        exists idx more,
          sticker_y img = slot_y idx
          /\ photo_has_loaded j idx = true
          /\ theme_first_image theme = Some (sticker_src img)
          /\ painted (ctx (job_step j (StickerLoaded k)))
             = (painted (ctx j) ++ more)%list
          /\ (List.length more = 7 \/ List.length more = 8)%nat
          /\ Forall (sticker_op (sticker_src img) (slot_y idx) []) more)
  /\ (forall p url x y w h,
        In p (painted (ctx j)) -> shape p = DrawImage (SrcUrl url) x y w h ->
        theme <> "none" /\ theme_first_image theme = Some url)
  /\ (exists t, find (fun t => (value t =? "none")%string) STICKER_THEMES = Some t
                /\ images t = [])
  /\ (theme = "none" ->
      forallb (fun p => negb (is_sticker p)) (painted (ctx j)) = true
      /\ stickerImgs j = []).
Proof.
  intros Hnew j theme.
  pose proof (new_job_inv _ _ _ _ Hnew) as Hinv0.
  pose proof (job_run_inv j0 es Hinv0) as Hinv. fold j in Hinv.
  destruct (new_job_spec _ _ _ _ Hnew) as (_ & He & _).
  destruct (job_run_env j0 es) as (Eenv & _). fold j in Eenv.
  assert (Eth : dl_selectedStickerTheme (job_env j) = theme)
    by (now rewrite Eenv, He).
  assert (Hsrc : forall p url x y w h,
             In p (painted (ctx j)) -> shape p = DrawImage (SrcUrl url) x y w h ->
             theme <> "none" /\ theme_first_image theme = Some url).
  { intros p url x y w h Hin Hsh.
    pose proof (inv_src j Hinv p url x y w h Hin Hsh) as H. rewrite Eth in H.
    split; [|exact H]. intros E. rewrite E in H. discriminate H. }
  split; [exact (inv_slots j Hinv)|].
  split; [|split; [exact Hsrc|split]].
  - intros k img Hk Hpending.
    assert (Hin : In img (stickerImgs j)) by (eapply nth_error_In; eauto).
    destruct (inv_stickers j Hinv img Hin) as (idx & Hy & Hl & Hth).
    rewrite Eth in Hth.
    cbn [job_step]. rewrite Hk, Hpending.
    destruct (sticker_onload_spec img (mark_sticker k img j))
      as (_ & _ & _ & _ & _ & _ & _ & _ & more & Hp & Hlen & Hall).
    change (ctx (mark_sticker k img j)) with (ctx j) in *.
    rewrite (inv_xform j Hinv), Hy in Hall.
    exists idx, more. auto 10.
  - eexists. split; reflexivity.
  - intros Enone. split.
    + apply forallb_forall. intros p Hin. unfold is_sticker.
      destruct (shape p) as [| | | |[s|url] x y w h] eqn:Hsh; try reflexivity.
      exfalso. destruct (Hsrc p url x y w h Hin Hsh) as [Hne _]. contradiction.
    + destruct (stickerImgs j) as [|img l] eqn:E; [reflexivity|].
      exfalso. destruct (inv_stickers j Hinv img) as (_ & _ & _ & H).
      * rewrite E. now left.
      * rewrite Eth, Enone in H. discriminate H.
Qed.

(** C8: what a photo is drawn under is the resolved filter.  A value
    that is no [var(] reference is used trimmed, so the direct value of
    the catalog is used as it is; a reference is looked up in the
    computed style of the root element, then of the body; when the
    look-up gives nothing the filter is ['none']; every filter of the
    catalog is of one of the two kinds. *)
Theorem C8_filter_resolved :
  (forall v, JS.startsWith "var(" v = false ->
             resolveFilter v = JS.or (JS.trim v) "none")
  /\ (forall f, In f filters -> JS.startsWith "var(" (cssFilter f) = false ->
                resolveFilter (cssFilter f) = cssFilter f)
  /\ (forall nm, nm <> "" ->
        (forall c, In c (list_ascii_of_string nm) -> c <> ")"%char) ->
        resolveFilter ("var(" ++ nm ++ ")") =
          JS.or (JS.trim (JS.or (rootStyle (JS.trim nm))
                            (JS.or (bodyStyle (JS.trim nm)) "none"))) "none"
        /\ (rootStyle (JS.trim nm) = "" -> bodyStyle (JS.trim nm) = "" ->
            resolveFilter ("var(" ++ nm ++ ")") = "none"))
  /\ (forall f, In f filters ->
        cssFilter f = "none"
        \/ exists nm, cssFilter f = "var(" ++ nm ++ ")" /\ nm <> "" /\ JS.trim nm = nm
                      /\ forall c, In c (list_ascii_of_string nm) -> c <> ")"%char)
  /\ (forall index photo now j,
        exists d pre post,
          painted (ctx (photo_onload index photo now j)) =
            (pre ++ {| shape := DrawImage (SrcSnapshot photo) 20 (inject_Z (slot_y index))
                                  (inject_Z photoWidth) (inject_Z photoHeight);
                       state := d |} :: post)%list
          /\ ds_filter d =
               (let v := resolveFilter (cssFilter (dl_activeFilter (job_env j))) in
                if css_valid CssFilterList v then v else ds_filter (cur (ctx j)))).
Proof.
  split; [exact resolveFilter_direct|].
  split.
  { intros f Hin. cbn in Hin.
    repeat (destruct Hin as [<-|Hin]; [cbn; first [reflexivity|discriminate]|]).
    destruct Hin. }
  split.
  { intros nm Hne Hno. rewrite (resolveFilter_reference nm Hne Hno).
    split; [reflexivity|]. now intros -> ->. }
  split.
  { intros f Hin. cbn in Hin.
    destruct Hin as [<-|Hin]; [now left|]. right.
    assert (Hnm : forall nm, cssFilter f = "var(" ++ nm ++ ")" ->
              forallb (fun c => negb (Ascii.eqb c ")")) (list_ascii_of_string nm) = true ->
              nm <> "" -> JS.trim nm = nm ->
              exists nm, cssFilter f = "var(" ++ nm ++ ")" /\ nm <> "" /\ JS.trim nm = nm
                /\ forall c, In c (list_ascii_of_string nm) -> c <> ")"%char).
    { intros nm E Hall Hne Ht. exists nm. repeat split; auto.
      intros c Hc ->. rewrite forallb_forall in Hall. specialize (Hall _ Hc).
      discriminate Hall. }
    destruct Hin as [<-|Hin]; [now apply (Hnm "--filter-bw")|].
    destruct Hin as [<-|Hin]; [now apply (Hnm "--filter-sepia")|].
    destruct Hin as [<-|Hin]; [now apply (Hnm "--filter-vintage")|].
    destruct Hin as [<-|Hin]; [now apply (Hnm "--filter-soft")|].
    destruct Hin as [<-|Hin]; [now apply (Hnm "--filter-noir")|].
    destruct Hin as [<-|Hin]; [now apply (Hnm "--filter-vivid")|].
    destruct Hin. }
  intros index photo now j.
  destruct (photo_onload_spec index photo now j)
    as (_ & _ & _ & _ & _ & _ & _ & _ & _ & d & d' & Hd & _ & Hp & _).
  exists d. eexists. eexists. split; [exact Hp|exact Hd].
Qed.

(** C10: with no snapshot the function returns at once and the button is
    not there; and when the image of one snapshot never loads, whatever
    else loads, the count stays below the number of photos, the label is
    not drawn and no download is triggered.  A step changes the count
    only by the load of a photo that was awaited, which adds one. *)
Theorem C10_no_download_without_every_photo env style color :
  (items (dl_capturedPhotos env) = [] ->
   forall canvas2d, downloadPhotoStrip env style color canvas2d = None)
  /\ (forall c canvas2d,
        items (capturedPhotos (st c)) = [] -> click_download c canvas2d = None)
  /\ (forall j0 es i,
        downloadPhotoStrip env style color true = Some j0 ->
        (i < List.length (items (dl_capturedPhotos env)))%nat ->
        photo_load_in i es = false ->
        let j := job_run j0 es in
        loadedCount j < numPhotos j
        /\ label_drawn j = false
        /\ download_triggered j = false
        /\ downloads j = [])
  /\ (forall j e,
        loadedCount (job_step j e) = loadedCount j
        \/ exists index now,
             e = PhotoLoaded index now
             /\ photo_has_loaded j index = false
             /\ loadedCount (job_step j e) = loadedCount j + 1).
Proof.
  split; [|split; [|split]].
  - intros E canvas2d. unfold downloadPhotoStrip. now rewrite E.
  - intros c canvas2d E. unfold click_download, strip_shown. now rewrite E.
  - intros j0 es i Hnew Hi Hnever j.
    pose proof (new_job_inv _ _ _ _ Hnew) as Hinv0.
    pose proof (job_run_inv j0 es Hinv0) as Hinv. fold j in Hinv.
    destruct (new_job_spec _ _ _ _ Hnew) as (_ & He & _).
    destruct (job_run_env j0 es) as (Eenv & _). fold j in Eenv.
    assert (Hflag : photo_has_loaded j i = false).
    { unfold j. rewrite (photo_loaded_iff _ _ _ _ es i Hnew), Hnever.
      apply andb_false_r. }
    assert (Hne : loadedCount j <> numPhotos j).
    { intros E. pose proof (proj1 (all_loaded_iff j Hinv) E i) as E'.
      rewrite E' in Hflag; [discriminate|]. now rewrite Eenv, He. }
    assert (Hle : loadedCount j <= numPhotos j).
    { rewrite (inv_count j Hinv). unfold numPhotos. rewrite <- (inv_flags j Hinv).
      pose proof (count_loaded_le (photo_loaded j)). lia. }
    assert (Hd : download_triggered j = false).
    { destruct (download_triggered j) eqn:E; [|reflexivity].
      exfalso. now apply Hne, (inv_download j Hinv). }
    split; [lia|]. split; [|split; [exact Hd|]].
    + destruct (label_drawn j) eqn:E; [|reflexivity].
      exfalso. now apply Hne, (inv_label j Hinv).
    + unfold download_triggered in Hd. now destruct (downloads j).
  - intros j e. destruct e as [index now|k]; cbn [job_step].
    + destruct (nth_error (items _) index) as [photo|]; [|now left].
      destruct (nth_error (photo_loaded j) index) as [[|]|] eqn:Hf; try now left.
      right. exists index, now. split; [reflexivity|].
      split; [unfold photo_has_loaded; now rewrite Hf|].
      destruct (photo_onload_spec index photo now (mark_photo index j))
        as (_ & _ & _ & A & _). exact A.
    + left. destruct (nth_error (stickerImgs j) k) as [img|]; [|reflexivity].
      destruct (sticker_loaded img); [reflexivity|].
      destruct (sticker_onload_spec img (mark_sticker k img j))
        as (_ & _ & _ & A & _). exact A.
Qed.

(** ** The capture sequencer *)

Lemma snapshots_of_length f l :
  List.length (snapshots_of f l) = List.length (List.filter available l).
Proof.
  unfold snapshots_of, somes. induction l as [|w l IH]; [reflexivity|].
  cbn [map flat_map List.filter].
  destruct (capturePhoto f w) as [p|] eqn:E.
  - destruct (available w) eqn:A.
    + cbn. now rewrite IH.
    + apply (proj2 (capturePhoto_available f w)) in A. rewrite A in E. discriminate.
  - apply (proj1 (capturePhoto_available f w)) in E. rewrite E. exact IH.
Qed.

Lemma filter_all {A} (f : A -> bool) l : forallb f l = true -> List.filter f l = l.
Proof.
  induction l as [|a l IH]; cbn; [reflexivity|].
  intros H. apply andb_true_iff in H. destruct H as [-> H]. now rewrite IH.
Qed.

(** C3: from an accepted click of the capture button on, whatever else
    happens but another click: the photos are the snapshots taken at the
    shot instants so far, in the order of the instants; there are at
    most three instants, so between 0 and 3 photos, one for each instant
    at which the video and the canvas were there; [capturePhoto] returns
    nothing exactly when they are not, and then no photo is appended and
    the sequence goes on; when the call has returned there have been
    three instants, and there are three photos if the video and the
    canvas were there at each; and the call does return, when the
    timeouts of three countdowns and two pauses have fired. *)
Theorem C3_capture_sequence c0 now w es :
  reachable c0 ->
  start_disabled (st c0) = false ->
  forallb (fun e => negb (is_start e)) es = true ->
  let c := run c0 (ClickStart now w :: es) in
  let instants := shots c0 (ClickStart now w :: es) in
  let photos := items (capturedPhotos (st c)) in
  photos = snapshots_of (activeFilter (st c0)) instants
  /\ List.length photos = List.length (List.filter available instants)
  /\ (List.length instants <= 3)%nat
  /\ (0 <= List.length photos <= 3)%nat
  /\ incl instants (flat_map surface_of es)
  /\ (forall f w', capturePhoto f w' = None <-> available w' = false)
  /\ (pending c = None ->
      List.length instants = 3%nat
      /\ (forallb available instants = true -> List.length photos = 3%nat))
  /\ (forall ws,
        es = map TimerFired ws ->
        List.length ws = Z.to_nat (3 * countdownTime (st c0) + 2) ->
        pending c = None).
Proof.
  intros Hreach Hen Hns c instants photos.
  pose proof (reachable_inv c0 Hreach) as Hinv0.
  destruct (start_step c0 now w Hinv0 Hen) as (Hp1 & Hi1 & _ & Hs1). cbv zeta in *.
  pose proof (step_inv c0 (ClickStart now w) Hinv0) as Hinv1.
  set (c1 := step c0 (ClickStart now w)) in *.
  destruct (sequence_trace es c1 _ _ Hinv1 Hp1 Hns) as (I & _ & F & P).
  cbv zeta in I, P. cbn [cap_activeFilter st_capturePhoto shots_taken] in I, P.
  assert (Einst : instants = shots c1 es).
  { unfold instants. cbn [shots]. now rewrite Hs1. }
  assert (Ec : c = run c1 es) by reflexivity.
  assert (Ephotos : photos = snapshots_of (activeFilter (st c0)) instants).
  { unfold photos. rewrite Ec, I, Hi1, Einst. reflexivity. }
  pose proof (run_inv c1 es Hinv1) as Hinv. rewrite <- Ec in Hinv, P.
  rewrite <- Einst in F, P.
  assert (Hlen : (List.length instants <= 3)%nat
                 /\ (pending c = None -> List.length instants = 3%nat)).
  { pose proof (ci_pending c Hinv) as Hpend.
    destruct (pending c) as [[cl a]|].
    - cbn [run_at run_closure] in *. destruct Hpend as (_ & Hok & _).
      destruct P as [_ P]. split; [|discriminate].
      destruct a; cbn [shots_taken await_ok] in *; lia.
    - split; [lia|intros _; lia]. }
  destruct Hlen as [Hle Hdone].
  assert (Hcount : List.length photos = List.length (List.filter available instants))
    by (rewrite Ephotos; apply snapshots_of_length).
  split; [exact Ephotos|]. split; [exact Hcount|]. split; [exact Hle|].
  split; [rewrite Hcount; pose proof (filter_length_le available instants); lia|].
  split; [exact F|]. split; [exact capturePhoto_available|]. split.
  - intros Hnone. split; [exact (Hdone Hnone)|].
    intros Hav. rewrite Hcount, (filter_all _ _ Hav). exact (Hdone Hnone).
  - intros ws -> Hws. rewrite Ec. eapply sequence_completes; eauto.
    unfold remaining. cbn [run_at run_closure st_countdownTime]. rewrite Hws.
    f_equal. lia.
Qed.

(** C4: the click of the capture button changes nothing of the component
    while it is capturing or while no stream is attached (the button is
    disabled then), so also while a call is suspended; and the function
    itself returns at once, with nothing set, when its closure holds
    that it is capturing. *)
Theorem C4_start_is_noop c now w :
  (isCapturing (st c) = true \/ stream (st c) = None ->
   step c (ClickStart now w) = c)
  /\ (reachable c -> pending c <> None -> step c (ClickStart now w) = c)
  /\ (forall cl, st_isCapturing cl = true -> startPhotoSequence cl now w c = c).
Proof.
  assert (Hdis : start_disabled (st c) = true -> step c (ClickStart now w) = c).
  { intros H. unfold step. cbn [handle]. rewrite H. now rewrite same_state_refl. }
  split; [|split].
  - intros [H|H]; apply Hdis; unfold start_disabled; rewrite H;
      [reflexivity|apply orb_true_r].
  - intros Hreach Hp. apply Hdis. unfold start_disabled.
    pose proof (ci_pending c (reachable_inv c Hreach)) as Hpend.
    destruct (pending c); [|contradiction]. now destruct Hpend as [-> _].
  - intros cl H. unfold startPhotoSequence. now rewrite H.
Qed.

(** C5: an accepted click of the capture button leaves no photo of the
    sequence before, and sets the time to the time of the click; from
    then on, whatever happens but another click, the photos are the
    snapshots of the shots taken since, the time shown stays that of the
    click, the closure of [downloadPhotoStrip] holds the same time, and
    the label a download paints is that time. *)
Theorem C5_start_resets c0 now w es :
  reachable c0 ->
  start_disabled (st c0) = false ->
  forallb (fun e => negb (is_start e)) es = true ->
  let c1 := step c0 (ClickStart now w) in
  let c := run c1 es in
  items (capturedPhotos (st c1)) = []
  /\ captureTime (st c1) = now
  /\ items (capturedPhotos (st c)) = snapshots_of (activeFilter (st c0)) (shots c1 es)
  /\ captureTime (st c) = now
  /\ dl_captureTime (m_downloadPhotoStrip (memo c)) = now
  /\ (forall canvas2d j0 es',
        click_download c canvas2d = Some j0 ->
        let j := job_run j0 es' in
        dl_captureTime (job_env j) = now
        /\ forall p, In p (painted (ctx j)) -> is_label (numPhotos j) p = true ->
                     shape p = FillText now (stripWidth / 2) (dateY (numPhotos j))).
Proof.
  intros Hreach Hen Hns c1 c.
  pose proof (reachable_inv c0 Hreach) as Hinv0.
  destruct (start_step c0 now w Hinv0 Hen) as (Hp1 & Hi1 & Ht1 & _). cbv zeta in *.
  pose proof (step_inv c0 (ClickStart now w) Hinv0) as Hinv1. fold c1 in Hp1, Hi1, Ht1, Hinv1.
  destruct (sequence_trace es c1 _ _ Hinv1 Hp1 Hns) as (I & T & _ & _).
  cbv zeta in I, T. fold c in I, T.
  pose proof (run_inv c1 es Hinv1) as Hinv. fold c in Hinv.
  assert (Hmemo : dl_captureTime (m_downloadPhotoStrip (memo c)) = now).
  { rewrite (ci_time c Hinv), T. exact Ht1. }
  split; [exact Hi1|]. split; [exact Ht1|].
  split; [rewrite I, Hi1; reflexivity|].
  split; [rewrite T; exact Ht1|]. split; [exact Hmemo|].
  intros canvas2d j0 es' Hclick. set (j := job_run j0 es').
  unfold click_download in Hclick.
  destruct (strip_shown (st c)); [|discriminate].
  destruct canvas2d.
  2:{ unfold downloadPhotoStrip in Hclick.
      destruct (_ =? _)%nat; discriminate. }
  pose proof (new_job_inv _ _ _ _ Hclick) as Hj0.
  destruct (new_job_spec _ _ _ _ Hclick) as (_ & He & _).
  pose proof (job_run_inv j0 es' Hj0) as Hj. fold j in Hj.
  destruct (job_run_env j0 es') as (Eenv & _). fold j in Eenv.
  assert (Et : dl_captureTime (job_env j) = now) by (now rewrite Eenv, He).
  split; [exact Et|].
  intros p Hin Hl. rewrite <- Et. now apply (inv_label_text j Hj).
Qed.

(** The click of a filter button never makes [downloadPhotoStrip]
    anew: neither the array of photos nor the style has changed, so the
    closure, and with it the filter a download draws under, are those of
    before the click. *)
Lemma filter_click_keeps_download c i canvas2d :
  reachable c ->
  m_downloadPhotoStrip (memo (step c (ClickFilter i))) = m_downloadPhotoStrip (memo c)
  /\ click_download (step c (ClickFilter i)) canvas2d = click_download c canvas2d.
Proof.
  intros Hreach. pose proof (reachable_inv c Hreach) as Hinv.
  assert (Hst : capturedPhotos (st (handle (ClickFilter i) c)) = capturedPhotos (st c)
                /\ selectedStripStyle (st (handle (ClickFilter i) c)) = selectedStripStyle (st c)
                /\ customColor (st (handle (ClickFilter i) c)) = customColor (st c)
                /\ memo (handle (ClickFilter i) c) = memo c).
  { cbn [handle]. destruct (nth_error filters i); auto. }
  destruct Hst as (Hph & Hsty & Hcol & Hmemo).
  assert (Hm : m_downloadPhotoStrip (memo (step c (ClickFilter i)))
               = m_downloadPhotoStrip (memo c)).
  { unfold step. destruct (same_state _ _); [now rewrite Hmemo|].
    unfold rerender. cbn [memo]. rewrite render_download, Hmemo.
    rewrite (ci_photos c Hinv), (ci_style c Hinv), Hph, Hsty.
    now rewrite Nat.eqb_refl, String.eqb_refl. }
  split; [exact Hm|].
  unfold click_download, strip_shown. rewrite Hm, st_step, Hph, Hsty, Hcol. reflexivity.
Qed.

(** ** More about the strip compositor *)

(** *** The filter and the save stack of the context *)

Lemma steady_refl c : steady c c.
Proof.
  split; [reflexivity|]. split; [reflexivity|].
  exists []. now rewrite app_nil_r.
Qed.

Lemma steady_trans c1 c2 c3 : steady c1 c2 -> steady c2 c3 -> steady c1 c3.
Proof.
  intros (Hf & Hs & m & Hm & Ha) (Hf' & Hs' & m' & Hm' & Ha').
  split; [congruence|]. split; [congruence|].
  exists (m ++ m')%list. rewrite Hm', Hm, app_assoc. split; [reflexivity|].
  apply Forall_app. split; [exact Ha|].
  eapply Forall_impl; [|exact Ha']. intros p Hp. now rewrite Hp.
Qed.

Lemma steady_quiet c c' :
  ds_filter (cur c') = ds_filter (cur c) -> saved c' = saved c ->
  painted c' = painted c -> steady c c'.
Proof.
  intros Hf Hs Hp. split; [exact Hf|]. split; [exact Hs|].
  exists []. now rewrite app_nil_r.
Qed.

Lemma steady_paint sh c : steady c (paint sh c).
Proof.
  split; [reflexivity|]. split; [reflexivity|].
  exists [ {| shape := sh; state := cur c |} ]. split; [reflexivity|].
  now constructor.
Qed.

Lemma steady_set_fillStyle v c : steady c (set_fillStyle v c).
Proof. apply steady_quiet; unfold set_fillStyle; now destruct css_valid. Qed.

Lemma steady_set_strokeStyle v c : steady c (set_strokeStyle v c).
Proof. apply steady_quiet; unfold set_strokeStyle; now destruct css_valid. Qed.

Lemma steady_set_lineWidth v c : steady c (set_lineWidth v c).
Proof. apply steady_quiet; unfold set_lineWidth; now destruct (0 <? v). Qed.

Lemma steady_set_font v c : steady c (set_font v c).
Proof. apply steady_quiet; unfold set_font; now destruct css_valid. Qed.

Lemma steady_set_textAlign v c : steady c (set_textAlign v c).
Proof. apply steady_quiet; unfold set_textAlign; now destruct existsb. Qed.

Lemma steady_transform x c : steady c (transform x c).
Proof. now apply steady_quiet. Qed.

Lemma steady_beginPath c : steady c (beginPath c).
Proof. now apply steady_quiet. Qed.

Lemma steady_add_seg sg c : steady c (add_seg sg c).
Proof. now apply steady_quiet. Qed.

(** A block from [save] to [restore]. *)
Lemma steady_block c c1 : steady (save c) c1 -> steady c (restore c1).
Proof.
  intros (Hf & Hs & more & Hp & Ha). cbn [save saved painted cur] in Hf, Hs, Hp, Ha.
  unfold restore. rewrite Hs. split; [reflexivity|]. split; [reflexivity|].
  exists more. cbn [painted]. now split.
Qed.

Ltac steady_steps :=
  repeat first
    [ match goal with |- steady ?a ?a => apply steady_refl end
    | eapply steady_trans;
      [| first [ apply steady_set_fillStyle | apply steady_set_strokeStyle
               | apply steady_set_lineWidth | apply steady_set_font
               | apply steady_set_textAlign | apply steady_transform
               | apply steady_beginPath | apply steady_add_seg
               | apply steady_paint ] ] ].

Lemma steady_drawButterfly x y c : steady c (drawButterfly x y c).
Proof.
  unfold drawButterfly. apply steady_block.
  unfold translate, ellipse, fill. steady_steps.
Qed.

Lemma steady_drawHeart i c : steady c (drawHeart i c).
Proof.
  unfold drawHeart. apply steady_block.
  unfold translate, rotate, moveTo, bezierCurveTo, fill. steady_steps.
Qed.

Lemma steady_hearts l c :
  steady c (fold_left (fun c i => drawHeart (Z.of_nat i) c) l c).
Proof.
  revert c. induction l as [|i l IH]; intros c; cbn [fold_left].
  - apply steady_refl.
  - eapply steady_trans; [apply steady_drawHeart | apply IH].
Qed.

Lemma steady_paint_background s color w h c :
  steady c (paint_background s color w h c).
Proof.
  unfold paint_background, fillRect, strokeRect.
  destruct (s =? "strip-cartoon")%string; [steady_steps|].
  destruct (s =? "strip-flower")%string.
  { eapply steady_trans; [|apply steady_drawButterfly].
    eapply steady_trans; [|apply steady_drawButterfly]. steady_steps. }
  destruct (s =? "strip-heart")%string.
  { eapply steady_trans; [|apply steady_hearts]. steady_steps. }
  destruct (s =? "strip-custom")%string; steady_steps.
Qed.

Lemma steady_draw_header c : steady c (draw_header c).
Proof. unfold draw_header, fillText. steady_steps. Qed.

Lemma steady_draw_footer label n c : steady c (draw_footer label n c).
Proof. unfold draw_footer, fillText. steady_steps. Qed.

Lemma steady_place_stickers n src y :
  forall k c, steady c (snd (place_stickers n src y k c)).
Proof.
  induction n as [|n IH]; intros k c; cbn [place_stickers snd].
  - apply steady_refl.
  - cbv zeta. eapply steady_trans; [|apply IH].
    apply steady_block. unfold translate, rotate, drawImage. steady_steps.
Qed.

Lemma steady_sticker_onload img j : steady (ctx j) (ctx (sticker_onload img j)).
Proof.
  unfold sticker_onload.
  pose proof (steady_place_stickers (Z.to_nat (stickerCount (random_calls j)))
                (sticker_src img) (sticker_y img) (S (random_calls j)) (ctx j)) as H.
  destruct (place_stickers _ _ _ _ _) as [k c]. exact H.
Qed.

(** The handler of a photo: the photo under the resolved filter when the
    context takes it, what follows under the filter of before. *)
Lemma photo_onload_steady index photo now j :
  let j' := photo_onload index photo now j in
  ds_filter (cur (ctx j')) = ds_filter (cur (ctx j))
  /\ saved (ctx j') = saved (ctx j)
  /\ exists d rest,
       painted (ctx j') =
         (painted (ctx j)
          ++ {| shape := DrawImage (SrcSnapshot photo) 20 (inject_Z (slot_y index))
                           (inject_Z photoWidth) (inject_Z photoHeight);
                state := d |} :: rest)%list
       /\ ds_filter d =
            (let v := resolveFilter (cssFilter (dl_activeFilter (job_env j))) in
             if css_valid CssFilterList v then v else ds_filter (cur (ctx j)))
       /\ Forall (fun p => ds_filter (state p) = ds_filter (cur (ctx j))) rest.
Proof.
  intros j'. subst j'. unfold photo_onload.
  set (v := resolveFilter _).
  set (c1 := restore _).
  assert (Hp1 : painted c1 =
            (painted (ctx j)
             ++ [ {| shape := DrawImage (SrcSnapshot photo) 20 (inject_Z (slot_y index))
                              (inject_Z photoWidth) (inject_Z photoHeight);
                     state := cur (set_filter v (save (ctx j))) |} ])%list).
  { subst c1. unfold drawImage. rewrite painted_restore, painted_paint.
    now rewrite painted_set_filter. }
  assert (Hc1 : cur c1 = cur (ctx j) /\ saved c1 = saved (ctx j)).
  { subst c1. apply restore_save_cur. unfold drawImage. cbn [paint saved].
    now rewrite saved_set_filter. }
  destruct Hc1 as [Hcur Hsaved].
  assert (Hd : ds_filter (cur (set_filter v (save (ctx j)))) =
               if css_valid CssFilterList v then v else ds_filter (cur (ctx j))).
  { rewrite filter_set_filter. reflexivity. }
  destruct (steady_draw_footer (dl_captureTime (job_env j)) (numPhotos j) c1)
    as (Hff & Hfs & more & Hfp & Hfa).
  rewrite Hcur in Hff, Hfa.
  assert (Hn : numPhotos
                 {| job_env := job_env j; canvas_width := canvas_width j;
                    canvas_height := canvas_height j; ctx := ctx j;
                    loadedCount := loadedCount j; photo_loaded := photo_loaded j;
                    stickerImgs := stickerImgs j; random_calls := random_calls j;
                    downloads := downloads j |} = numPhotos j) by reflexivity.
  destruct (loadedCount j + 1 =? numPhotos j) eqn:Hlast; cbn [ctx].
  - split; [exact Hff|]. split; [congruence|].
    exists (cur (set_filter v (save (ctx j)))), more.
    split; [|split; [exact Hd|exact Hfa]].
    rewrite Hfp, Hp1, <- app_assoc. reflexivity.
  - split; [now rewrite Hcur|]. split; [exact Hsaved|].
    exists (cur (set_filter v (save (ctx j)))), [].
    split; [exact Hp1|]. split; [exact Hd|constructor].
Qed.

(** *** What is painted, the file and the photos *)

Lemma photo_draws_app l m :
  photo_draws (l ++ m) = (photo_draws l ++ photo_draws m)%list.
Proof. unfold photo_draws. now rewrite flat_map_app. Qed.

Lemma photo_draws_none l :
  Forall (fun p => is_photo p = false) l -> photo_draws l = [].
Proof.
  induction 1 as [|p l Hp _ IH]; [reflexivity|].
  cbn [photo_draws flat_map]. fold (photo_draws l). rewrite IH.
  unfold is_photo in Hp. destruct (shape p) as [| | | |[s|url] x y w h];
    try reflexivity. discriminate Hp.
Qed.

Lemma backdrop_no_photo p : backdrop p -> is_photo p = false.
Proof.
  unfold backdrop, is_photo. destruct (shape p) as [| | | |[s|url] x y w h];
    try reflexivity; intros [].
Qed.

Lemma backdrop_not_sticker p : backdrop p -> is_sticker p = false.
Proof.
  unfold backdrop, is_sticker. destruct (shape p) as [| | | |[s|url] x y w h];
    try reflexivity; intros [].
Qed.

Lemma sticker_op_is_sticker src y base p :
  sticker_op src y base p -> is_sticker p = true /\ is_photo p = false.
Proof.
  intros (ux & uy & ua & Hs & _). unfold is_sticker, is_photo. now rewrite Hs.
Qed.

Lemma new_job_more env style color j :
  downloadPhotoStrip env style color true = Some j -> job_more j.
Proof.
  intros Hnew.
  destruct (new_job_spec _ _ _ _ Hnew)
    as (_ & He & _ & _ & Hc & _ & _ & Hd & _ & m & Hm & Hb).
  cbn [new_ctx painted app] in Hm.
  assert (Hs : steady new_ctx (ctx j)).
  { unfold downloadPhotoStrip in Hnew.
    destruct (List.length (items (dl_capturedPhotos env)) =? 0)%nat; [discriminate|].
    cbn [negb] in Hnew. injection Hnew as <-. cbn [ctx].
    eapply steady_trans; [apply steady_paint_background | apply steady_draw_header]. }
  destruct Hs as (Hf & Hsv & m' & Hm' & Ha).
  cbn [new_ctx painted app cur saved default_state ds_filter] in Hf, Hsv, Hm', Ha.
  assert (m' = m) by congruence. subst m'. subst m.
  rewrite Forall_forall in Hb, Ha.
  constructor.
  - exact Hf.
  - exact Hsv.
  - apply Forall_forall. intros p Hp.
    rewrite (backdrop_no_photo p (Hb p Hp)). now apply Ha.
  - apply Forall_forall. intros p Hp Hst.
    rewrite (backdrop_not_sticker p (Hb p Hp)) in Hst. discriminate Hst.
  - rewrite Hc, photo_draws_none; [reflexivity|].
    apply Forall_forall. intros p Hp. apply backdrop_no_photo. now apply Hb.
  - now rewrite Hd.
Qed.

(** No download has been triggered while the image of a photo is awaited. *)
Lemma awaited_no_download j index :
  job_inv j -> nth_error (photo_loaded j) index = Some false ->
  downloads j = [] /\ loadedCount j <> numPhotos j.
Proof.
  intros Hinv Hflag.
  assert (Hne : loadedCount j <> numPhotos j).
  { rewrite (inv_count j Hinv). unfold numPhotos. rewrite <- (inv_flags j Hinv).
    pose proof (flag_false_count _ _ Hflag). lia. }
  split; [|exact Hne].
  destruct (downloads j) as [|d l] eqn:E; [reflexivity|].
  exfalso. apply Hne. apply (inv_download j Hinv).
  unfold download_triggered. now rewrite E.
Qed.

Lemma photo_event_more j index photo now :
  job_inv j -> job_more j ->
  nth_error (items (dl_capturedPhotos (job_env j))) index = Some photo ->
  nth_error (photo_loaded j) index = Some false ->
  job_more (photo_onload index photo now (mark_photo index j)).
Proof.
  intros Hinv Hmore Hphoto Hflag.
  destruct (awaited_no_download j index Hinv Hflag) as [Hnone _].
  set (jm := mark_photo index j).
  destruct (photo_onload_spec index photo now jm)
    as (He & Hw & Hh & Hc & _ & _ & _ & _ & _ & d0 & d0' & _ & _ & Hp0 & Hd0).
  destruct (photo_onload_steady index photo now jm)
    as (Hf & Hs & d & rest & Hp & Hd & Hrest).
  cbv zeta in He, Hw, Hh, Hc, Hp0, Hd0, Hf, Hs, Hp, Hd.
  set (j' := photo_onload index photo now jm) in *.
  change (ctx jm) with (ctx j) in *. change (job_env jm) with (job_env j) in *.
  change (loadedCount jm) with (loadedCount j) in *.
  change (downloads jm) with (downloads j) in *.
  change (canvas_width jm) with (canvas_width j) in *.
  change (canvas_height jm) with (canvas_height j) in *.
  change (numPhotos jm) with (numPhotos j) in *.
  rewrite (more_filter j Hmore) in Hd, Hrest.
  assert (Erest : rest =
            if loadedCount j + 1 =? numPhotos j
            then [ {| shape := FillText (dl_captureTime (job_env j))
                                 (stripWidth / 2) (dateY (numPhotos j));
                      state := d0' |} ]
            else []).
  { rewrite Hp in Hp0. apply app_inv_head in Hp0. now injection Hp0. }
  assert (Hrest_shape : Forall (fun p => is_photo p = false /\ is_sticker p = false) rest).
  { rewrite Erest. destruct (_ =? _); repeat constructor. }
  constructor.
  - rewrite Hf. apply (more_filter j Hmore).
  - rewrite Hs. apply (more_saved j Hmore).
  - rewrite Hp, He. apply Forall_app. split; [apply (more_painted j Hmore)|].
    constructor.
    + cbn [is_photo shape state]. exact Hd.
    + rewrite Forall_forall in *. intros p Hin.
      destruct (Hrest_shape p Hin) as [-> _]. now apply Hrest.
  - rewrite Hp, He. apply Forall_app. split; [apply (more_stickers j Hmore)|].
    constructor; [intros H; discriminate H|].
    rewrite Forall_forall in *. intros p Hin Hst.
    destruct (Hrest_shape p Hin) as [_ E]. rewrite E in Hst. discriminate Hst.
  - rewrite Hp, Hc, photo_draws_app, length_app, <- (more_count j Hmore).
    cbn [photo_draws flat_map shape]. fold (photo_draws rest).
    rewrite (photo_draws_none rest).
    + cbn [app List.length]. lia.
    + eapply Forall_impl; [|exact Hrest_shape]. now intros p [H _].
  - rewrite Hd0, Hnone. cbn [app].
    destruct (loadedCount j + 1 =? numPhotos j) eqn:Hlast; [|exact I].
    split; [reflexivity|].
    unfold file_of. cbn [file_width file_height file_painted].
    rewrite Hw, Hh, He. repeat split.
    assert (numPhotos j' = numPhotos j) as -> by (unfold numPhotos; now rewrite He).
    exists (painted (ctx j)
            ++ [ {| shape := DrawImage (SrcSnapshot photo) 20 (inject_Z (slot_y index))
                               (inject_Z photoWidth) (inject_Z photoHeight);
                    state := d |} ])%list,
           {| shape := FillText (dl_captureTime (job_env j)) (stripWidth / 2)
                         (dateY (numPhotos j));
              state := d0' |}, [].
    rewrite Hp, Erest, <- app_assoc, app_nil_r. cbn [app shape forallb].
    repeat split.
Qed.

Lemma sticker_event_more j k img :
  job_inv j -> job_more j ->
  nth_error (stickerImgs j) k = Some img ->
  sticker_loaded img = false ->
  job_more (sticker_onload img (mark_sticker k img j)).
Proof.
  intros Hinv Hmore Hk Hpending.
  set (jm := mark_sticker k img j).
  destruct (sticker_onload_spec img jm)
    as (He & Hw & Hh & Hc & _ & _ & Hd & Hcur & more & Hp & _ & Hall).
  destruct (steady_sticker_onload img jm) as (Hf & Hs & more' & Hp' & Ha).
  cbv zeta in He, Hw, Hh, Hc, Hd, Hcur, Hp.
  set (j' := sticker_onload img jm) in *.
  change (ctx jm) with (ctx j) in *. change (job_env jm) with (job_env j) in *.
  change (loadedCount jm) with (loadedCount j) in *.
  change (downloads jm) with (downloads j) in *.
  change (canvas_width jm) with (canvas_width j) in *.
  change (canvas_height jm) with (canvas_height j) in *.
  assert (more' = more) by (rewrite Hp in Hp'; now apply app_inv_head in Hp').
  subst more'.
  rewrite (more_filter j Hmore) in Ha, Hf.
  rewrite (inv_xform j Hinv) in Hall.
  assert (Hin : In img (stickerImgs j)) by (eapply nth_error_In; eauto).
  destruct (inv_stickers j Hinv img Hin) as (idx & Hy & Hl & _).
  rewrite Hy in Hall.
  assert (Hidx : (idx < List.length (items (dl_capturedPhotos (job_env j))))%nat).
  { rewrite <- (inv_flags j Hinv). unfold photo_has_loaded in Hl.
    apply nth_error_Some. destruct (nth_error (photo_loaded j) idx); congruence. }
  assert (Hkind : Forall (fun p => is_sticker p = true /\ is_photo p = false) more).
  { eapply Forall_impl; [|exact Hall]. intros p. apply sticker_op_is_sticker. }
  assert (Hpd : photo_draws more = []).
  { apply photo_draws_none. eapply Forall_impl; [|exact Hkind]. now intros p [_ H]. }
  constructor.
  - exact Hf.
  - rewrite Hs. apply (more_saved j Hmore).
  - rewrite Hp, He. apply Forall_app. split; [apply (more_painted j Hmore)|].
    rewrite Forall_forall in *. intros p Hp1.
    destruct (Hkind p Hp1) as [_ ->]. now apply Ha.
  - rewrite Hp, He. apply Forall_app. split; [apply (more_stickers j Hmore)|].
    rewrite Forall_forall in *. intros p Hp1 _.
    exists (sticker_src img), idx. split; [exact Hidx|]. now apply Hall.
  - rewrite Hp, Hc, photo_draws_app, Hpd, app_nil_r. apply (more_count j Hmore).
  - rewrite Hd. pose proof (more_file j Hmore) as Hfile.
    destruct (downloads j) as [|d l]; [exact I|].
    destruct Hfile as [-> (Fw & Fh & Fpd & body & label & later & Fb & Fl & Fp & Fs)].
    split; [reflexivity|]. unfold file_of.
    rewrite Hw, Hh, He, Hp, photo_draws_app, Hpd, app_nil_r.
    assert (numPhotos j' = numPhotos j) as -> by (unfold numPhotos; now rewrite He).
    repeat (split; [assumption|]).
    exists body, label, (later ++ more)%list.
    split; [exact Fb|]. split; [exact Fl|]. split.
    + now rewrite Fp, app_assoc.
    + rewrite forallb_app, Fs. cbn [andb]. apply forallb_forall. intros p Hp1.
      rewrite Forall_forall in Hkind. now destruct (Hkind p Hp1).
Qed.

Lemma job_step_more j e : job_inv j -> job_more j -> job_more (job_step j e).
Proof.
  intros Hinv Hmore. destruct e as [index now|k]; cbn [job_step].
  - destruct (nth_error (items _) index) as [photo|] eqn:Hphoto; [|exact Hmore].
    destruct (nth_error (photo_loaded j) index) as [[|]|] eqn:Hflag;
      try exact Hmore.
    now apply photo_event_more.
  - destruct (nth_error (stickerImgs j) k) as [img|] eqn:Hk; [|exact Hmore].
    destruct (sticker_loaded img) eqn:Hl; [exact Hmore|].
    now apply sticker_event_more.
Qed.

Lemma job_run_more j es : job_inv j -> job_more j -> job_more (job_run j es).
Proof.
  intros Hinv Hmore. induction es as [|e es IH] using rev_ind; [exact Hmore|].
  rewrite job_run_snoc. apply job_step_more; [now apply job_run_inv|exact IH].
Qed.

(** *** The order of the loads and the place of the photos *)

Lemma handled_spec es :
  forall flags,
    NoDup (handled flags es)
    /\ forall i, In i (handled flags es) <->
                 nth_error flags i = Some false /\ photo_load_in i es = true.
Proof.
  induction es as [|e es IH]; intros flags; cbn [handled photo_load_in existsb].
  - split; [constructor|]. intros i. split; [intros []|intros [_ H]; discriminate H].
  - destruct e as [index now|k].
    + destruct (nth_error flags index) as [[|]|] eqn:Hflag.
      * destruct (IH flags) as [Hnd Hin]. split; [exact Hnd|]. intros i.
        rewrite Hin. fold (photo_load_in i es). split.
        -- intros [H1 H2]. split; [exact H1|]. rewrite H2. apply orb_true_r.
        -- intros [H1 H2]. split; [exact H1|].
           destruct (Nat.eqb_spec index i) as [->|_]; [congruence|exact H2].
      * destruct (IH (set_nth index true flags)) as [Hnd Hin]. split.
        -- constructor; [|exact Hnd]. intros H. apply Hin in H as [H _].
           rewrite (nth_error_set_nth_eq index true false flags Hflag) in H.
           discriminate H.
        -- intros i. cbn [In]. rewrite Hin. fold (photo_load_in i es).
           destruct (Nat.eqb_spec index i) as [->|Hne].
           ++ split; [intros _; now split|now left].
           ++ rewrite (nth_error_set_nth_neq index i true flags Hne). cbn [orb].
              split; [intros [H|H]; [contradiction|exact H]|now right].
      * destruct (IH flags) as [Hnd Hin]. split; [exact Hnd|]. intros i.
        rewrite Hin. fold (photo_load_in i es). split.
        -- intros [H1 H2]. split; [exact H1|]. rewrite H2. apply orb_true_r.
        -- intros [H1 H2]. split; [exact H1|].
           destruct (Nat.eqb_spec index i) as [->|_]; [congruence|exact H2].
    + cbn [orb]. apply IH.
Qed.

Lemma job_run_cons j e es : job_run j (e :: es) = job_run (job_step j e) es.
Proof. reflexivity. Qed.

Lemma photo_draws_run es :
  forall j,
    job_inv j ->
    photo_draws (painted (ctx (job_run j es))) =
      (photo_draws (painted (ctx j))
       ++ flat_map (slot_draw (items (dl_capturedPhotos (job_env j))))
            (handled (photo_loaded j) es))%list.
Proof.
  induction es as [|e es IH]; intros j Hinv.
  - cbn [job_run fold_left handled flat_map]. now rewrite app_nil_r.
  - rewrite job_run_cons, (IH _ (job_step_inv j e Hinv)).
    destruct (job_step_env j e) as (-> & _).
    destruct e as [index now|k]; cbn [job_step handled].
    + destruct (nth_error (items _) index) as [photo|] eqn:Hphoto.
      * destruct (nth_error (photo_loaded j) index) as [[|]|] eqn:Hflag;
          try reflexivity.
        destruct (photo_onload_spec index photo now (mark_photo index j))
          as (_ & _ & _ & _ & Hfl & _ & _ & _ & _ & d & d' & _ & _ & Hp & _).
        cbv zeta in Hfl, Hp. rewrite Hfl, Hp.
        change (ctx (mark_photo index j)) with (ctx j).
        change (photo_loaded (mark_photo index j))
          with (set_nth index true (photo_loaded j)).
        rewrite photo_draws_app, <- app_assoc. f_equal.
        cbn [flat_map]. f_equal.
        unfold slot_draw. rewrite Hphoto.
        cbn [photo_draws flat_map shape app]. f_equal.
        destruct (_ =? _); reflexivity.
      * assert (Hflag : nth_error (photo_loaded j) index = None).
        { apply nth_error_None. rewrite (inv_flags j Hinv).
          now apply nth_error_None. }
        now rewrite Hflag.
    + destruct (nth_error (stickerImgs j) k) as [img|] eqn:Hk; [|reflexivity].
      destruct (sticker_loaded img) eqn:Hl; [reflexivity|].
      destruct (sticker_onload_spec img (mark_sticker k img j))
        as (_ & _ & _ & _ & Hfl & _ & _ & _ & more & Hp & _ & Hall).
      cbv zeta in Hfl, Hp. rewrite Hfl, Hp.
      change (ctx (mark_sticker k img j)) with (ctx j).
      change (photo_loaded (mark_sticker k img j)) with (photo_loaded j).
      rewrite photo_draws_app, (photo_draws_none more), app_nil_r; [reflexivity|].
      eapply Forall_impl; [|exact Hall]. intros p Hop.
      now destruct (sticker_op_is_sticker _ _ _ _ Hop).
Qed.

Lemma nth_error_map_false {A} (l : list A) i :
  nth_error (map (fun _ => false) l) i = Some false <-> (i < List.length l)%nat.
Proof.
  rewrite nth_error_map. rewrite <- nth_error_Some.
  destruct (nth_error l i); cbn; split; congruence.
Qed.

(** *** The background and the header *)

Lemma adds_decor_butterfly x y c : adds decoration c (drawButterfly x y c).
Proof.
  unfold drawButterfly. apply block_adds.
  unfold translate, ellipse. within_steps.
Qed.

Lemma adds_decor_heart i c : adds decoration c (drawHeart i c).
Proof.
  unfold drawHeart. apply block_adds.
  unfold translate, rotate, moveTo, bezierCurveTo. within_steps.
Qed.

Lemma adds_decor_hearts l c :
  adds decoration c (fold_left (fun c i => drawHeart (Z.of_nat i) c) l c).
Proof.
  revert c. induction l as [|i l IH]; intros c; cbn [fold_left].
  - apply adds_refl.
  - eapply adds_trans; [apply adds_decor_heart | apply IH].
Qed.

(** The colour the [switch] gives to [fillStyle] before it fills the
    canvas. *)
Lemma paint_background_first s color w h c :
  exists col decor,
    painted (paint_background s color w h c) =
      (painted c
       ++ {| shape := FillRect 0 0 w h; state := cur (set_fillStyle col c) |}
       :: decor)%list
    /\ Forall decoration decor
    /\ (~ In s styled -> col = "#ffffff" /\ decor = []).
Proof.
  unfold paint_background.
  assert (Hfirst : forall col,
            painted (fillRect 0 0 w h (set_fillStyle col c)) =
              (painted c
               ++ [ {| shape := FillRect 0 0 w h;
                       state := cur (set_fillStyle col c) |} ])%list).
  { intros col. unfold fillRect. rewrite painted_paint.
    now rewrite painted_set_fillStyle. }
  assert (Hrest : forall col c',
            adds decoration (fillRect 0 0 w h (set_fillStyle col c)) c' ->
            exists decor,
              painted c' =
                (painted c
                 ++ {| shape := FillRect 0 0 w h;
                       state := cur (set_fillStyle col c) |} :: decor)%list
              /\ Forall decoration decor).
  { intros col c' (_ & more & Hm & Hf). exists more. split; [|exact Hf].
    rewrite Hm, Hfirst, <- app_assoc. reflexivity. }
  destruct (s =? "strip-cartoon")%string eqn:E1.
  { apply String.eqb_eq in E1. subst s.
    destruct (Hrest "#ffe066"
                (strokeRect 0 0 w h
                   (set_lineWidth 8
                      (set_strokeStyle "#222"
                         (fillRect 0 0 w h (set_fillStyle "#ffe066" c))))))
      as (decor & Hp & Hf).
    { unfold strokeRect.
      eapply adds_trans; [|apply adds_paint; exact I].
      eapply adds_trans; [|apply adds_set_lineWidth].
      eapply adds_trans; [|apply adds_set_strokeStyle]. apply adds_refl. }
    exists "#ffe066", decor. split; [exact Hp|]. split; [exact Hf|].
    intros Hn. exfalso. apply Hn. cbn. auto. }
  destruct (s =? "strip-flower")%string eqn:E2.
  { apply String.eqb_eq in E2. subst s.
    destruct (Hrest "#f7e1ff"
                (drawButterfly (w - 20) (h - 20)
                   (drawButterfly 20 20
                      (fillRect 0 0 w h (set_fillStyle "#f7e1ff" c)))))
      as (decor & Hp & Hf).
    { eapply adds_trans; [|apply adds_decor_butterfly].
      eapply adds_trans; [|apply adds_decor_butterfly]. apply adds_refl. }
    exists "#f7e1ff", decor. split; [exact Hp|]. split; [exact Hf|].
    intros Hn. exfalso. apply Hn. cbn. auto. }
  destruct (s =? "strip-heart")%string eqn:E3.
  { apply String.eqb_eq in E3. subst s.
    destruct (Hrest "#fff0f6"
                (fold_left (fun c i => drawHeart (Z.of_nat i) c) (seq 0 5)
                   (fillRect 0 0 w h (set_fillStyle "#fff0f6" c))))
      as (decor & Hp & Hf).
    { apply adds_decor_hearts. }
    exists "#fff0f6", decor. split; [exact Hp|]. split; [exact Hf|].
    intros Hn. exfalso. apply Hn. cbn. auto. }
  destruct (s =? "strip-custom")%string eqn:E4.
  { apply String.eqb_eq in E4. subst s.
    exists color, []. split; [apply Hfirst|]. split; [constructor|].
    intros Hn. exfalso. apply Hn. cbn. auto. }
  exists "#ffffff", []. split; [apply Hfirst|]. split; [constructor|].
  intros _. now split.
Qed.

Lemma draw_header_centred c :
  exists d,
    painted (draw_header c) =
      (painted c ++ [ {| shape := FillText "Captured by FotoJB" (stripWidth / 2) 40;
                         state := d |} ])%list
    /\ ds_textAlign d = "center"
    /\ ds_xform d = ds_xform (cur c).
Proof.
  unfold draw_header, fillText. rewrite painted_paint.
  rewrite painted_set_textAlign, painted_set_fillStyle, painted_set_font.
  eexists. split; [reflexivity|]. split.
  - unfold set_textAlign. cbn [existsb textAlign_keywords String.eqb Ascii.eqb
                               Bool.eqb orb]. reflexivity.
  - now rewrite xform_set_textAlign, xform_set_fillStyle, xform_set_font.
Qed.

(** ** More properties of the strip compositor *)

(** X1: whatever the order in which the images of the photos load, and
    however often a load is reported, the photos painted are, in the
    order of the loads that are handled, each photo once, in the slot of
    its own index: at [x = 20], [y = 60 + 310 * index], 400 by 300.  The
    loads handled are the first load of each photo of the strip. *)
Theorem photos_drawn_in_slots env style color j0 es :
  downloadPhotoStrip env style color true = Some j0 ->
  let photos := items (dl_capturedPhotos env) in
  let order := handled (map (fun _ => false) photos) es in
  photo_draws (painted (ctx (job_run j0 es))) = flat_map (slot_draw photos) order
  /\ NoDup order
  /\ (forall i, In i order <->
                (i < List.length photos)%nat /\ photo_load_in i es = true)
  /\ (forall i, In i order ->
        exists photo,
          nth_error photos i = Some photo
          /\ slot_draw photos i =
               [ (photo, (20, inject_Z (60 + Z.of_nat i * 310), 400, 300))%Q ]).
Proof.
  intros Hnew photos order.
  pose proof (new_job_inv _ _ _ _ Hnew) as Hinv.
  destruct (new_job_spec _ _ _ _ Hnew) as (_ & He & _ & _ & _ & Hfl & _ & _ & Hadds).
  destruct Hadds as (_ & m & Hm & Hb). cbn [new_ctx painted app] in Hm.
  destruct (handled_spec es (map (fun _ => false) photos)) as [Hnd Hin].
  assert (Hiff : forall i, In i order <->
                   (i < List.length photos)%nat /\ photo_load_in i es = true).
  { intros i. subst order. rewrite Hin, nth_error_map_false. reflexivity. }
  split; [|split; [exact Hnd|split; [exact Hiff|]]].
  - rewrite (photo_draws_run es j0 Hinv), He, Hfl, Hm.
    rewrite photo_draws_none; [reflexivity|].
    eapply Forall_impl; [|exact Hb]. apply backdrop_no_photo.
  - intros i Hi. apply Hiff in Hi as [Hlt _].
    destruct (nth_error photos i) as [photo|] eqn:Hp.
    + exists photo. split; [reflexivity|]. unfold slot_draw. now rewrite Hp.
    + apply nth_error_None in Hp. lia.
Qed.

(** X2: every photo painted lies inside the canvas, 20 pixels from its
    left and right edges, below the header and above the label; the
    slots of two photos are 10 pixels apart, so no photo is painted over
    another. *)
Theorem photos_inside_canvas env style color j0 es d :
  downloadPhotoStrip env style color true = Some j0 ->
  let j := job_run j0 es in
  let photos := items (dl_capturedPhotos env) in
  In d (photo_draws (painted (ctx j))) ->
  exists i photo,
    (i < List.length photos)%nat
    /\ nth_error photos i = Some photo
    /\ d = (photo, (20, inject_Z (slot_y i), 400, 300))%Q
    /\ 20 + 400 + 20 = canvas_width j
    /\ 40 < slot_y i
    /\ slot_y i + 300 + 16 <= dateY (numPhotos j)
    /\ dateY (numPhotos j) + 24 = canvas_height j
    /\ (forall i', (i < i')%nat -> slot_y i + 300 + 10 <= slot_y i').
Proof.
  intros Hnew j photos Hd.
  pose proof (new_job_inv _ _ _ _ Hnew) as Hinv.
  destruct (new_job_spec _ _ _ _ Hnew) as (_ & He & Hw & Hh & _ & Hfl & _ & _ & Hadds).
  destruct Hadds as (_ & m & Hm & Hb). cbn [new_ctx painted app] in Hm.
  destruct (job_run_env j0 es) as (Eenv & Ew & Eh). fold j in Eenv, Ew, Eh.
  subst j. rewrite (photo_draws_run es j0 Hinv), He, Hfl, Hm in Hd.
  rewrite photo_draws_none in Hd
    by (eapply Forall_impl; [|exact Hb]; apply backdrop_no_photo).
  cbn [app] in Hd. apply in_flat_map in Hd as (i & Hi & Hd).
  apply (proj2 (handled_spec es _)) in Hi as [Hi _].
  apply nth_error_map_false in Hi. fold photos in Hi.
  unfold slot_draw in Hd. fold photos in Hd.
  destruct (nth_error photos i) as [photo|] eqn:Hp; [|destruct Hd].
  destruct Hd as [Hd|[]]. exists i, photo.
  split; [exact Hi|]. split; [exact Hp|]. split; [now rewrite <- Hd|].
  assert (Hn : numPhotos (job_run j0 es) = Z.of_nat (List.length photos)).
  { unfold numPhotos. now rewrite Eenv, He. }
  rewrite Ew, Eh, Hw, Hh, Hn. fold photos.
  unfold slot_y, dateY, stripHeight, stripWidth, previewPaddingTop, photoHeight,
    previewPhotoGap, previewDatePadding, photoWidth.
  repeat split; lia.
Qed.


(** X4: a job triggers at most one download.  The file has the size of
    the canvas and holds every photo of the strip; the last thing
    painted in it is the label, the time of the capture; whatever is
    painted on the canvas after the file was made is stickers, which the
    file does not hold; and once the file is made, no load makes
    another. *)
Theorem download_once_complete env style color j0 es :
  downloadPhotoStrip env style color true = Some j0 ->
  let j := job_run j0 es in
  let n := List.length (items (dl_capturedPhotos env)) in
  (List.length (downloads j) <= 1)%nat
  /\ (forall d, In d (downloads j) ->
        file_width d = stripWidth
        /\ file_height d = stripHeight (Z.of_nat n)
        /\ List.length (photo_draws (file_painted d)) = n
        /\ exists body label later,
             file_painted d = (body ++ [label])%list
             /\ shape label =
                  FillText (dl_captureTime env) (stripWidth / 2) (dateY (Z.of_nat n))
             /\ painted (ctx j) = (file_painted d ++ later)%list
             /\ forallb is_sticker later = true)
  /\ (forall e, downloads j <> [] -> downloads (job_step j e) = downloads j).
Proof.
  intros Hnew j n.
  pose proof (new_job_inv _ _ _ _ Hnew) as Hinv0.
  pose proof (job_run_inv j0 es Hinv0) as Hinv. fold j in Hinv.
  pose proof (job_run_more j0 es Hinv0 (new_job_more _ _ _ _ Hnew)) as Hmore.
  fold j in Hmore.
  destruct (new_job_spec _ _ _ _ Hnew) as (_ & He & Hw & Hh & _).
  destruct (job_run_env j0 es) as (Eenv & Ew & Eh). fold j in Eenv, Ew, Eh.
  assert (Hn : numPhotos j = Z.of_nat n).
  { unfold numPhotos. now rewrite Eenv, He. }
  pose proof (more_file j Hmore) as Hfile.
  split; [|split].
  - destruct (downloads j) as [|d l]; [cbn; lia|].
    destruct Hfile as [-> _]. cbn. lia.
  - intros d Hd.
    assert (Htrig : download_triggered j = true).
    { unfold download_triggered. destruct (downloads j); [destruct Hd|reflexivity]. }
    apply (inv_download j Hinv) in Htrig.
    destruct (downloads j) as [|d' l]; [destruct Hd|].
    destruct Hfile as [-> (Fw & Fh & Fpd & body & label & later & Fb & Fl & Fp & Fs)].
    destruct Hd as [<-|[]].
    rewrite Fw, Fh, Ew, Eh, Hw, Hh. fold n.
    split; [reflexivity|]. split; [reflexivity|]. split.
    + apply Nat2Z.inj. rewrite Fpd, (more_count j Hmore), Htrig. exact Hn.
    + exists body, label, later. rewrite Eenv, He, Hn in Fl. auto.
  - intros e Hne. destruct e as [index now|k]; cbn [job_step].
    + destruct (nth_error (items _) index) as [photo|]; [|reflexivity].
      destruct (nth_error (photo_loaded j) index) as [[|]|] eqn:Hflag;
        try reflexivity.
      destruct (awaited_no_download j index Hinv Hflag) as [Hnone _].
      contradiction.
    + destruct (nth_error (stickerImgs j) k) as [img|]; [|reflexivity].
      destruct (sticker_loaded img); [reflexivity|].
      now destruct (sticker_onload_spec img (mark_sticker k img j))
        as (_ & _ & _ & _ & _ & _ & Hd & _).
Qed.

(** X5: the filter is on the photos only.  Between two loads the context
    has the filter ['none'] and an empty save stack; every photo is
    painted under the resolved filter of the closure when the context
    takes it, and under ['none'] when it does not; the background, the
    header, the label and every sticker are painted under ['none']. *)
Theorem filter_only_on_photos env style color j0 es :
  downloadPhotoStrip env style color true = Some j0 ->
  let j := job_run j0 es in
  ds_filter (cur (ctx j)) = "none"
  /\ saved (ctx j) = []
  /\ forall p, In p (painted (ctx j)) ->
       ds_filter (state p) = if is_photo p then photo_filter env else "none".
Proof.
  intros Hnew j.
  pose proof (new_job_inv _ _ _ _ Hnew) as Hinv0.
  pose proof (job_run_more j0 es Hinv0 (new_job_more _ _ _ _ Hnew)) as Hmore.
  fold j in Hmore.
  destruct (new_job_spec _ _ _ _ Hnew) as (_ & He & _).
  destruct (job_run_env j0 es) as (Eenv & _). fold j in Eenv.
  split; [apply (more_filter j Hmore)|]. split; [apply (more_saved j Hmore)|].
  intros p Hin. pose proof (more_painted j Hmore) as Hall.
  rewrite Forall_forall in Hall. rewrite (Hall p Hin), Eenv, He. reflexivity.
Qed.

(** X6: whatever the style class, the synchronous part of
    [downloadPhotoStrip] first fills the whole canvas, under no
    transform, then paints the decorations of the style, stroked or
    filled paths only, and last the header, centred on the middle of the
    strip at height 40; a style class the [switch] has no case for has
    no decoration and, ['#ffffff'] being a colour, a white background. *)
Theorem background_then_header env style color j0 :
  downloadPhotoStrip env style color true = Some j0 ->
  let chosen :=
    match style with Some s => s | None => dl_selectedStripStyle env end in
  exists bg decor header,
    painted (ctx j0) = (bg :: decor ++ [header])%list
    /\ shape bg = FillRect 0 0 (canvas_width j0) (canvas_height j0)
    /\ ds_xform (state bg) = []
    /\ Forall decoration decor
    /\ shape header = FillText "Captured by FotoJB" 220 40
    /\ ds_textAlign (state header) = "center"
    /\ ds_xform (state header) = []
    /\ (~ In chosen styled ->
        decor = []
        /\ (css_valid CssColor "#ffffff" = true ->
            ds_fillStyle (state bg) = "#ffffff")).
Proof.
  intros Hnew chosen.
  destruct (new_job_spec _ _ _ _ Hnew) as (_ & _ & Hw & Hh & _ & _ & _ & _ & Hadds).
  destruct Hadds as (Hx0 & _).
  unfold downloadPhotoStrip in Hnew. fold chosen in Hnew.
  destruct (List.length (items (dl_capturedPhotos env)) =? 0)%nat; [discriminate|].
  cbn [negb] in Hnew. injection Hnew as <-. cbn [ctx canvas_width canvas_height] in *.
  match goal with |- context [paint_background chosen ?col ?w ?h new_ctx] =>
    destruct (paint_background_first chosen col w h new_ctx)
      as (c0 & decor & Hp & Hf & Hdef);
    destruct (draw_header_centred (paint_background chosen col w h new_ctx))
      as (d & Hd & Ha & Hxd);
    pose proof (adds_paint_background chosen col w h new_ctx) as (Hxb & _)
  end.
  cbn [new_ctx painted app] in Hp.
  eexists _, decor, _. rewrite Hd, Hp. cbn [app].
  split; [reflexivity|]. cbn [shape state]. split; [reflexivity|].
  split; [now rewrite xform_set_fillStyle|]. split; [exact Hf|].
  split; [reflexivity|]. split; [exact Ha|].
  split; [now rewrite Hxd, Hxb|].
  intros Hn. destruct (Hdef Hn) as [-> ->]. split; [reflexivity|].
  intros Hv. unfold set_fillStyle. now rewrite Hv.
Qed.

(** ** More about the component *)

(** *** The cells the sequence shows its countdown in *)

Lemma after_countdown_overlay cl w i c :
  isCountingDown (st (after_countdown cl w i c)) = false.
Proof.
  unfold after_countdown.
  destruct (capturePhoto _ w); destruct (i <? 2); reflexivity.
Qed.

Lemma countdown_from_overlay cl w i count c :
  let c' := countdown_from cl w i count c in
  if 0 <? count
  then isCountingDown (st c') = isCountingDown (st c)
       /\ countdownValue (st c') = count
  else isCountingDown (st c') = false.
Proof.
  unfold countdown_from. destruct (0 <? count).
  - split; reflexivity.
  - apply after_countdown_overlay.
Qed.

Lemma shot_loop_from_overlay cl w i c :
  let c' := shot_loop_from cl w i c in
  if i <? 3
  then if 0 <? st_countdownTime cl
       then isCountingDown (st c') = true
            /\ countdownValue (st c') = st_countdownTime cl
       else isCountingDown (st c') = false
  else isCountingDown (st c') = isCountingDown (st c).
Proof.
  unfold shot_loop_from. destruct (i <? 3); [|reflexivity].
  pose proof (countdown_from_overlay cl w i (st_countdownTime cl)
                (setIsCountingDown true c)) as H.
  cbv zeta in H. destruct (0 <? st_countdownTime cl); exact H.
Qed.

Lemma handle_overlay c e : comp_inv c -> overlay_ok c -> overlay_ok (handle e c).
Proof.
  intros Hinv Hov. unfold overlay_ok in *.
  destruct e as [|o|now w|w|i|i|color]; cbn [handle].
  - exact Hov.
  - exact Hov.
  - destruct (start_disabled (st c)) eqn:Hdis; [exact Hov|].
    unfold start_disabled in Hdis. apply orb_false_iff in Hdis.
    destruct Hdis as [Hcap _].
    rewrite (ci_start c Hinv). unfold startPhotoSequence. cbn [st_isCapturing].
    rewrite Hcap.
    set (cl := {| st_isCapturing := false; st_countdownTime := countdownTime (st c);
                  st_capturePhoto := {| cap_activeFilter := activeFilter (st c) |} |}).
    set (c1 := setCaptureTime now (setCapturedPhotos (fun _ => []) (setIsCapturing true c))).
    destruct (shot_loop_from_spec cl w 0 c1) as (_ & _ & _ & Pe & _).
    pose proof (shot_loop_from_overlay cl w 0 c1) as Ho. cbv zeta in Ho.
    assert (Hpos : (0 <? countdownTime (st c)) = true)
      by (apply Z.ltb_lt; pose proof (ci_countdown c Hinv); lia).
    cbn [st_countdownTime cl] in Pe, Ho. rewrite Hpos in Pe, Ho.
    change (0 <? 3) with true in Pe, Ho. cbv iota in Pe, Ho.
    rewrite Pe. cbn [run_at run_closure st_countdownTime].
    destruct Ho as [-> ->]. repeat split.
    change (st_countdownTime cl) with (countdownTime (st c)). lia.
  - destruct (pending c) as [[cl a]|] eqn:Hp; [|now rewrite Hp].
    pose proof (ci_pending c Hinv) as Hpend. rewrite Hp in Hpend.
    cbn [run_at run_closure] in Hpend, Hov.
    destruct Hpend as (_ & Hok & Hcl & _).
    unfold resume. cbn [run_at run_closure].
    destruct a as [i count|i]; cbn [await_ok] in Hok.
    + destruct (countdown_from_spec cl w i (count - 1) c) as (_ & _ & _ & Pe & _).
      pose proof (countdown_from_overlay cl w i (count - 1) c) as Ho.
      cbv zeta in Ho. rewrite Pe.
      destruct (0 <? count - 1).
      * cbn [run_at run_closure]. destruct Ho as [-> ->].
        destruct Hov as (H1 & _ & H3). repeat split; [exact H1|lia].
      * destruct (i <? 2); exact Ho.
    + destruct (shot_loop_from_spec cl w (i + 1) c) as (_ & _ & _ & Pe & _).
      pose proof (shot_loop_from_overlay cl w (i + 1) c) as Ho. cbv zeta in Ho.
      assert (H3 : (i + 1 <? 3) = true) by (apply Z.ltb_lt; lia).
      assert (Hpos : (0 <? st_countdownTime cl) = true) by (apply Z.ltb_lt; lia).
      rewrite H3, Hpos in Pe, Ho. rewrite Pe. cbn [run_at run_closure].
      destruct Ho as [-> ->]. repeat split. lia.
  - destruct (nth_error filters i); exact Hov.
  - destruct (strip_shown (st c)), (nth_error stripStyles i); exact Hov.
  - destruct (color_shown (st c)); exact Hov.
Qed.

Lemma run_overlay es : forall c, comp_inv c -> overlay_ok c -> overlay_ok (run c es).
Proof.
  induction es as [|e es IH]; intros c Hinv Hov; [exact Hov|].
  rewrite run_cons. apply IH; [now apply step_inv|].
  pose proof (handle_overlay c e Hinv Hov) as H.
  unfold overlay_ok in *. now rewrite pending_step, st_step.
Qed.

(** *** The cells a handler leaves alone *)

Lemma startPhotoSequence_keeps cl now w c :
  let c' := startPhotoSequence cl now w c in
  stream (st c') = stream (st c)
  /\ selectedStripStyle (st c') = selectedStripStyle (st c)
  /\ customColor (st c') = customColor (st c)
  /\ activeFilter (st c') = activeFilter (st c).
Proof.
  unfold startPhotoSequence. destruct (st_isCapturing cl); [auto|].
  set (c1 := setCaptureTime now (setCapturedPhotos (fun _ => []) (setIsCapturing true c))).
  destruct (shot_loop_from_spec cl w 0 c1) as (K & _).
  cbv zeta. rewrite (k_stream _ _ K), (k_style _ _ K), (k_color _ _ K),
    (k_filter _ _ K). auto.
Qed.

Lemma resume_keeps r w c :
  let c' := resume r w c in
  stream (st c') = stream (st c)
  /\ selectedStripStyle (st c') = selectedStripStyle (st c)
  /\ customColor (st c') = customColor (st c)
  /\ activeFilter (st c') = activeFilter (st c).
Proof.
  unfold resume. destruct (run_at r) as [i count|i].
  - destruct (countdown_from_spec (run_closure r) w i (count - 1) c) as (K & _).
    cbv zeta. rewrite (k_stream _ _ K), (k_style _ _ K), (k_color _ _ K),
      (k_filter _ _ K). auto.
  - destruct (shot_loop_from_spec (run_closure r) w (i + 1) c) as (K & _).
    cbv zeta. rewrite (k_stream _ _ K), (k_style _ _ K), (k_color _ _ K),
      (k_filter _ _ K). auto.
Qed.

Lemma handle_stream c e :
  stream (st (handle e c)) =
    if is_camera_ready e then Some LiveStream else stream (st c).
Proof.
  destruct e as [|o|now w|w|i|i|color]; cbn [handle is_camera_ready];
    try reflexivity.
  - destruct (start_disabled (st c)); [reflexivity|].
    apply startPhotoSequence_keeps.
  - destruct (pending c) as [r|]; [|reflexivity]. apply resume_keeps.
  - now destruct (nth_error filters i).
  - now destruct (strip_shown (st c)), (nth_error stripStyles i).
  - now destruct (color_shown (st c)).
Qed.

Lemma run_stream es :
  forall c,
    stream (st (run c es)) =
      if existsb is_camera_ready es then Some LiveStream else stream (st c).
Proof.
  induction es as [|e es IH]; intros c; [reflexivity|].
  rewrite run_cons, IH, st_step, handle_stream. cbn [existsb].
  destruct (is_camera_ready e), (existsb is_camera_ready es); reflexivity.
Qed.

Lemma handle_style c e :
  selectedStripStyle (st c) = "strip-custom" ->
  selectedStripStyle (st (handle e c)) = "strip-custom".
Proof.
  intros Hs. destruct e as [|o|now w|w|i|i|color]; cbn [handle]; try exact Hs.
  - destruct (start_disabled (st c)); [exact Hs|].
    now rewrite (proj1 (proj2 (startPhotoSequence_keeps _ now w c))).
  - destruct (pending c) as [r|]; [|exact Hs].
    now rewrite (proj1 (proj2 (resume_keeps r w c))).
  - now destruct (nth_error filters i).
  - destruct (strip_shown (st c)); [|exact Hs].
    destruct i as [|[|i]]; cbn; auto.
  - now destruct (color_shown (st c)).
Qed.

Lemma reachable_style c : reachable c -> selectedStripStyle (st c) = "strip-custom".
Proof.
  intros [es ->]. induction es as [|e es IH] using rev_ind; [reflexivity|].
  unfold run in *. rewrite fold_left_app. cbn [fold_left].
  rewrite st_step. now apply handle_style.
Qed.

Lemma reachable_capture c :
  reachable c ->
  m_capturePhoto (memo c) = {| cap_activeFilter := activeFilter (st c) |}.
Proof.
  intros [es ->]. induction es as [|e es IH] using rev_ind; [reflexivity|].
  assert (Hinv : comp_inv (run initial es)) by (apply run_inv, initial_inv).
  unfold run in *. rewrite fold_left_app. cbn [fold_left].
  set (c := fold_left step es initial) in *.
  destruct (handle_inv c e Hinv) as (_ & Hmemo & _). cbv zeta in Hmemo.
  unfold step. destruct (same_state (st c) (st (handle e c))) eqn:Hsame.
  - destruct (same_state_fields _ _ Hsame) as (_ & _ & Ff & _).
    now rewrite Hmemo, IH, Ff.
  - cbn [rerender memo st]. apply render_capture.
Qed.

Lemma handle_filter c e :
  In (activeFilter (st c)) filters -> In (activeFilter (st (handle e c))) filters.
Proof.
  intros Hf. destruct e as [|o|now w|w|i|i|color]; cbn [handle]; try exact Hf.
  - destruct (start_disabled (st c)); [exact Hf|].
    destruct (startPhotoSequence_keeps (m_startPhotoSequence (memo c)) now w c)
      as (_ & _ & _ & E).
    cbv zeta in E. now rewrite E.
  - destruct (pending c) as [r|]; [|exact Hf].
    destruct (resume_keeps r w c) as (_ & _ & _ & E). cbv zeta in E. now rewrite E.
  - destruct (nth_error filters i) as [f|] eqn:E; [|exact Hf].
    change (In f filters). eapply nth_error_In. exact E.
  - now destruct (strip_shown (st c)), (nth_error stripStyles i).
  - now destruct (color_shown (st c)).
Qed.

Lemma reachable_filter c : reachable c -> In (activeFilter (st c)) filters.
Proof.
  intros [es ->]. induction es as [|e es IH] using rev_ind; [now left|].
  unfold run in *. rewrite fold_left_app. cbn [fold_left].
  rewrite st_step. now apply handle_filter.
Qed.

(** *** White space around a string *)

Lemma trimStart_head s :
  match JS.trimStart s with
  | EmptyString => True
  | String c _ => JS.is_ws c = false
  end.
Proof.
  induction s as [|c s IH]; cbn [JS.trimStart]; [exact I|].
  destruct (JS.is_ws c) eqn:E; [exact IH|exact E].
Qed.

Lemma trimEnd_idem s : JS.trimEnd (JS.trimEnd s) = JS.trimEnd s.
Proof.
  induction s as [|c s IH]; cbn [JS.trimEnd]; [reflexivity|].
  destruct (JS.trimEnd s) as [|c' s'] eqn:E.
  - destruct (JS.is_ws c) eqn:Ec; cbn [JS.trimEnd]; [reflexivity|now rewrite Ec].
  - cbn [JS.trimEnd]. cbn [JS.trimEnd] in IH.
    destruct (JS.trimEnd s') as [|c'' s''] eqn:E'.
    + destruct (JS.is_ws c'); [discriminate IH|]. now rewrite IH.
    + now rewrite IH.
Qed.

Lemma trimEnd_head c s :
  JS.is_ws c = false -> exists r, JS.trimEnd (String c s) = String c r.
Proof.
  intros Hc. cbn [JS.trimEnd]. destruct (JS.trimEnd s); [rewrite Hc|]; eauto.
Qed.

Lemma trim_idem s : JS.trim (JS.trim s) = JS.trim s.
Proof.
  unfold JS.trim. pose proof (trimStart_head s) as H.
  destruct (JS.trimStart s) as [|c r]; [reflexivity|].
  destruct (trimEnd_head c r H) as (r' & E).
  rewrite E. cbn [JS.trimStart]. rewrite H, <- E. apply trimEnd_idem.
Qed.

Lemma last_default {A} (l : list A) : forall a d d', last (a :: l) d = last (a :: l) d'.
Proof.
  induction l as [|b l IH]; intros a d d'; [reflexivity|].
  change (last (a :: b :: l) d) with (last (b :: l) d).
  change (last (a :: b :: l) d') with (last (b :: l) d'). apply IH.
Qed.

Lemma trimEnd_last s :
  match JS.trimEnd s with
  | EmptyString => True
  | String c r =>
      JS.is_ws (last (list_ascii_of_string (String c r)) c) = false
  end.
Proof.
  induction s as [|c s IH]; cbn [JS.trimEnd]; [exact I|].
  destruct (JS.trimEnd s) as [|c' r'].
  - destruct (JS.is_ws c) eqn:E; [exact I|exact E].
  - cbn [list_ascii_of_string] in *.
    change (last (c :: c' :: list_ascii_of_string r') c)
      with (last (c' :: list_ascii_of_string r') c).
    rewrite (last_default (list_ascii_of_string r') c' c c'). exact IH.
Qed.

(** *** The timeouts a sequence takes *)

Lemma remaining_pos c r :
  comp_inv c -> pending c = Some r -> (1 <= remaining r)%nat.
Proof.
  intros Hinv Hp. pose proof (ci_pending c Hinv) as Hpend. rewrite Hp in Hpend.
  destruct r as [cl a]. cbn [run_at run_closure] in Hpend.
  destruct Hpend as (_ & Hok & Hcl & _).
  unfold remaining. cbn [run_at run_closure].
  destruct a as [i count|i]; cbn [await_ok] in Hok; nia.
Qed.

Lemma remaining_step c r e :
  comp_inv c -> pending c = Some r -> is_start e = false ->
  match pending (step c e) with
  | Some r' =>
      run_closure r' = run_closure r
      /\ (remaining r' + timers [e] = remaining r)%nat
  | None => timers [e] = 1%nat /\ remaining r = 1%nat
  end.
Proof.
  intros Hinv Hp He. destruct r as [cl a].
  destruct e as [|o|now w|w|i|i|color]; try discriminate He;
    try (destruct (quiet_step c _ He) as (P & _);
         [intros w' E; discriminate E|]; rewrite P, Hp; cbn; split; [reflexivity|lia]).
  pose proof (ci_pending c Hinv) as Hpend. rewrite Hp in Hpend.
  cbn [run_at run_closure] in Hpend. destruct Hpend as (_ & Hok & Hcl & _).
  destruct (timer_step c w cl a Hinv Hp) as (P & _). cbv zeta in P. rewrite P.
  change (timers [TimerFired w]) with 1%nat.
  unfold remaining. cbn [run_at run_closure].
  destruct a as [i count|i]; cbn [await_ok] in Hok.
  - destruct (Z.ltb_spec 0 (count - 1)).
    + cbn [run_at run_closure]. split; [reflexivity|nia].
    + destruct (Z.ltb_spec i 2).
      * cbn [run_at run_closure]. split; [reflexivity|nia].
      * split; [reflexivity|nia].
  - cbn [run_at run_closure]. split; [reflexivity|nia].
Qed.

Lemma timers_cons e es : timers (e :: es) = (timers [e] + timers es)%nat.
Proof. unfold timers. cbn [List.filter]. destruct e; reflexivity. Qed.

Lemma remaining_run es :
  forall c r,
    comp_inv c -> pending c = Some r ->
    forallb (fun e => negb (is_start e)) es = true ->
    match pending (run c es) with
    | Some r' =>
        run_closure r' = run_closure r
        /\ (remaining r' + timers es = remaining r)%nat
    | None => (remaining r <= timers es)%nat
    end.
Proof.
  induction es as [|e es IH]; intros c r Hinv Hp Hns.
  - cbn [run fold_left]. rewrite Hp. split; [reflexivity|]. cbn. lia.
  - cbn [forallb] in Hns. apply andb_true_iff in Hns. destruct Hns as [He Hes].
    apply negb_true_iff in He.
    rewrite run_cons, timers_cons.
    pose proof (remaining_step c r e Hinv Hp He) as Hstep.
    destruct (pending (step c e)) as [r1|] eqn:Hp1.
    + destruct Hstep as [Hcl Hrem].
      pose proof (IH (step c e) r1 (step_inv c e Hinv) Hp1 Hes) as Hrun.
      destruct (pending (run (step c e) es)) as [r2|].
      * destruct Hrun as [Hcl2 Hrem2]. split; [congruence|lia].
      * lia.
    + destruct Hstep as [Ht Hrem].
      destruct (idle_trace es (step c e) Hp1 Hes) as (-> & _). lia.
Qed.

(** ** More properties of the component *)

(** X7: the countdown overlay is shown exactly while the call is
    suspended on a tick of a countdown, and then shows the seconds that
    are left, from the countdown of the call down to 1; in the pause
    between two shots and when no sequence runs it is not shown. *)
Theorem countdown_overlay c :
  reachable c ->
  (isCountingDown (st c) = true <->
   exists r i count, pending c = Some r /\ run_at r = AwaitTick i count)
  /\ (forall r i count,
        pending c = Some r -> run_at r = AwaitTick i count ->
        countdownValue (st c) = count
        /\ 1 <= count <= st_countdownTime (run_closure r)).
Proof.
  intros [es ->].
  assert (Hinv : comp_inv (run initial es)) by (apply run_inv, initial_inv).
  assert (Hov : overlay_ok (run initial es)).
  { apply run_overlay; [apply initial_inv|reflexivity]. }
  pose proof (ci_pending _ Hinv) as Hpend.
  unfold overlay_ok in Hov.
  destruct (pending (run initial es)) as [[cl a]|].
  - cbn [run_at run_closure] in *. destruct Hpend as (_ & Hok & _).
    destruct a as [i count|i]; cbn [await_ok] in Hok.
    + destruct Hov as (H1 & H2 & H3). split.
      * split; [intros _; now exists {| run_closure := cl; run_at := AwaitTick i count |}, i, count|auto].
      * intros r i' count' [= <-] [= <- <-]. cbn [run_closure]. split; [exact H2|lia].
    + split.
      * split; [congruence|]. intros (r & i' & count & [= <-] & E). discriminate E.
      * intros r i' count [= <-] E. discriminate E.
  - split.
    + split; [congruence|]. intros (r & i & count & E & _). discriminate E.
    + intros r i count E. discriminate E.
Qed.

(** X8: a sequence that was started ends exactly when the timeouts of
    three countdowns and two pauses have fired since the click, counted
    with the countdown that was selected at the click.  Whatever else
    happens in between, a new countdown or filter chosen, a colour
    picked, does not change the call that is running: until it ends it
    holds the countdown and the filter of the click. *)
Theorem sequence_ends_after_timers c0 now w es :
  reachable c0 ->
  start_disabled (st c0) = false ->
  forallb (fun e => negb (is_start e)) es = true ->
  let c := run c0 (ClickStart now w :: es) in
  let T := countdownTime (st c0) in
  (pending c = None <-> 3 * T + 2 <= Z.of_nat (timers es))
  /\ (forall r,
        pending c = Some r ->
        st_countdownTime (run_closure r) = T
        /\ cap_activeFilter (st_capturePhoto (run_closure r)) = activeFilter (st c0)
        /\ Z.of_nat (remaining r) = 3 * T + 2 - Z.of_nat (timers es)).
Proof.
  intros Hreach Hen Hns c T.
  pose proof (reachable_inv c0 Hreach) as Hinv0.
  pose proof (ci_countdown c0 Hinv0) as HT. fold T in HT.
  destruct (start_step c0 now w Hinv0 Hen) as (Hp1 & _). cbv zeta in Hp1.
  pose proof (step_inv c0 (ClickStart now w) Hinv0) as Hinv1.
  pose proof (remaining_run es _ _ Hinv1 Hp1 Hns) as Hrun.
  assert (Hc : c = run (step c0 (ClickStart now w)) es) by reflexivity.
  rewrite <- Hc in Hrun.
  unfold remaining in Hrun at 2 3. cbn [run_at run_closure st_countdownTime] in Hrun.
  fold T in Hrun.
  assert (Hinv : comp_inv c) by (rewrite Hc; now apply run_inv).
  destruct (pending c) as [r|] eqn:Hp.
  - destruct Hrun as [Hcl Hrem].
    pose proof (remaining_pos c r Hinv Hp) as Hpos.
    split.
    + split; [discriminate|]. intros Hle. nia.
    + intros r' [= <-]. rewrite Hcl. cbn [st_countdownTime st_capturePhoto
                                            cap_activeFilter].
      split; [reflexivity|]. split; [reflexivity|]. nia.
  - split.
    + split; [intros _; nia|reflexivity].
    + intros r E. discriminate E.
Qed.

(** X9: the capture button is enabled exactly when the camera has been
    granted and no call of [startPhotoSequence] is suspended; the stream
    once set is never taken back, so after a sequence has ended the
    button is enabled again. *)
Theorem capture_button_enabled es :
  let c := run initial es in
  (start_disabled (st c) = false <->
   pending c = None /\ existsb is_camera_ready es = true)
  /\ (isCapturing (st c) = true <-> pending c <> None)
  /\ (forall es', stream (st c) <> None -> stream (st (run c es')) <> None).
Proof.
  intros c.
  assert (Hinv : comp_inv c) by (apply run_inv, initial_inv).
  pose proof (ci_pending c Hinv) as Hpend.
  pose proof (run_stream es initial) as Hs. fold c in Hs.
  change (stream (st initial)) with (@None MediaStream) in Hs.
  unfold start_disabled. rewrite Hs.
  split; [|split].
  - destruct (pending c) as [r|]; destruct Hpend as [-> _];
      destruct (existsb is_camera_ready es); cbn; split;
      try discriminate; try tauto; intros [H1 H2]; discriminate.
  - destruct (pending c) as [r|]; destruct Hpend as [-> _];
      split; try discriminate; try congruence.
  - intros es' Hne. rewrite run_stream.
    destruct (existsb is_camera_ready es'); [discriminate|].
    now rewrite Hs.
Qed.

(** X10: the dependency lists of [capturePhoto] and of
    [startPhotoSequence] are complete: in every state the page can
    reach, the two functions the page holds read the filter, the
    countdown and [isCapturing] of the current state; and of what
    [downloadPhotoStrip] reads, the photos, the style, the time of the
    capture and the sticker theme are those of the current state. *)
Theorem callbacks_fresh c :
  reachable c ->
  cap_activeFilter (m_capturePhoto (memo c)) = activeFilter (st c)
  /\ st_capturePhoto (m_startPhotoSequence (memo c)) = m_capturePhoto (memo c)
  /\ st_countdownTime (m_startPhotoSequence (memo c)) = countdownTime (st c)
  /\ st_isCapturing (m_startPhotoSequence (memo c)) = isCapturing (st c)
  /\ dl_capturedPhotos (m_downloadPhotoStrip (memo c)) = capturedPhotos (st c)
  /\ dl_selectedStripStyle (m_downloadPhotoStrip (memo c)) = selectedStripStyle (st c)
  /\ dl_captureTime (m_downloadPhotoStrip (memo c)) = captureTime (st c)
  /\ dl_selectedStickerTheme (m_downloadPhotoStrip (memo c))
     = selectedStickerTheme (st c).
Proof.
  intros Hreach. pose proof (reachable_inv c Hreach) as Hinv.
  rewrite (reachable_capture c Hreach), (ci_start c Hinv).
  cbn [cap_activeFilter st_capturePhoto st_countdownTime st_isCapturing].
  destruct (ci_theme c Hinv) as [-> ->].
  repeat split; first [apply (ci_photos c Hinv) | apply (ci_style c Hinv)
                      | apply (ci_time c Hinv)].
Qed.

(** The canvas of a new job in the custom-colour style. *)
Lemma custom_job_painted env color j0 :
  let supplied :=
    match color with Some c => c | None => dl_customColor env end in
  css_valid CssColor supplied = true ->
  downloadPhotoStrip env (Some "strip-custom") color true = Some j0 ->
  exists d,
    painted (ctx j0) =
      [ {| shape := FillRect 0 0 (canvas_width j0) (canvas_height j0);
           state :=
             {| ds_fillStyle := supplied; ds_strokeStyle := "#000000";
                ds_lineWidth := 1; ds_font := "10px sans-serif";
                ds_textAlign := "start"; ds_filter := "none"; ds_xform := [] |} |};
        {| shape := FillText "Captured by FotoJB" (stripWidth / 2) 40;
           state := d |} ].
Proof.
  intros supplied Hvalid Hnew.
  destruct (new_job_spec _ _ _ _ Hnew) as (_ & _ & Hw & Hh & _).
  rewrite Hw, Hh. clear Hw Hh.
  unfold downloadPhotoStrip in Hnew.
  destruct (List.length (items (dl_capturedPhotos env)) =? 0)%nat; [discriminate|].
  cbn [negb] in Hnew. injection Hnew as <-. cbn [ctx].
  match goal with |- context [draw_header ?c] =>
    destruct (draw_header_painted c) as (d & Hd) end.
  exists d. rewrite Hd.
  change (paint_background "strip-custom" ?c ?w ?h ?x)
    with (fillRect 0 0 w h (set_fillStyle c x)).
  unfold fillRect. rewrite painted_paint. unfold set_fillStyle.
  fold supplied. rewrite Hvalid. reflexivity.
Qed.

(** X11: a download started from the page, in whatever state the page
    can reach: the style is the custom colour, the only one the page
    offers; the strip is made of the photos and the time the page shows;
    its background is the colour the colour input shows, when it is a
    colour; and no sticker image is made and no sticker painted, the
    page having no way to choose a theme. *)
Theorem download_from_page c j0 es :
  reachable c ->
  click_download c true = Some j0 ->
  let j := job_run j0 es in
  selectedStripStyle (st c) = "strip-custom"
  /\ dl_capturedPhotos (job_env j) = capturedPhotos (st c)
  /\ dl_captureTime (job_env j) = captureTime (st c)
  /\ numPhotos j = Z.of_nat (List.length (items (capturedPhotos (st c))))
  /\ stickerImgs j = []
  /\ (forall p, In p (painted (ctx j)) -> is_sticker p = false)
  /\ (css_valid CssColor (customColor (st c)) = true ->
      exists rest,
        painted (ctx j) =
          {| shape := FillRect 0 0 (canvas_width j) (canvas_height j);
             state :=
               {| ds_fillStyle := customColor (st c); ds_strokeStyle := "#000000";
                  ds_lineWidth := 1; ds_font := "10px sans-serif";
                  ds_textAlign := "start"; ds_filter := "none";
                  ds_xform := [] |} |} :: rest).
Proof.
  intros Hreach Hclick j.
  pose proof (reachable_inv c Hreach) as Hc.
  pose proof (reachable_style c Hreach) as Hstyle.
  unfold click_download in Hclick.
  destruct (strip_shown (st c)); [|discriminate]. rewrite Hstyle in Hclick.
  pose proof (new_job_inv _ _ _ _ Hclick) as Hinv0.
  pose proof (job_run_inv j0 es Hinv0) as Hinv. fold j in Hinv.
  destruct (new_job_spec _ _ _ _ Hclick) as (_ & He & _).
  destruct (job_run_env j0 es) as (Eenv & Ew & Eh). fold j in Eenv, Ew, Eh.
  assert (Eth : dl_selectedStickerTheme (job_env j) = "none").
  { rewrite Eenv, He. apply (ci_theme c Hc). }
  split; [exact Hstyle|].
  split; [rewrite Eenv, He; apply (ci_photos c Hc)|].
  split; [rewrite Eenv, He; apply (ci_time c Hc)|].
  split; [unfold numPhotos; now rewrite Eenv, He, (ci_photos c Hc)|].
  split; [|split].
  - destruct (stickerImgs j) as [|img l] eqn:E; [reflexivity|].
    exfalso. destruct (inv_stickers j Hinv img) as (_ & _ & _ & H).
    + rewrite E. now left.
    + rewrite Eth in H. discriminate H.
  - intros p Hin. unfold is_sticker.
    destruct (shape p) as [| | | |[s|url] x y w h] eqn:Hsh; try reflexivity.
    pose proof (inv_src j Hinv p url x y w h Hin Hsh) as H.
    rewrite Eth in H. discriminate H.
  - intros Hvalid.
    destruct (custom_job_painted _ (Some (customColor (st c))) j0 Hvalid Hclick)
      as (d & Hp0).
    destruct (job_run_painted j0 es) as (more & Hm & _). fold j in Hm.
    eexists. rewrite Hm, Hp0, Ew, Eh. cbn [app]. reflexivity.
Qed.

(** X22: in every state the page can reach, the active filter is one of
    the seven filters of the catalog, and exactly one filter button has
    the class [active]. *)
Theorem one_filter_button_active c :
  reachable c ->
  In (activeFilter (st c)) filters
  /\ List.length (List.filter (filter_button_active (st c)) filters) = 1%nat.
Proof.
  intros Hreach. pose proof (reachable_filter c Hreach) as Hin.
  split; [exact Hin|]. unfold filter_button_active.
  cbn in Hin.
  repeat (destruct Hin as [<-|Hin]; [reflexivity|]). destruct Hin.
Qed.

(** X23: the value the load handler of a photo gives to [ctx.filter] is
    never the empty string and has no white space around it, whatever
    the filter of the closure and whatever the computed styles hold:
    it is a trimmed value or ['none']. *)
Theorem resolved_filter_is_trimmed v :
  resolveFilter v <> ""
  /\ JS.trim (resolveFilter v) = resolveFilter v
  /\ (exists c r, resolveFilter v = String c r
                  /\ JS.is_ws c = false
                  /\ JS.is_ws (last (list_ascii_of_string (String c r)) c) = false).
Proof.
  assert (Hshape : exists x, resolveFilter v = JS.or (JS.trim x) "none").
  { unfold resolveFilter. cbv zeta. eexists. reflexivity. }
  destruct Hshape as (x & ->). unfold JS.or.
  destruct (JS.truthy (JS.trim x)) eqn:Ht.
  - split; [intros E; rewrite E in Ht; discriminate Ht|].
    split; [apply trim_idem|].
    unfold JS.trim in *. pose proof (trimStart_head x) as Hs.
    destruct (JS.trimStart x) as [|c r]; [discriminate Ht|].
    destruct (trimEnd_head c r Hs) as (r' & E).
    pose proof (trimEnd_last (String c r)) as Hl. rewrite E in Hl |- *.
    exists c, r'. auto.
  - split; [discriminate|]. split; [reflexivity|].
    exists "n"%char, "one". repeat split.
Qed.
End Facts.

(** * Properties of the sign-in service *)

(** ** Patterns *)

Lemma append_nil_r (s : string) : s ++ "" = s.
Proof. induction s as [|c s IH]; cbn; [reflexivity|now rewrite IH]. Qed.

Lemma append_assoc (a b c : string) : (a ++ b) ++ c = a ++ (b ++ c).
Proof. induction a as [|x a IH]; cbn; [reflexivity|now rewrite IH]. Qed.

Lemma append_eq_nil (a b : string) : a ++ b = "" -> a = "" /\ b = "".
Proof. destruct a; cbn; [auto|discriminate]. Qed.

Lemma inv_never s : Regex.Matches Regex.Never s -> False.
Proof. inversion 1. Qed.

Lemma inv_empty s : Regex.Matches Regex.Empty s -> s = "".
Proof. now inversion 1. Qed.

Lemma inv_class p s :
  Regex.Matches (Regex.Class p) s -> exists c, s = String c "" /\ p c = true.
Proof. inversion 1; subst; eauto. Qed.

Lemma inv_seq a b s :
  Regex.Matches (Regex.Seq a b) s ->
  exists s1 s2, s = s1 ++ s2 /\ Regex.Matches a s1 /\ Regex.Matches b s2.
Proof. inversion 1; subst; eauto. Qed.

Lemma inv_alt a b s :
  Regex.Matches (Regex.Alt a b) s -> Regex.Matches a s \/ Regex.Matches b s.
Proof. inversion 1; subst; auto. Qed.

Lemma nullable_spec r : Regex.nullable r = true <-> Regex.Matches r "".
Proof.
  induction r as [| |p|a IHa b IHb|a IHa b IHb|a IHa]; cbn [Regex.nullable].
  - split; [discriminate|]. intros H. now apply inv_never in H.
  - split; [intros _; constructor|reflexivity].
  - split; [discriminate|]. intros H. apply inv_class in H as (c & E & _).
    discriminate E.
  - rewrite andb_true_iff, IHa, IHb. split.
    + intros [Ha Hb]. exact (Regex.MSeq a b "" "" Ha Hb).
    + intros H. apply inv_seq in H as (s1 & s2 & E & Ha & Hb).
      symmetry in E. apply append_eq_nil in E as [-> ->]. now split.
  - rewrite orb_true_iff, IHa, IHb. split.
    + intros [H|H]; [now apply Regex.MAltL|now apply Regex.MAltR].
    + apply inv_alt.
  - split; [intros _; constructor|reflexivity].
Qed.

Lemma deriv_sound c r : forall s,
  Regex.Matches (Regex.deriv c r) s -> Regex.Matches r (String c s).
Proof.
  induction r as [| |p|a IHa b IHb|a IHa b IHb|a IHa]; intros s H;
    cbn [Regex.deriv] in H.
  - now apply inv_never in H.
  - now apply inv_never in H.
  - destruct (p c) eqn:Hp; [|now apply inv_never in H].
    apply inv_empty in H. subst s. now constructor.
  - assert (Hseq : Regex.Matches (Regex.Seq (Regex.deriv c a) b) s ->
                   Regex.Matches (Regex.Seq a b) (String c s)).
    { intros H1. apply inv_seq in H1 as (s1 & s2 & -> & Ha & Hb).
      exact (Regex.MSeq a b (String c s1) s2 (IHa _ Ha) Hb). }
    destruct (Regex.nullable a) eqn:Hn; [|now apply Hseq].
    apply inv_alt in H as [H|H]; [now apply Hseq|].
    apply nullable_spec in Hn.
    exact (Regex.MSeq a b "" (String c s) Hn (IHb _ H)).
  - apply inv_alt in H as [H|H]; [apply Regex.MAltL|apply Regex.MAltR]; auto.
  - apply inv_seq in H as (s1 & s2 & -> & Ha & Hb).
    exact (Regex.MStarCons a (String c s1) s2 (IHa _ Ha) Hb).
Qed.

Lemma deriv_complete r s' :
  Regex.Matches r s' ->
  forall c s, s' = String c s -> Regex.Matches (Regex.deriv c r) s.
Proof.
  induction 1 as [|p x Hp|a b s1 s2 Ha IHa Hb IHb|a b s0 Ha IHa|a b s0 Hb IHb
                  |a|a s1 s2 Ha IHa Hb IHb];
    intros c s E; cbn [Regex.deriv].
  - discriminate E.
  - injection E as -> <-. rewrite Hp. constructor.
  - destruct s1 as [|x s1]; cbn in E.
    + subst s2. assert (Hn : Regex.nullable a = true) by now apply nullable_spec.
      rewrite Hn. apply Regex.MAltR. now apply IHb.
    + injection E as -> <-.
      destruct (Regex.nullable a).
      * apply Regex.MAltL. constructor; [now apply IHa|exact Hb].
      * constructor; [now apply IHa|exact Hb].
  - apply Regex.MAltL. now apply IHa.
  - apply Regex.MAltR. now apply IHb.
  - discriminate E.
  - destruct s1 as [|x s1]; cbn in E.
    + now apply IHb.
    + injection E as -> <-. constructor; [now apply IHa|exact Hb].
Qed.

Lemma test_spec s : forall r, Regex.test r s = true <-> Regex.Matches r s.
Proof.
  induction s as [|c s IH]; intros r; cbn [Regex.test].
  - apply nullable_spec.
  - rewrite IH. split; [apply deriv_sound|].
    intros H. now apply (deriv_complete r _ H).
Qed.

(** The strings of a class, one character or more. *)

Lemma star_class_all p s :
  Regex.Matches (Regex.Star (Regex.Class p)) s <->
  forallb p (list_ascii_of_string s) = true.
Proof.
  split.
  - intros H. remember (Regex.Star (Regex.Class p)) as r eqn:Er.
    induction H as [| | | | |a|a s1 s2 Ha _ Hb IHb]; try discriminate Er.
    + reflexivity.
    + injection Er as ->. apply inv_class in Ha as (c & -> & Hc).
      cbn. now rewrite Hc, IHb.
  - induction s as [|c s IH]; cbn; intros H.
    + constructor.
    + apply andb_true_iff in H as [Hc Hs].
      exact (Regex.MStarCons _ (String c "") s (Regex.MClass p c Hc) (IH Hs)).
Qed.

Lemma plus_class_spec p s :
  Regex.Matches (Regex.Plus (Regex.Class p)) s <->
  s <> "" /\ forallb p (list_ascii_of_string s) = true.
Proof.
  unfold Regex.Plus. split.
  - intros H. apply inv_seq in H as (s1 & s2 & -> & Ha & Hb).
    apply inv_class in Ha as (c & -> & Hc). apply star_class_all in Hb. cbn.
    split; [discriminate|]. now rewrite Hc, Hb.
  - intros [Hne Hall]. destruct s as [|c s]; [contradiction|].
    cbn in Hall. apply andb_true_iff in Hall as [Hc Hs].
    exact (Regex.MSeq _ _ (String c "") s (Regex.MClass p c Hc)
             (proj2 (star_class_all p s) Hs)).
Qed.

Lemma char_spec c s :
  Regex.Matches (Regex.Class (Ascii.eqb c)) s <-> s = String c "".
Proof.
  split.
  - intros H. apply inv_class in H as (x & -> & Hx).
    apply Ascii.eqb_eq in Hx. now subst.
  - intros ->. constructor. apply Ascii.eqb_refl.
Qed.

Lemma literal_spec l : forall s, Regex.Matches (Regex.literal l) s <-> s = l.
Proof.
  induction l as [|c l IH]; intros s; cbn [Regex.literal].
  - split; [apply inv_empty|intros ->; constructor].
  - split.
    + intros H. apply inv_seq in H as (s1 & s2 & -> & Ha & Hb).
      apply char_spec in Ha. apply IH in Hb. now subst.
    + intros ->.
      apply (Regex.MSeq _ _ (String c "") l); [now apply char_spec|now apply IH].
Qed.

(** ** Strings *)

Lemma length_append (a b : string) :
  String.length (a ++ b) = (String.length a + String.length b)%nat.
Proof. induction a as [|c a IH]; cbn; [reflexivity|now rewrite IH]. Qed.

Lemma substring_all (s : string) : substring 0 (String.length s) s = s.
Proof. induction s as [|c s IH]; cbn; [reflexivity|now rewrite IH]. Qed.

Lemma substring_skip (a b : string) n :
  substring (String.length a) n (a ++ b) = substring 0 n b.
Proof. induction a as [|c a IH]; cbn; [reflexivity|exact IH]. Qed.

Lemma substring_split (s : string) : forall n,
  (n <= String.length s)%nat ->
  s = substring 0 n s ++ substring n (String.length s - n) s.
Proof.
  induction s as [|c s IH]; intros n Hn.
  - destruct n; reflexivity.
  - destruct n as [|n].
    + cbn [substring append]. cbn [String.length Nat.sub].
      now rewrite substring_all.
    + cbn [substring append String.length Nat.sub]. f_equal. apply IH.
      cbn in Hn. lia.
Qed.

Lemma endsWith_spec p s :
  JS.endsWith p s = true <-> exists x, s = x ++ p.
Proof.
  unfold JS.endsWith. rewrite andb_true_iff, Nat.leb_le, String.eqb_eq. split.
  - intros [Hle E].
    exists (substring 0 (String.length s - String.length p) s).
    rewrite (substring_split s (String.length s - String.length p)) at 1 by lia.
    f_equal. replace (String.length s - (String.length s - String.length p))%nat
      with (String.length p) by lia. exact E.
  - intros [x ->]. rewrite length_append. split; [lia|].
    replace (String.length x + String.length p - String.length p)%nat
      with (String.length x) by lia.
    rewrite substring_skip. apply substring_all.
Qed.

Lemma list_ascii_append (a b : string) :
  list_ascii_of_string (a ++ b) = (list_ascii_of_string a ++ list_ascii_of_string b)%list.
Proof. induction a as [|c a IH]; cbn; [reflexivity|now rewrite IH]. Qed.

(** Where the last [@] of a string is. *)
Lemma last_at_unique (a a' b b' : string) :
  a ++ String "@" b = a' ++ String "@" b' ->
  forallb (fun c => negb (Ascii.eqb c "@")) (list_ascii_of_string b) = true ->
  forallb (fun c => negb (Ascii.eqb c "@")) (list_ascii_of_string b') = true ->
  a = a' /\ b = b'.
Proof.
  revert a'. induction a as [|c a IH]; intros a' E Hb Hb'.
  - destruct a' as [|c' a']; cbn in E.
    + injection E as <-. now split.
    + injection E as <- ->. rewrite list_ascii_append, forallb_app in Hb.
      apply andb_true_iff in Hb as [_ Hb]. cbn in Hb. discriminate Hb.
  - destruct a' as [|c' a']; cbn in E.
    + injection E as -> <-. rewrite list_ascii_append, forallb_app in Hb'.
      apply andb_true_iff in Hb' as [_ Hb']. cbn in Hb'. discriminate Hb'.
    + injection E as <- E. destruct (IH a' E Hb Hb') as [-> ->]. now split.
Qed.

Lemma not_space_at_no_at s :
  forallb Regex.not_space_at (list_ascii_of_string s) = true ->
  forallb (fun c => negb (Ascii.eqb c "@")) (list_ascii_of_string s) = true.
Proof.
  intros H. rewrite forallb_forall in *. intros c Hc. specialize (H c Hc).
  unfold Regex.not_space_at in H. apply negb_true_iff in H.
  apply orb_false_iff in H as [_ H]. now rewrite H.
Qed.

Lemma trim_truthy c s :
  JS.is_ws c = false -> JS.truthy (JS.trim (String c s)) = true.
Proof.
  intros Hc. unfold JS.trim. cbn [JS.trimStart]. rewrite Hc.
  cbn [JS.trimEnd]. destruct (JS.trimEnd s); [now rewrite Hc|reflexivity].
Qed.

(** ** Base64 *)







Lemma btoa_truthy s : JS.truthy s = true -> JS.truthy (JS.btoa s) = true.
Proof.
  destruct s as [|[] [|[] [|[] r]]]; cbn [JS.btoa JS.truthy]; auto.
Qed.

(** ** The checks of an e-mail address *)

Lemma isValidGmailEmail_spec e :
  auth.isValidGmailEmail e = true <->
  exists l, e = l ++ "@gmail.com" /\ l <> ""
            /\ forallb Regex.not_space_at (list_ascii_of_string l) = true.
Proof.
  unfold auth.isValidGmailEmail, auth.emailRegex. rewrite test_spec. split.
  - intros H. apply inv_seq in H as (l & d & -> & Hl & Hd).
    apply plus_class_spec in Hl as [Hne Hall]. apply literal_spec in Hd. subst d.
    now exists l.
  - intros (l & -> & Hne & Hall). constructor.
    + now apply plus_class_spec.
    + now apply literal_spec.
Qed.

Lemma EMAIL_REGEX_spec e :
  Regex.test EMAIL_REGEX e = true <->
  exists l d1 d2,
    e = l ++ "@" ++ d1 ++ "." ++ d2
    /\ (l <> "" /\ forallb Regex.not_space_at (list_ascii_of_string l) = true)
    /\ (d1 <> "" /\ forallb Regex.not_space_at (list_ascii_of_string d1) = true)
    /\ (d2 <> "" /\ forallb Regex.not_space_at (list_ascii_of_string d2) = true).
Proof.
  unfold EMAIL_REGEX. rewrite test_spec. split.
  - intros H. apply inv_seq in H as (l & r1 & -> & Hl & H).
    apply inv_seq in H as (a & r2 & -> & Ha & H).
    apply inv_seq in H as (d1 & r3 & -> & Hd1 & H).
    apply inv_seq in H as (dot & d2 & -> & Hdot & Hd2).
    apply char_spec in Ha, Hdot. subst a dot.
    apply plus_class_spec in Hl, Hd1, Hd2.
    now exists l, d1, d2.
  - intros (l & d1 & d2 & -> & Hl & Hd1 & Hd2).
    constructor; [now apply plus_class_spec|].
    apply (Regex.MSeq _ _ "@"); [now apply char_spec|].
    constructor; [now apply plus_class_spec|].
    apply (Regex.MSeq _ _ "."); [now apply char_spec|].
    now apply plus_class_spec.
Qed.

Lemma valid_truthy e : auth.isValidGmailEmail e = true -> JS.truthy (JS.trim e) = true.
Proof.
  intros H. apply isValidGmailEmail_spec in H as (l & -> & Hne & Hall).
  destruct l as [|c l]; [contradiction|]. cbn [append].
  apply trim_truthy. cbn in Hall. apply andb_true_iff in Hall as [Hc _].
  unfold Regex.not_space_at in Hc. apply negb_true_iff in Hc.
  now apply orb_false_iff in Hc as [Hc _].
Qed.

Lemma valid_is_email e :
  auth.isValidGmailEmail e = true -> Regex.test EMAIL_REGEX e = true.
Proof.
  intros H. apply isValidGmailEmail_spec in H as (l & -> & Hne & Hall).
  apply EMAIL_REGEX_spec. exists l, "gmail", "com".
  repeat split; try assumption; try discriminate.
Qed.

Lemma form_email_valid e :
  Regex.test EMAIL_REGEX e = true ->
  JS.endsWith "@gmail.com" e = true ->
  auth.isValidGmailEmail e = true.
Proof.
  intros Hre Hend.
  apply EMAIL_REGEX_spec in Hre as (l & d1 & d2 & E & [Hl Hal] & [_ Ha1] & [_ Ha2]).
  apply endsWith_spec in Hend as (x & E').
  apply isValidGmailEmail_spec. exists l. split; [|now split].
  rewrite E' in E.
  change (x ++ "@gmail.com") with (x ++ String "@" "gmail.com") in E.
  change (l ++ "@" ++ d1 ++ "." ++ d2) with (l ++ String "@" (d1 ++ "." ++ d2)) in E.
  destruct (last_at_unique x l "gmail.com" (d1 ++ "." ++ d2) E) as [-> _];
    [reflexivity| |now rewrite E'].
  rewrite list_ascii_append, forallb_app, (not_space_at_no_at d1 Ha1).
  change ("." ++ d2) with (String "." d2). cbn.
  now rewrite (not_space_at_no_at d2 Ha2).
Qed.

Lemma valid_not_inherited e :
  auth.isValidGmailEmail e = true ->
  existsb (String.eqb e) auth.Object_prototype = false.
Proof.
  intros Hv. destruct (existsb _ _) eqn:E; [|reflexivity].
  apply existsb_exists in E as (k & Hin & Hk). apply String.eqb_eq in Hk. subst k.
  cbn in Hin.
  repeat (destruct Hin as [<-|Hin]; [vm_compute in Hv; discriminate Hv|]).
  destruct Hin.
Qed.

(** ** The table of users *)


Lemma set_absent users k u :
  find (fun kv => (fst kv =? k)%string) users = None ->
  auth.set users k u = (users ++ [(k, u)])%list.
Proof.
  induction users as [|kv users IH]; cbn [find auth.set app]; [reflexivity|].
  destruct (fst kv =? k)%string; [discriminate|]. intros H. now rewrite IH.
Qed.


Lemma get_own_in users k u :
  auth.get users k = auth.Own u -> In (k, u) users.
Proof.
  unfold auth.get. destruct (find _ users) as [[k' u']|] eqn:E.
  - intros [= <-]. apply find_some in E as [Hin Hk]. cbn in Hk.
    apply String.eqb_eq in Hk. now subst.
  - destruct (existsb _ _); discriminate.
Qed.

Lemma truthy_append_r a b : JS.truthy b = true -> JS.truthy (a ++ b) = true.
Proof. destruct a; [auto|reflexivity]. Qed.

Section AuthFacts.

Context {platform : auth.Platform}.

Lemma store_spec a key value w :
  auth.store a key value w =
    if auth.quota_exceeded a (area a w) key value
    then (Thrown (Error auth.quota_message), w)
    else (Returned tt, with_area a (setItem key value (area a w)) w).
Proof. reflexivity. Qed.

(** The users' entry is not the token's. *)
Lemma users_after_token a value w :
  auth.getStoredUsers (with_area a (setItem auth.TOKEN_STORAGE_KEY value (area a w)) w)
  = auth.getStoredUsers w.
Proof. destruct a; reflexivity. Qed.

Lemma token_after_users value w :
  auth.getToken (with_area LocalArea
                   (setItem auth.USERS_STORAGE_KEY value (localStorage w)) w)
  = auth.getToken w.
Proof. reflexivity. Qed.

Lemma token_present a value w :
  JS.truthy value = true ->
  auth.isAuthenticated
    (with_area a (setItem auth.TOKEN_STORAGE_KEY value (area a w)) w) = true.
Proof.
  intros Hv. unfold auth.isAuthenticated, auth.getToken, auth.or_null, getItem, setItem.
  destruct a; cbn [with_area localStorage sessionStorage].
  - rewrite String.eqb_refl, Hv. cbn. exact Hv.
  - rewrite String.eqb_refl.
    destruct (localStorage w auth.TOKEN_STORAGE_KEY) as [t|]; cbn; [|exact Hv].
    destruct (JS.truthy t) eqn:Ht; cbn; [exact Ht|exact Hv].
Qed.

(** What [register] does when its checks are passed. *)
Lemma register_checked email password name now_id suffix now w :
  auth.isValidGmailEmail email = true ->
  (6 <= String.length password)%nat ->
  let users := auth.getStoredUsers w in
  let newUser :=
    {| auth.id := auth.generateUserId now_id suffix;
       auth.email := email;
       auth.displayName :=
         JS.or (match name with Some n => JS.trim n | None => "" end)
               (JS.before "@" email);
       auth.hashedPasswordStub := auth.hashPassword password;
       auth.createdAt := now |} in
  let text := auth.JSON_stringify (users ++ [(email, newUser)])%list in
  auth.register email password name now_id suffix now w =
    match find (fun kv => (fst kv =? email)%string) users with
    | Some _ => (Thrown (Error "Account already exists. Try signing in."), w)
    | None =>
        if auth.quota_exceeded LocalArea (localStorage w) auth.USERS_STORAGE_KEY text
        then (Thrown (Error "Failed to save user data. Please try again."), w)
        else (Returned newUser,
              {| localStorage := setItem auth.USERS_STORAGE_KEY text (localStorage w);
                 sessionStorage := sessionStorage w |})
    end.
Proof.
  intros Hv Hlen users newUser text. unfold auth.register. rewrite Hv. cbn [negb].
  assert (Ht : JS.truthy password = true) by (destruct password; [cbn in Hlen; lia|reflexivity]).
  assert (Hl : (String.length password <? 6)%nat = false) by (apply Nat.ltb_ge; lia).
  rewrite Ht, Hl. cbn [negb orb]. fold users.
  unfold auth.get. rewrite (valid_not_inherited email Hv).
  destruct (find _ users) as [kv|] eqn:Hfind; [reflexivity|].
  fold newUser. rewrite (set_absent users email newUser Hfind). fold text.
  unfold auth.saveUsers. rewrite store_spec. cbn [area with_area].
  destruct (auth.quota_exceeded _ _ _ _); reflexivity.
Qed.

(** What [login] does when the address passes the check. *)
Lemma login_checked email password (remember : bool) now random w :
  auth.isValidGmailEmail email = true ->
  let a := if remember then LocalArea else SessionArea in
  let token := JS.btoa (email ++ ":" ++ JS.toString now ++ ":" ++ random) in
  auth.login email password remember now random w =
    match find (fun kv => (fst kv =? email)%string) (auth.getStoredUsers w) with
    | None =>
        (Thrown (Error "Account not found. Please create an account first."), w)
    | Some kv =>
        if (auth.hashPassword password =? auth.hashedPasswordStub (snd kv))%string
        then
          if auth.quota_exceeded a (area a w) auth.TOKEN_STORAGE_KEY token
          then (Thrown (Error auth.quota_message), w)
          else (Returned (auth.public (snd kv)),
                with_area a (setItem auth.TOKEN_STORAGE_KEY token (area a w)) w)
        else (Thrown (Error "Incorrect password."), w)
    end.
Proof.
  intros Hv a token. unfold auth.login. rewrite Hv. cbn [negb].
  unfold auth.get. rewrite (valid_not_inherited email Hv).
  destruct (find _ _) as [kv|]; [|reflexivity].
  destruct (_ =? _)%string; cbn [negb]; [|reflexivity].
  fold token. fold a. rewrite store_spec.
  destruct (auth.quota_exceeded _ _ _ _); reflexivity.
Qed.

Lemma login_unchecked email password remember now random w :
  auth.isValidGmailEmail email = false ->
  auth.login email password remember now random w =
    (Thrown (Error "Only @gmail.com accounts are allowed."), w).
Proof. intros Hv. unfold auth.login. now rewrite Hv. Qed.


(** What is known once [login] has returned: the table has an account,
    it is as it was, and a token is there. *)
Lemma login_returned email password remember now random w p w' :
  auth.login email password remember now random w = (Returned p, w') ->
  auth.getStoredUsers w <> []
  /\ auth.getStoredUsers w' = auth.getStoredUsers w
  /\ auth.isAuthenticated w' = true.
Proof.
  intros H.
  destruct (auth.isValidGmailEmail email) eqn:Hv.
  2:{ rewrite (login_unchecked _ _ _ _ _ _ Hv) in H. discriminate H. }
  rewrite (login_checked _ _ _ _ _ _ Hv) in H. cbv zeta in H.
  destruct (find _ _) as [[k user]|] eqn:Hfind; [|discriminate H].
  cbn [snd] in H.
  destruct (_ =? _)%string; [|discriminate H].
  destruct (auth.quota_exceeded _ _ _ _); [discriminate H|].
  injection H as <- <-.
  split; [|split].
  - intros E. rewrite E in Hfind. discriminate Hfind.
  - apply users_after_token.
  - apply token_present, btoa_truthy, truthy_append_r. reflexivity.
Qed.

(** ** Properties of the service and of its pages *)

(** X12: the check of the register form and the check of the service
    accept the same addresses: those made of one character or more,
    none a white space or an [@], followed by [@gmail.com]; the form of
    the login page accepts every such address (and others, which the
    service then refuses). *)
Theorem email_checks_agree e :
  (RegisterPage.validateEmail e = None <-> auth.isValidGmailEmail e = true)
  /\ (auth.isValidGmailEmail e = true -> LoginPage.validateEmail e = None)
  /\ (auth.isValidGmailEmail e = true <->
      exists l, e = l ++ "@gmail.com" /\ l <> ""
                /\ forallb Regex.not_space_at (list_ascii_of_string l) = true)
  /\ (LoginPage.validateEmail e = None ->
      auth.isValidGmailEmail e = JS.endsWith "@gmail.com" e).
Proof.
  pose proof (form_email_valid e) as Hkey.
  assert (Hend : auth.isValidGmailEmail e = true -> JS.endsWith "@gmail.com" e = true).
  { intros H. apply isValidGmailEmail_spec in H as (l & -> & _).
    apply endsWith_spec. now exists l. }
  split; [|split; [|split; [apply isValidGmailEmail_spec|]]].
  - unfold RegisterPage.validateEmail. split.
    + destruct (JS.truthy (JS.trim e)); cbn [negb]; [|discriminate].
      destruct (Regex.test EMAIL_REGEX e) eqn:Hre; cbn [negb]; [|discriminate].
      destruct (JS.endsWith "@gmail.com" e) eqn:He; cbn [negb]; [|discriminate].
      intros _. now apply Hkey.
    + intros H. rewrite (valid_truthy e H), (valid_is_email e H), (Hend H).
      reflexivity.
  - intros H. unfold LoginPage.validateEmail.
    now rewrite (valid_truthy e H), (valid_is_email e H).
  - unfold LoginPage.validateEmail.
    destruct (JS.truthy (JS.trim e)); cbn [negb]; [|discriminate].
    destruct (Regex.test EMAIL_REGEX e) eqn:Hre; cbn [negb]; [|discriminate].
    intros _. destruct (JS.endsWith "@gmail.com" e) eqn:He.
    + now apply Hkey.
    + destruct (auth.isValidGmailEmail e) eqn:Hv; [|reflexivity].
      discriminate (Hend eq_refl).
Qed.

(** X13: how [register] ends.  When it throws, the two storage areas
    are as they were.  When it returns a user, the address and the
    password had passed the checks and no account had that address; the
    user holds the address, the Base64 of the password and the time; the
    table written is the old table with the new user at its end, no
    account replaced; and nobody is signed in by it: the session storage
    and the token are as they were. *)
Theorem register_outcomes email password name now_id suffix now w r w' :
  auth.register email password name now_id suffix now w = (r, w') ->
  match r with
  | Thrown _ => w' = w
  | Returned u =>
      auth.isValidGmailEmail email = true
      /\ (6 <= String.length password)%nat
      /\ auth.get (auth.getStoredUsers w) email = auth.Undefined
      /\ auth.email u = email
      /\ auth.hashedPasswordStub u = JS.btoa password
      /\ auth.createdAt u = now
      /\ auth.id u = "user_" ++ JS.toString now_id ++ "_" ++ suffix
      /\ JS.truthy (auth.displayName u) = true
      /\ localStorage w' =
           setItem auth.USERS_STORAGE_KEY
             (auth.JSON_stringify (auth.getStoredUsers w ++ [(email, u)])%list)
             (localStorage w)
      /\ sessionStorage w' = sessionStorage w
      /\ auth.getToken w' = auth.getToken w
  end.
Proof.
  intros H.
  destruct (auth.isValidGmailEmail email) eqn:Hv.
  2:{ unfold auth.register in H. rewrite Hv in H. cbn [negb] in H.
      now injection H as <- <-. }
  destruct (Nat.ltb_spec (String.length password) 6) as [Hlt|Hge].
  { unfold auth.register in H. rewrite Hv in H. cbn [negb] in H.
    apply Nat.ltb_lt in Hlt. rewrite Hlt, orb_true_r in H.
    now injection H as <- <-. }
  rewrite (register_checked email password name now_id suffix now w Hv Hge) in H.
  cbv zeta in H.
  destruct (find _ _) as [kv|] eqn:Hfind; [now injection H as <- <-|].
  destruct (auth.quota_exceeded _ _ _ _); injection H as <- <-; [reflexivity|].
  cbn [auth.email auth.hashedPasswordStub auth.createdAt auth.id auth.displayName
       localStorage sessionStorage].
  split; [reflexivity|]. split; [exact Hge|]. split.
  { unfold auth.get. now rewrite Hfind, (valid_not_inherited email Hv). }
  repeat split.
  apply isValidGmailEmail_spec in Hv as (l & -> & Hne & Hall).
  destruct l as [|c l]; [contradiction|].
  cbn in Hall. apply andb_true_iff in Hall as [Hc _].
  unfold Regex.not_space_at in Hc. apply negb_true_iff in Hc.
  apply orb_false_iff in Hc as [_ Hc].
  set (nm := match name with Some n => JS.trim n | None => "" end).
  unfold JS.or. destruct (JS.truthy nm) eqn:Hn; [exact Hn|].
  cbn [append JS.before]. now rewrite Hc.
Qed.


(** X15: how [login] ends.  When it throws, the two storage areas are
    as they were.  When it returns, the address is one of an account of
    the table, the Base64 of the password is the hash the account holds,
    and what is returned is that account without the hash; the token
    went to the local storage when [remember] is set and to the session
    storage when it is not, the other area and the table of users being
    left alone; and the page is signed in.  Without an account of the
    address, [login] throws. *)
Theorem login_outcomes email password remember now random w r w' :
  auth.login email password remember now random w = (r, w') ->
  match r with
  | Thrown _ => w' = w
  | Returned p =>
      let a := if remember then LocalArea else SessionArea in
      exists user,
        auth.isValidGmailEmail email = true
        /\ In (email, user) (auth.getStoredUsers w)
        /\ auth.hashedPasswordStub user = JS.btoa password
        /\ p = auth.public user
        /\ w' = with_area a
                  (setItem auth.TOKEN_STORAGE_KEY
                     (JS.btoa (email ++ ":" ++ JS.toString now ++ ":" ++ random))
                     (area a w)) w
        /\ auth.getStoredUsers w' = auth.getStoredUsers w
        /\ auth.isAuthenticated w' = true
        /\ auth.isRegistered email w = true
  end.
Proof.
  intros H.
  destruct (auth.isValidGmailEmail email) eqn:Hv.
  2:{ rewrite (login_unchecked _ _ _ _ _ _ Hv) in H. now injection H as <- <-. }
  rewrite (login_checked _ _ _ _ _ _ Hv) in H. cbv zeta in H.
  destruct (find _ _) as [[k user]|] eqn:Hfind; [|now injection H as <- <-].
  cbn [snd] in H.
  destruct (_ =? _)%string eqn:Hhash; [|now injection H as <- <-].
  destruct (auth.quota_exceeded _ _ _ _); injection H as <- <-; [reflexivity|].
  apply String.eqb_eq in Hhash. cbv zeta. exists user.
  pose proof Hfind as Hin. apply find_some in Hin as [Hin Hk]. cbn in Hk.
  apply String.eqb_eq in Hk. subst k.
  split; [reflexivity|]. split; [exact Hin|]. split; [now rewrite <- Hhash|].
  split; [reflexivity|]. split; [reflexivity|].
  split; [apply users_after_token|]. split.
  - apply token_present, btoa_truthy, truthy_append_r. reflexivity.
  - unfold auth.isRegistered, auth.get. now rewrite Hfind.
Qed.

(** X16: after [logout] nobody is signed in, whatever the storage held:
    there is no token, no current user, and the protected route
    navigates to the login page; the accounts are as they were, and so
    is every other key of the two areas.  [_devClearAllUsers] does
    nothing in a production build; in a development build it leaves no
    account and nobody signed in. *)
Theorem logout_signs_out w :
  auth.getToken (auth.logout w) = None
  /\ auth.isAuthenticated (auth.logout w) = false
  /\ auth.getCurrentUser (auth.logout w) = None
  /\ (forall role location,
        ProtectedRoute role location (auth.logout w)
        = Navigate "/login" (Some location) true)
  /\ auth.getStoredUsers (auth.logout w) = auth.getStoredUsers w
  /\ (forall key, key <> auth.TOKEN_STORAGE_KEY ->
        localStorage (auth.logout w) key = localStorage w key
        /\ sessionStorage (auth.logout w) key = sessionStorage w key)
  /\ (auth.development = false -> auth._devClearAllUsers w = w)
  /\ (auth.development = true ->
      auth.getStoredUsers (auth._devClearAllUsers w) = []
      /\ auth.isAuthenticated (auth._devClearAllUsers w) = false).
Proof.
  assert (Htok : forall w0, auth.getToken (auth.logout w0) = None).
  { intros w0. unfold auth.getToken, auth.logout, getItem, removeItem.
    cbn [localStorage sessionStorage]. now rewrite String.eqb_refl. }
  split; [apply Htok|].
  split; [unfold auth.isAuthenticated; now rewrite Htok|].
  split; [unfold auth.getCurrentUser; now rewrite Htok|].
  split; [intros role location; unfold ProtectedRoute, auth.isAuthenticated;
          now rewrite Htok|].
  split; [reflexivity|]. split.
  - intros key Hne. unfold auth.logout, removeItem. cbn [localStorage sessionStorage].
    apply String.eqb_neq in Hne. now rewrite Hne.
  - unfold auth._devClearAllUsers. split; intros ->; cbn [negb]; [reflexivity|].
    split; [reflexivity|]. unfold auth.isAuthenticated. now rewrite Htok.
Qed.

(** X17: whoever signs in, [getCurrentUser] gives the first account of
    the table: after a [login] that returns, it is the first of
    [Object.values] of the stored users, which is the account that
    signed in only when that account is the first. *)
Theorem current_user_is_first_account email password remember now random w p w' :
  auth.login email password remember now random w = (Returned p, w') ->
  exists first,
    hd_error (auth.Object_values (auth.getStoredUsers w)) = Some first
    /\ auth.getCurrentUser w' = Some first
    /\ (forall email' password' remember' now' random' p' w'',
          auth.login email' password' remember' now' random' w = (Returned p', w'') ->
          auth.getCurrentUser w'' = Some first).
Proof.
  intros H.
  assert (Hgen : forall email password remember now random p w',
            auth.login email password remember now random w = (Returned p, w') ->
            auth.getCurrentUser w' =
              hd_error (auth.Object_values (auth.getStoredUsers w))
            /\ auth.getStoredUsers w <> []).
  { clear. intros email password remember now random p w' H.
    pose proof (login_returned _ _ _ _ _ _ _ _ H) as (Hne & Hu & Ha).
    unfold auth.getCurrentUser. unfold auth.isAuthenticated in Ha.
    rewrite Ha, Hu. cbn [negb]. split.
    - now destruct (auth.Object_values _).
    - exact Hne. }
  destruct (Hgen _ _ _ _ _ _ _ H) as [Hcur Hne].
  destruct (auth.getStoredUsers w) as [|[k first] rest] eqn:E; [contradiction|].
  exists first. split; [reflexivity|]. split; [exact Hcur|].
  intros email' password' remember' now' random' p' w'' H'.
  destruct (Hgen _ _ _ _ _ _ _ H') as [Hcur' _]. exact Hcur'.
Qed.

(** X18: from the protected route to the login page and back.  When the
    route has sent the visitor to the login page and the form's
    submission ends in a navigation, the navigation goes to the page the
    visitor had asked for (to [/photobooth] when that path is empty),
    and from then on the protected route renders its children, for every
    path and whatever role is required. *)
Theorem sign_in_returns_to_page role location w to from replace
    email password rememberMe now random path w' :
  ProtectedRoute role location w = Navigate to from replace ->
  LoginPage.handleSubmit email password rememberMe from now random w
    = (Navigated path, w') ->
  to = "/login" /\ replace = true
  /\ auth.isAuthenticated w = false
  /\ path = JS.or location "/photobooth"
  /\ auth.isAuthenticated w' = true
  /\ (forall role' location', ProtectedRoute role' location' w' = Children).
Proof.
  unfold ProtectedRoute, LoginPage.handleSubmit. intros Hroute Hsubmit.
  destruct (auth.isAuthenticated w) eqn:Ha; cbn [negb] in Hroute; [discriminate|].
  injection Hroute as <- <- <-.
  destruct (negb _); [discriminate|].
  destruct (auth.login _ _ _ _ _ _) as [[p|[m]] w1] eqn:Hlogin; [|discriminate].
  injection Hsubmit as <- <-.
  pose proof (login_returned _ _ _ _ _ _ _ _ Hlogin) as (_ & _ & Hauth).
  repeat split; try assumption.
  intros role' location'. now rewrite Hauth.
Qed.



(** X21: what [isRegistered] answers.  For an address that passes the
    service's check it is whether the table has an account under that
    address, and it is then exactly when [register] refuses the address
    as taken.  For a name every object inherits, [constructor] or
    [toString], it answers true with no account at all. *)
Theorem isRegistered_meaning w :
  (forall email,
      auth.isValidGmailEmail email = true ->
      (auth.isRegistered email w = true <->
       In email (map fst (auth.getStoredUsers w))))
  /\ (forall email password name now_id suffix now,
        auth.isValidGmailEmail email = true ->
        (6 <= String.length password)%nat ->
        (auth.isRegistered email w = true <->
         auth.register email password name now_id suffix now w
         = (Thrown (Error "Account already exists. Try signing in."), w)))
  /\ (forall key, In key auth.Object_prototype -> auth.isRegistered key w = true).
Proof.
  assert (Hfind : forall email (users : auth.UserStore),
            (exists kv, find (fun kv => (fst kv =? email)%string) users = Some kv)
            <-> In email (map fst users)).
  { intros email users. split.
    - intros [kv H]. apply find_some in H as [Hin Hk]. apply String.eqb_eq in Hk.
      subst email. now apply in_map.
    - intros H. apply in_map_iff in H as ([k u] & <- & Hin).
      destruct (find (fun kv => (fst kv =? k)%string) users) as [kv|] eqn:E;
        [now exists kv|].
      exfalso. pose proof (find_none _ _ E _ Hin) as Hn. cbn in Hn.
      now rewrite String.eqb_refl in Hn. }
  split; [|split].
  - intros email Hv. rewrite <- Hfind.
    unfold auth.isRegistered, auth.get. rewrite (valid_not_inherited email Hv).
    destruct (find _ _) as [kv|]; split; try discriminate; eauto.
    intros [kv H]. discriminate H.
  - intros email password name now_id suffix now Hv Hlen.
    rewrite (register_checked _ _ _ _ _ _ _ Hv Hlen). cbv zeta.
    unfold auth.isRegistered, auth.get. rewrite (valid_not_inherited email Hv).
    destruct (find _ _) as [kv|]; [tauto|].
    split; [discriminate|].
    destruct (auth.quota_exceeded _ _ _ _); intros H; discriminate H.
  - intros key Hin. unfold auth.isRegistered, auth.get.
    destruct (find _ _); [reflexivity|].
    assert (E : existsb (String.eqb key) auth.Object_prototype = true).
    { apply existsb_exists. exists key. split; [exact Hin|apply String.eqb_refl]. }
    now rewrite E.
Qed.

End AuthFacts.

(** * The theorems at a session *)

#[local] Existing Instance demo_browser.

(** The component after [demo_session]: three photos, no filter. *)
Lemma demo_session_photos :
  let c := run initial demo_session in
  pending c = None
  /\ List.length (items (capturedPhotos (st c))) = 3%nat
  /\ name (activeFilter (st c)) = "No Filter".
Proof. vm_compute. auto. Qed.

(** The scenario of a whole session: three photos, the custom colour
    ['#e0f7fa'], no filter, no stickers.  The canvas is 440 by 1020; the
    background is that colour; the photos are stacked 310 apart from 60
    on; the label is the time of the click; one download is triggered,
    of the canvas as painted. *)
Lemma demo_download :
  exists j0,
    click_download (run initial demo_session) true = Some j0
    /\ let j := job_run j0 [PhotoLoaded 0 1000; PhotoLoaded 1 1001; PhotoLoaded 2 1002] in
       (canvas_width j, canvas_height j) = (440, 1020)
       /\ map (fun p => (shape p, ds_fillStyle (state p), ds_filter (state p)))
            (painted (ctx j))
          = [ (FillRect 0 0 440 1020, "#e0f7fa", "none");
              (FillText "Captured by FotoJB" 220 40, "#222", "none");
              (DrawImage (SrcSnapshot (demo_photo 7)) 20 60 400 300, "#222", "none");
              (DrawImage (SrcSnapshot (demo_photo 7)) 20 370 400 300, "#222", "none");
              (DrawImage (SrcSnapshot (demo_photo 7)) 20 680 400 300, "#222", "none");
              (FillText "11/1/2026, 6:48:00 PM" 220 996, "#555", "none") ]
       /\ map (fun d => (download_ms d, file_painted d)) (downloads j)
          = [ (1002, painted (ctx j)) ].
Proof.
  eexists. split; [vm_compute; reflexivity|]. vm_compute. auto.
Qed.

(** C1 at a strip of two photos. *)
Lemma C1_strip_canvas_size_witness :
  let env := demo_closure [demo_photo 1; demo_photo 2] "none" in
  let style := @None string in
  let color := @None string in
  (1 <= List.length (items (dl_capturedPhotos env)))%nat
  /\ exists j,
       downloadPhotoStrip env style color true = Some j
       /\ canvas_width j = 400 + 40
       /\ (let n := Z.of_nat (List.length (items (dl_capturedPhotos env))) in
           canvas_height j = 60 + n * 300 + (n - 1) * 10 + (16 + 24))
       /\ (List.length (items (dl_capturedPhotos env)) = 2%nat -> canvas_height j = 710)
       /\ forall es, canvas_width (job_run j es) = canvas_width j
                     /\ canvas_height (job_run j es) = canvas_height j.
Proof.
  intros env style color.
  assert (H : (1 <= List.length (items (dl_capturedPhotos env)))%nat) by (cbn; lia).
  split; [exact H|].
  exact (C1_strip_canvas_size env style color H).
Defined.

(** C2 at two photos that load in reverse order, a sticker image in
    between. *)
Lemma C2_download_after_all_photos_witness :
  let env := demo_closure [demo_photo 1; demo_photo 2] "heart" in
  let style := @None string in
  let color := @None string in
  let es := [PhotoLoaded 1 1000; StickerLoaded 0; PhotoLoaded 0 1001] in
  exists j0,
    downloadPhotoStrip env style color true = Some j0
    /\ let j := job_run j0 es in
       let n := List.length (items (dl_capturedPhotos env)) in
       loadedCount j = Z.of_nat (count_loaded (photo_loaded j))
       /\ (download_triggered j = true <->
           forall i, (i < n)%nat -> photo_load_in i es = true)
       /\ (label_drawn j = true <->
           forall i, (i < n)%nat -> photo_load_in i es = true)
       /\ (forall k, loadedCount (job_step j (StickerLoaded k)) = loadedCount j
                     /\ downloads (job_step j (StickerLoaded k)) = downloads j)
       /\ (forallb is_photo_event es = true ->
           (forall i, (i < n)%nat -> photo_load_in i es = true) ->
           download_triggered j = true
           /\ forallb (fun p => negb (is_sticker p)) (painted (ctx j)) = true
           /\ Forall (fun img => sticker_loaded img = false) (stickerImgs j)).
Proof.
  intros env style color es.
  eexists. split; [vm_compute; reflexivity|].
  exact (C2_download_after_all_photos env style color _ es eq_refl).
Defined.

(** C3 at a sequence whose second shot finds no video: two photos. *)
Lemma C3_capture_sequence_witness :
  let c0 := run initial [CameraReady] in
  let now := "11/1/2026, 6:48:00 PM" in
  let w := live in
  let es := map TimerFired [live; live; live; live; live; live; busy; live;
                            live; live; live] in
  reachable c0
  /\ start_disabled (st c0) = false
  /\ forallb (fun e => negb (is_start e)) es = true
  /\ List.length (items (capturedPhotos (st (run c0 (ClickStart now w :: es))))) = 2%nat
  /\ let c := run c0 (ClickStart now w :: es) in
     let instants := shots c0 (ClickStart now w :: es) in
     let photos := items (capturedPhotos (st c)) in
     photos = snapshots_of (activeFilter (st c0)) instants
     /\ List.length photos = List.length (List.filter available instants)
     /\ (List.length instants <= 3)%nat
     /\ (0 <= List.length photos <= 3)%nat
     /\ incl instants (flat_map surface_of es)
     /\ (forall f w', capturePhoto f w' = None <-> available w' = false)
     /\ (pending c = None ->
         List.length instants = 3%nat
         /\ (forallb available instants = true -> List.length photos = 3%nat))
     /\ (forall ws,
           es = map TimerFired ws ->
           List.length ws = Z.to_nat (3 * countdownTime (st c0) + 2) ->
           pending c = None).
Proof.
  intros c0 now w es.
  assert (Hr : reachable c0) by (exists [CameraReady]; reflexivity).
  assert (He : start_disabled (st c0) = false) by (vm_compute; reflexivity).
  assert (Hn : forallb (fun e => negb (is_start e)) es = true) by (vm_compute; reflexivity).
  split; [exact Hr|]. split; [exact He|]. split; [exact Hn|].
  split; [vm_compute; reflexivity|].
  exact (C3_capture_sequence c0 now w es Hr He Hn).
Defined.

(** C4 at the component before the camera is granted. *)
Lemma C4_start_is_noop_witness :
  let c := initial in
  let now := "11/1/2026, 6:48:00 PM" in
  let w := live in
  (isCapturing (st c) = true \/ stream (st c) = None)
  /\ step c (ClickStart now w) = c.
Proof.
  intros c now w.
  assert (H : isCapturing (st c) = true \/ stream (st c) = None) by (right; reflexivity).
  split; [exact H|].
  pose proof (C4_start_is_noop c now w) as N. apply proj1 in N. exact (N H).
Defined.

(** C5 at a second sequence, started after [demo_session]. *)
Lemma C5_start_resets_witness :
  let c0 := run initial demo_session in
  let now := "11/1/2026, 7:02:00 PM" in
  let w := live in
  let es := [TimerFired live; ClickFilter 2; TimerFired live; TimerFired busy;
             TimerFired live] in
  reachable c0
  /\ start_disabled (st c0) = false
  /\ forallb (fun e => negb (is_start e)) es = true
  /\ let c1 := step c0 (ClickStart now w) in
     let c := run c1 es in
     items (capturedPhotos (st c1)) = []
     /\ captureTime (st c1) = now
     /\ items (capturedPhotos (st c)) = snapshots_of (activeFilter (st c0)) (shots c1 es)
     /\ captureTime (st c) = now
     /\ dl_captureTime (m_downloadPhotoStrip (memo c)) = now
     /\ (forall canvas2d j0 es',
           click_download c canvas2d = Some j0 ->
           let j := job_run j0 es' in
           dl_captureTime (job_env j) = now
           /\ forall p, In p (painted (ctx j)) -> is_label (numPhotos j) p = true ->
                        shape p = FillText now (stripWidth / 2) (dateY (numPhotos j))).
Proof.
  intros c0 now w es.
  assert (Hr : reachable c0) by (exists demo_session; reflexivity).
  assert (He : start_disabled (st c0) = false) by (vm_compute; reflexivity).
  assert (Hn : forallb (fun e => negb (is_start e)) es = true) by (vm_compute; reflexivity).
  split; [exact Hr|]. split; [exact He|]. split; [exact Hn|].
  exact (C5_start_resets c0 now w es Hr He Hn).
Defined.

(** C6 at the colour ['#e0f7fa'] and three photos. *)
Lemma C6_custom_color_fill_witness :
  let env := demo_closure [demo_photo 1; demo_photo 2; demo_photo 3] "none" in
  let color := Some "#e0f7fa" in
  let supplied := match color with Some c => c | None => dl_customColor env end in
  css_valid CssColor supplied = true
  /\ exists j0,
       downloadPhotoStrip env (Some "strip-custom") color true = Some j0
       /\ let background :=
            {| shape := FillRect 0 0 (canvas_width j0) (canvas_height j0);
               state :=
                 {| ds_fillStyle := supplied; ds_strokeStyle := "#000000";
                    ds_lineWidth := 1; ds_font := "10px sans-serif";
                    ds_textAlign := "start"; ds_filter := "none"; ds_xform := [] |} |} in
          forall es,
            exists rest,
              painted (ctx (job_run j0 es)) = background :: rest
              /\ Forall (fun p => match shape p with
                                  | DrawImage _ _ _ _ _ | FillText _ _ _ => True
                                  | _ => False
                                  end) rest.
Proof.
  intros env color supplied.
  assert (H : css_valid CssColor supplied = true) by reflexivity.
  split; [exact H|].
  eexists. split; [vm_compute; reflexivity|].
  exact (C6_custom_color_fill env color _ H eq_refl).
Defined.

(** C7 at two photos with the theme ['heart'], the sticker image of the
    first having loaded: eight stickers in its slot, none in the other. *)
Lemma C7_stickers_per_slot_witness :
  let env := demo_closure [demo_photo 1; demo_photo 2] "heart" in
  let style := @None string in
  let color := @None string in
  let es := [PhotoLoaded 0 1000; StickerLoaded 0; PhotoLoaded 1 1001] in
  exists j0,
    downloadPhotoStrip env style color true = Some j0
    /\ stickers_in_slot 0 (painted (ctx (job_run j0 es))) = 8%nat
    /\ stickers_in_slot 1 (painted (ctx (job_run j0 es))) = 0%nat
    /\ let j := job_run j0 es in
       let theme := dl_selectedStickerTheme env in
       (forall idx,
           let k := stickers_in_slot (Z.of_nat idx) (painted (ctx j)) in
           if sticker_has_loaded j (slot_y idx)
           then k = 7%nat \/ k = 8%nat
           else k = 0%nat)
       /\ (forall k img,
             nth_error (stickerImgs j) k = Some img -> sticker_loaded img = false ->
             exists idx more,
               sticker_y img = slot_y idx
               /\ photo_has_loaded j idx = true
               /\ theme_first_image theme = Some (sticker_src img)
               /\ painted (ctx (job_step j (StickerLoaded k)))
                  = (painted (ctx j) ++ more)%list
               /\ (List.length more = 7 \/ List.length more = 8)%nat
               /\ Forall (sticker_op (sticker_src img) (slot_y idx) []) more)
       /\ (forall p url x y w h,
             In p (painted (ctx j)) -> shape p = DrawImage (SrcUrl url) x y w h ->
             theme <> "none" /\ theme_first_image theme = Some url)
       /\ (exists t, find (fun t => (value t =? "none")%string) STICKER_THEMES = Some t
                     /\ images t = [])
       /\ (theme = "none" ->
           forallb (fun p => negb (is_sticker p)) (painted (ctx j)) = true
           /\ stickerImgs j = []).
Proof.
  intros env style color es.
  eexists. split; [vm_compute; reflexivity|].
  split; [vm_compute; reflexivity|]. split; [vm_compute; reflexivity|].
  exact (C7_stickers_per_slot env style color _ es eq_refl).
Defined.

(** C7 as the specification has it fails: with the theme ['heart'] and
    one photo, the load of the photo triggers the download at once; the
    canvas and the file hold no sticker in the slot of the photo, for
    the sticker image, whose [src] was set by the same handler, has not
    loaded. *)
Lemma C7_counterexample :
  (exists j0,
     downloadPhotoStrip (demo_closure [demo_photo 1] "heart") None None true = Some j0
     /\ let j := job_run j0 [PhotoLoaded 0 1000] in
        download_triggered j = true
        /\ stickers_in_slot 0 (painted (ctx j)) = 0%nat
        /\ map (fun d => stickers_in_slot 0 (file_painted d)) (downloads j) = [0%nat])
  /\ ~ stickers_always_7_or_8.
Proof.
  split.
  - eexists. split; [vm_compute; reflexivity|]. vm_compute. auto.
  - intros H.
    specialize (H demo_browser (demo_closure [demo_photo 1] "heart") None None _
                  [PhotoLoaded 0 1000] 0%nat ltac:(discriminate) eq_refl
                  ltac:(cbn; lia)).
    vm_compute in H. destruct H; discriminate.
Qed.

(** C8 at the reference of the sepia filter. *)
Lemma C8_filter_resolved_witness :
  "--filter-sepia" <> ""
  /\ (forall c, In c (list_ascii_of_string "--filter-sepia") -> c <> ")"%char)
  /\ resolveFilter ("var(" ++ "--filter-sepia" ++ ")") =
       JS.or (JS.trim (JS.or (rootStyle (JS.trim "--filter-sepia"))
                         (JS.or (bodyStyle (JS.trim "--filter-sepia")) "none"))) "none".
Proof.
  assert (Hne : "--filter-sepia" <> "") by discriminate.
  assert (Hno : forall c, In c (list_ascii_of_string "--filter-sepia") -> c <> ")"%char)
    by (apply no_rparen_check; vm_compute; reflexivity).
  split; [exact Hne|]. split; [exact Hno|].
  pose proof (@C8_filter_resolved demo_browser) as H.
  apply proj2 in H. apply proj2 in H. apply proj1 in H.
  specialize (H "--filter-sepia" Hne Hno). apply proj1 in H. exact H.
Defined.

(** The filters of the demo browser's stylesheet, resolved. *)
Lemma demo_filters_resolved :
  map (fun f => resolveFilter (cssFilter f)) filters
  = ["none"; "none"; "sepia(1)"; "none"; "none"; "none"; "none"].
Proof. vm_compute. reflexivity. Qed.

(** C9 at a session: three photos are taken under 'No Filter', then
    'Sepia' is chosen, then the download button is clicked.  The filter
    of the state, which the preview shows, is the sepia filter; the
    closure of [downloadPhotoStrip] was made when the third photo was
    appended and still holds 'No Filter', so the three photos are drawn
    under the filter ['none']. *)
Theorem C9_download_uses_stale_filter :
  let c := run initial (demo_session ++ [ClickFilter 2]) in
  name (activeFilter (st c)) = "Sepia"
  /\ resolveFilter (cssFilter (activeFilter (st c))) = "sepia(1)"
  /\ name (dl_activeFilter (m_downloadPhotoStrip (memo c))) = "No Filter"
  /\ exists j0,
       click_download c true = Some j0
       /\ let j := job_run j0 [PhotoLoaded 0 1000; PhotoLoaded 1 1001; PhotoLoaded 2 1002] in
          download_triggered j = true
          /\ photo_filters (painted (ctx j)) = ["none"; "none"; "none"]
          /\ map (fun d => photo_filters (file_painted d)) (downloads j)
             = [["none"; "none"; "none"]].
Proof.
  intros c.
  split; [vm_compute; reflexivity|]. split; [vm_compute; reflexivity|].
  split; [vm_compute; reflexivity|].
  eexists. split; [vm_compute; reflexivity|].
  vm_compute. repeat split.
Qed.

(** With 'Sepia' chosen before the capture the closure is made after
    the choice, and the photos of the download are drawn under the
    resolved filter.  The shots were given the reference unresolved,
    which the context of this browser does not take. *)
Lemma sepia_before_capture :
  let c := run initial (CameraReady :: ClickFilter 2 :: tl demo_session) in
  map snap_filter (items (capturedPhotos (st c))) = ["none"; "none"; "none"]
  /\ exists j0,
       click_download c true = Some j0
       /\ photo_filters (painted (ctx (job_run j0 [PhotoLoaded 0 1000])))
          = ["sepia(1)"].
Proof.
  intros c. split; [vm_compute; reflexivity|].
  eexists. split; [vm_compute; reflexivity|]. vm_compute. reflexivity.
Qed.

(** C10 at three photos of which the second never loads. *)
Lemma C10_no_download_without_every_photo_witness :
  let env := demo_closure [demo_photo 1; demo_photo 2; demo_photo 3] "star" in
  let es := [PhotoLoaded 0 1000; StickerLoaded 0; PhotoLoaded 2 1001; PhotoLoaded 0 1002] in
  exists j0,
    downloadPhotoStrip env None None true = Some j0
    /\ (1 < List.length (items (dl_capturedPhotos env)))%nat
    /\ photo_load_in 1 es = false
    /\ let j := job_run j0 es in
       loadedCount j < numPhotos j
       /\ label_drawn j = false
       /\ download_triggered j = false
       /\ downloads j = [].
Proof.
  intros env es.
  eexists. split; [vm_compute; reflexivity|].
  assert (Hi : (1 < List.length (items (dl_capturedPhotos env)))%nat) by (cbn; lia).
  assert (Hn : photo_load_in 1 es = false) by reflexivity.
  split; [exact Hi|]. split; [exact Hn|].
  pose proof (C10_no_download_without_every_photo env None None) as H.
  apply proj2 in H. apply proj2 in H. apply proj1 in H.
  exact (H _ es 1%nat eq_refl Hi Hn).
Defined.

(** * The further properties at a strip and at a session *)

(** X1 at two photos: the second loads first and is reported twice, a
    sticker image loads in between; the loads handled are those of
    photo 1, then of photo 0. *)
Lemma photos_drawn_in_slots_witness :
  let env := demo_closure [demo_photo 1; demo_photo 2] "heart" in
  let style := @None string in
  let color := @None string in
  let es := [PhotoLoaded 1 1000; StickerLoaded 0; PhotoLoaded 1 1001;
             PhotoLoaded 0 1002] in
  handled [false; false] es = [1%nat; 0%nat]
  /\ exists j0,
       downloadPhotoStrip env style color true = Some j0
       /\ let photos := items (dl_capturedPhotos env) in
          let order := handled (map (fun _ => false) photos) es in
          photo_draws (painted (ctx (job_run j0 es))) = flat_map (slot_draw photos) order
          /\ NoDup order
          /\ (forall i, In i order <->
                        (i < List.length photos)%nat /\ photo_load_in i es = true)
          /\ (forall i, In i order ->
                exists photo,
                  nth_error photos i = Some photo
                  /\ slot_draw photos i =
                       [ (photo, (20, inject_Z (60 + Z.of_nat i * 310), 400, 300))%Q ]).
Proof.
  intros env style color es. split; [reflexivity|].
  eexists. split; [vm_compute; reflexivity|].
  exact (photos_drawn_in_slots env style color _ es eq_refl).
Defined.

(** X2 at the second photo of a strip of two. *)
Lemma photos_inside_canvas_witness :
  let env := demo_closure [demo_photo 1; demo_photo 2] "heart" in
  let style := @None string in
  let color := @None string in
  let es := [PhotoLoaded 1 1000; StickerLoaded 0; PhotoLoaded 0 1002] in
  let d := (demo_photo 2, (20, 370, 400, 300))%Q in
  exists j0,
    downloadPhotoStrip env style color true = Some j0
    /\ In d (photo_draws (painted (ctx (job_run j0 es))))
    /\ let j := job_run j0 es in
       let photos := items (dl_capturedPhotos env) in
       exists i photo,
         (i < List.length photos)%nat
         /\ nth_error photos i = Some photo
         /\ d = (photo, (20, inject_Z (slot_y i), 400, 300))%Q
         /\ 20 + 400 + 20 = canvas_width j
         /\ 40 < slot_y i
         /\ slot_y i + 300 + 16 <= dateY (numPhotos j)
         /\ dateY (numPhotos j) + 24 = canvas_height j
         /\ (forall i', (i < i')%nat -> slot_y i + 300 + 10 <= slot_y i').
Proof.
  intros env style color es d.
  eexists. split; [vm_compute; reflexivity|].
  assert (Hin : In d (photo_draws
                        (painted (ctx (job_run
                           {| job_env := env; canvas_width := stripWidth;
                              canvas_height := stripHeight 2;
                              ctx := draw_header
                                       (paint_background "strip-custom" "#e0f7fa"
                                          stripWidth (stripHeight 2) new_ctx);
                              loadedCount := 0; photo_loaded := [false; false];
                              stickerImgs := []; random_calls := 0;
                              downloads := [] |} es))))).
  { vm_compute. left. reflexivity. }
  split; [exact Hin|].
  exact (photos_inside_canvas env style color _ es d eq_refl Hin).
Defined.


(** X4 at two photos and a sticker image that loads after the file was
    made. *)
Lemma download_once_complete_witness :
  let env := demo_closure [demo_photo 1; demo_photo 2] "heart" in
  let style := @None string in
  let color := @None string in
  let es := [PhotoLoaded 1 1000; PhotoLoaded 0 1001; StickerLoaded 1] in
  exists j0,
    downloadPhotoStrip env style color true = Some j0
    /\ List.length (downloads (job_run j0 es)) = 1%nat
    /\ let j := job_run j0 es in
       let n := List.length (items (dl_capturedPhotos env)) in
       (List.length (downloads j) <= 1)%nat
       /\ (forall d, In d (downloads j) ->
             file_width d = stripWidth
             /\ file_height d = stripHeight (Z.of_nat n)
             /\ List.length (photo_draws (file_painted d)) = n
             /\ exists body label later,
                  file_painted d = (body ++ [label])%list
                  /\ shape label =
                       FillText (dl_captureTime env) (stripWidth / 2)
                         (dateY (Z.of_nat n))
                  /\ painted (ctx j) = (file_painted d ++ later)%list
                  /\ forallb is_sticker later = true)
       /\ (forall e, downloads j <> [] -> downloads (job_step j e) = downloads j).
Proof.
  intros env style color es.
  eexists. split; [vm_compute; reflexivity|].
  split; [vm_compute; reflexivity|].
  exact (download_once_complete env style color _ es eq_refl).
Defined.

(** X5 at a strip drawn under the sepia filter of the stylesheet. *)
Lemma filter_only_on_photos_witness :
  let env := demo_closure [demo_photo 1; demo_photo 2] "heart" in
  let style := @None string in
  let color := @None string in
  let es := [PhotoLoaded 1 1000; StickerLoaded 0; PhotoLoaded 0 1001] in
  photo_filter env = "sepia(1)"
  /\ exists j0,
       downloadPhotoStrip env style color true = Some j0
       /\ let j := job_run j0 es in
          ds_filter (cur (ctx j)) = "none"
          /\ saved (ctx j) = []
          /\ forall p, In p (painted (ctx j)) ->
               ds_filter (state p) = if is_photo p then photo_filter env else "none".
Proof.
  intros env style color es. split; [vm_compute; reflexivity|].
  eexists. split; [vm_compute; reflexivity|].
  exact (filter_only_on_photos env style color _ es eq_refl).
Defined.

(** X6 at a style class the [switch] has no case for. *)
Lemma background_then_header_witness :
  let env := demo_closure [demo_photo 1] "none" in
  let style := Some "strip-plain" in
  let color := @None string in
  exists j0,
    downloadPhotoStrip env style color true = Some j0
    /\ let chosen :=
         match style with Some s => s | None => dl_selectedStripStyle env end in
       exists bg decor header,
         painted (ctx j0) = (bg :: decor ++ [header])%list
         /\ shape bg = FillRect 0 0 (canvas_width j0) (canvas_height j0)
         /\ ds_xform (state bg) = []
         /\ Forall decoration decor
         /\ shape header = FillText "Captured by FotoJB" 220 40
         /\ ds_textAlign (state header) = "center"
         /\ ds_xform (state header) = []
         /\ (~ In chosen styled ->
             decor = []
             /\ (css_valid CssColor "#ffffff" = true ->
                 ds_fillStyle (state bg) = "#ffffff")).
Proof.
  intros env style color.
  eexists. split; [vm_compute; reflexivity|].
  exact (background_then_header env style color _ eq_refl).
Defined.

(** X7 at the second tick of the first countdown. *)
Lemma countdown_overlay_witness :
  let c := run initial [CameraReady; ClickStart "11/1/2026, 6:48:00 PM" live;
                        TimerFired live] in
  reachable c
  /\ countdownValue (st c) = 2
  /\ (isCountingDown (st c) = true <->
      exists r i count, pending c = Some r /\ run_at r = AwaitTick i count)
  /\ (forall r i count,
        pending c = Some r -> run_at r = AwaitTick i count ->
        countdownValue (st c) = count
        /\ 1 <= count <= st_countdownTime (run_closure r)).
Proof.
  intros c.
  assert (Hr : reachable c) by (eexists; reflexivity).
  split; [exact Hr|]. split; [reflexivity|].
  exact (countdown_overlay c Hr).
Defined.

(** X8 at a sequence started with a countdown of five, during which the
    countdown of three and the sepia filter are chosen. *)
Lemma sequence_ends_after_timers_witness :
  let c0 := run initial [CameraReady; SelectCountdown Seconds5] in
  let now := "11/1/2026, 6:48:00 PM" in
  let w := live in
  let es := [TimerFired live; SelectCountdown Seconds3; ClickFilter 2;
             TimerFired live; TimerFired live] in
  reachable c0
  /\ start_disabled (st c0) = false
  /\ forallb (fun e => negb (is_start e)) es = true
  /\ let c := run c0 (ClickStart now w :: es) in
     let T := countdownTime (st c0) in
     (pending c = None <-> 3 * T + 2 <= Z.of_nat (timers es))
     /\ (forall r,
           pending c = Some r ->
           st_countdownTime (run_closure r) = T
           /\ cap_activeFilter (st_capturePhoto (run_closure r)) = activeFilter (st c0)
           /\ Z.of_nat (remaining r) = 3 * T + 2 - Z.of_nat (timers es)).
Proof.
  intros c0 now w es.
  assert (Hr : reachable c0) by (eexists; reflexivity).
  assert (He : start_disabled (st c0) = false) by (vm_compute; reflexivity).
  assert (Hn : forallb (fun e => negb (is_start e)) es = true) by (vm_compute; reflexivity).
  split; [exact Hr|]. split; [exact He|]. split; [exact Hn|].
  exact (sequence_ends_after_timers c0 now w es Hr He Hn).
Defined.

(** X10 after a session and a click on the sepia filter. *)
Lemma callbacks_fresh_witness :
  let c := run initial (demo_session ++ [ClickFilter 2]) in
  reachable c
  /\ name (activeFilter (st c)) = "Sepia"
  /\ cap_activeFilter (m_capturePhoto (memo c)) = activeFilter (st c)
  /\ st_capturePhoto (m_startPhotoSequence (memo c)) = m_capturePhoto (memo c)
  /\ st_countdownTime (m_startPhotoSequence (memo c)) = countdownTime (st c)
  /\ st_isCapturing (m_startPhotoSequence (memo c)) = isCapturing (st c)
  /\ dl_capturedPhotos (m_downloadPhotoStrip (memo c)) = capturedPhotos (st c)
  /\ dl_selectedStripStyle (m_downloadPhotoStrip (memo c)) = selectedStripStyle (st c)
  /\ dl_captureTime (m_downloadPhotoStrip (memo c)) = captureTime (st c)
  /\ dl_selectedStickerTheme (m_downloadPhotoStrip (memo c))
     = selectedStickerTheme (st c).
Proof.
  intros c.
  assert (Hr : reachable c) by (eexists; reflexivity).
  split; [exact Hr|]. split; [vm_compute; reflexivity|].
  exact (callbacks_fresh c Hr).
Defined.

(** X11 after a session and a colour picked: the closure still holds the
    colour of before, the background is the colour picked. *)
Lemma download_from_page_witness :
  let c := run initial (demo_session ++ [PickColor "#ff0000"]) in
  let es := [PhotoLoaded 0 1000; PhotoLoaded 1 1001; PhotoLoaded 2 1002] in
  reachable c
  /\ dl_customColor (m_downloadPhotoStrip (memo c)) = "#e0f7fa"
  /\ customColor (st c) = "#ff0000"
  /\ exists j0,
       click_download c true = Some j0
       /\ let j := job_run j0 es in
          selectedStripStyle (st c) = "strip-custom"
          /\ dl_capturedPhotos (job_env j) = capturedPhotos (st c)
          /\ dl_captureTime (job_env j) = captureTime (st c)
          /\ numPhotos j = Z.of_nat (List.length (items (capturedPhotos (st c))))
          /\ stickerImgs j = []
          /\ (forall p, In p (painted (ctx j)) -> is_sticker p = false)
          /\ (css_valid CssColor (customColor (st c)) = true ->
              exists rest,
                painted (ctx j) =
                  {| shape := FillRect 0 0 (canvas_width j) (canvas_height j);
                     state :=
                       {| ds_fillStyle := customColor (st c);
                          ds_strokeStyle := "#000000"; ds_lineWidth := 1;
                          ds_font := "10px sans-serif"; ds_textAlign := "start";
                          ds_filter := "none"; ds_xform := [] |} |} :: rest).
Proof.
  intros c es.
  assert (Hr : reachable c) by (eexists; reflexivity).
  split; [exact Hr|]. split; [vm_compute; reflexivity|].
  split; [vm_compute; reflexivity|].
  assert (Hclick : exists j0, click_download c true = Some j0)
    by (eexists; vm_compute; reflexivity).
  destruct Hclick as [j0 Hclick]. exists j0. split; [exact Hclick|].
  exact (download_from_page c j0 es Hr Hclick).
Defined.

(** X22 after a session and a click on the sepia filter. *)
Lemma one_filter_button_active_witness :
  let c := run initial (demo_session ++ [ClickFilter 2]) in
  reachable c
  /\ map (filter_button_active (st c)) filters
     = [false; false; true; false; false; false; false]
  /\ In (activeFilter (st c)) filters
  /\ List.length (List.filter (filter_button_active (st c)) filters) = 1%nat.
Proof.
  intros c.
  assert (Hr : reachable c) by (eexists; reflexivity).
  split; [exact Hr|]. split; [vm_compute; reflexivity|].
  exact (one_filter_button_active c Hr).
Defined.

(** * The properties of the service at two accounts *)

#[local] Existing Instance demo_platform.

(** X13 at the registration of the first account. *)
Lemma register_outcomes_witness :
  let email := "ana@gmail.com" in
  let password := "secret1" in
  let name := Some "  Ana " in
  let w := first_visit in
  exists w',
    auth.register email password name 1700000000000 "k3j9x0a1b" 1700000000001 w
      = (Returned ana, w')
    /\ auth.isValidGmailEmail email = true
    /\ (6 <= String.length password)%nat
    /\ auth.get (auth.getStoredUsers w) email = auth.Undefined
    /\ auth.email ana = email
    /\ auth.hashedPasswordStub ana = JS.btoa password
    /\ auth.createdAt ana = 1700000000001
    /\ auth.id ana = "user_" ++ JS.toString 1700000000000 ++ "_" ++ "k3j9x0a1b"
    /\ JS.truthy (auth.displayName ana) = true
    /\ localStorage w' =
         setItem auth.USERS_STORAGE_KEY
           (auth.JSON_stringify (auth.getStoredUsers w ++ [(email, ana)])%list)
           (localStorage w)
    /\ sessionStorage w' = sessionStorage w
    /\ auth.getToken w' = auth.getToken w.
Proof.
  intros email password name w.
  assert (H : exists w',
            auth.register email password name 1700000000000 "k3j9x0a1b"
              1700000000001 w = (Returned ana, w'))
    by (eexists; vm_compute; reflexivity).
  destruct H as [w' H]. exists w'. split; [exact H|].
  exact (register_outcomes _ _ _ _ _ _ _ _ _ H).
Defined.


(** X15 at the second account signing in for the session. *)
Lemma login_outcomes_witness :
  let email := "bob@gmail.com" in
  let password := "hunter22" in
  let remember := false in
  let w := two_accounts in
  exists p,
    auth.login email password remember 1700000001000 "0.123" w = (Returned p, bob_signed_in)
    /\ sessionStorage bob_signed_in auth.TOKEN_STORAGE_KEY
       = Some "Ym9iQGdtYWlsLmNvbToxNzAwMDAwMDAxMDAwOjAuMTIz"
    /\ let a := if remember then LocalArea else SessionArea in
       exists user,
         auth.isValidGmailEmail email = true
         /\ In (email, user) (auth.getStoredUsers w)
         /\ auth.hashedPasswordStub user = JS.btoa password
         /\ p = auth.public user
         /\ bob_signed_in =
              with_area a
                (setItem auth.TOKEN_STORAGE_KEY
                   (JS.btoa (email ++ ":" ++ JS.toString 1700000001000 ++ ":" ++ "0.123"))
                   (area a w)) w
         /\ auth.getStoredUsers bob_signed_in = auth.getStoredUsers w
         /\ auth.isAuthenticated bob_signed_in = true
         /\ auth.isRegistered email w = true.
Proof.
  intros email password remember w.
  assert (H : exists p,
            auth.login email password remember 1700000001000 "0.123" w
              = (Returned p, bob_signed_in))
    by (eexists; vm_compute; reflexivity).
  destruct H as [p H]. exists p. split; [exact H|].
  split; [vm_compute; reflexivity|].
  exact (login_outcomes _ _ _ _ _ _ _ _ H).
Defined.

(** X17 at the second account signed in: the current user is the first
    account. *)
Lemma current_user_is_first_account_witness :
  let w := two_accounts in
  auth.getCurrentUser bob_signed_in = Some ana
  /\ exists p,
       auth.login "bob@gmail.com" "hunter22" false 1700000001000 "0.123" w
         = (Returned p, bob_signed_in)
       /\ exists first,
            hd_error (auth.Object_values (auth.getStoredUsers w)) = Some first
            /\ auth.getCurrentUser bob_signed_in = Some first
            /\ (forall email' password' remember' now' random' p' w'',
                  auth.login email' password' remember' now' random' w
                    = (Returned p', w'') ->
                  auth.getCurrentUser w'' = Some first).
Proof.
  intros w. split; [vm_compute; reflexivity|].
  assert (H : exists p,
            auth.login "bob@gmail.com" "hunter22" false 1700000001000 "0.123" w
              = (Returned p, bob_signed_in))
    by (eexists; vm_compute; reflexivity).
  destruct H as [p H]. exists p. split; [exact H|].
  exact (current_user_is_first_account _ _ _ _ _ _ _ _ H).
Defined.

(** X18 at a visitor of the photobooth who is not signed in. *)
Lemma sign_in_returns_to_page_witness :
  let w := two_accounts in
  let location := "/photobooth" in
  ProtectedRoute None location w = Navigate "/login" (Some location) true
  /\ exists w',
       LoginPage.handleSubmit "bob@gmail.com" "hunter22" true (Some location)
         1700000001000 "0.123" w = (Navigated "/photobooth", w')
       /\ "/login" = "/login" /\ true = true
       /\ auth.isAuthenticated w = false
       /\ "/photobooth" = JS.or location "/photobooth"
       /\ auth.isAuthenticated w' = true
       /\ (forall role' location', ProtectedRoute role' location' w' = Children).
Proof.
  intros w location.
  assert (H1 : ProtectedRoute None location w = Navigate "/login" (Some location) true)
    by (vm_compute; reflexivity).
  assert (H2 : exists w',
            LoginPage.handleSubmit "bob@gmail.com" "hunter22" true (Some location)
              1700000001000 "0.123" w = (Navigated "/photobooth", w'))
    by (eexists; vm_compute; reflexivity).
  destruct H2 as [w' H2]. split; [exact H1|]. exists w'. split; [exact H2|].
  exact (sign_in_returns_to_page _ _ _ _ _ _ _ _ _ _ _ _ _ H1 H2).
Defined.


